(** * reflink: clone-or-copy orchestration, embedded from the Go sources

    The development follows the layout of the package:
    - [errors.go]         the two sentinel errors,
    - [reflink_linux.go]  the Linux primitives (module [Linux]),
    - [reflink.go]        the primitives of every other platform (module [Other]),
    - the [sectionWriter], the writer over a range of a file,
    - [api.go]            [Always], [Auto], [Reflink], [Partial].

    The operating system and the parts of the Go standard library the package
    calls are not part of the package.  They are modelled by a small file
    system ([World]) together with a [Host] record that decides the outcome of
    the system calls that can be refused: opening, creating the temporary
    file, fstat, fchmod, rename, the two clone ioctls, copy_file_range, and
    writes past a file size limit.  Besides what the host decides, the clone
    ioctls refuse ranges that are not aligned to the block size of the
    filesystem, and copy_file_range reads its length as a [size_t].  Reads
    of an open file, [Close], and the removal of a name that exists are not
    refused. *)

From Stdlib Require Import ZArith Lia Ascii.
From stdpp Require Import gmap strings list fin_maps.

Open Scope Z_scope.

(** ** Errors *)

(** Go's [error] values that can flow through the package.  A nil error is
    [None : option error]. *)
Inductive error : Type :=
| ErrReflinkUnsupported                       (* errors.go *)
| ErrReflinkFailed                            (* errors.go *)
| Errno (e : Z)                               (* syscall.Errno / unix.Errno *)
| ErrClosed                                   (* os.ErrClosed *)
| ErrFileClosing                              (* poll.ErrFileClosing *)
| EOF                                         (* io.EOF *)
| ErrShortWrite                               (* io.ErrShortWrite *)
| errInvalidWrite                             (* io.errInvalidWrite *)
| ErrorString (s : string)                    (* errors.New(s) *)
| PathError (op path : string) (err : error)  (* *fs.PathError *)
| LinkError (op old new : string) (err : error) (* *os.LinkError *)
| WrapError (msg : string) (err : error).     (* fmt.Errorf(msg + ": %w", err) *)

Definition error_eq_dec (a b : error) : {a = b} + {a <> b}.
Proof. decide equality; first [apply Z.eq_dec | apply String.string_dec]. Defined.

#[global] Instance error_eq_decision : EqDecision error := error_eq_dec.

(** Linux errno values used below (asm-generic/errno-base.h, errno.h). *)
Definition EPERM : Z := 1.
Definition ENOENT : Z := 2.
Definition EBADF : Z := 9.
Definition EEXIST : Z := 17.
Definition EXDEV : Z := 18.
Definition EISDIR : Z := 21.
Definition EINVAL : Z := 22.
Definition EFBIG : Z := 27.
Definition EOVERFLOW : Z := 75.
Definition ENOTSUP : Z := 95.   (* unix.ENOTSUP = unix.EOPNOTSUPP on Linux *)

(** [errors.Is]: the error itself or one it wraps is the target.
    [syscall.Errno.Is] only answers for the portable [oserror] sentinels,
    none of which is a target here. *)
Fixpoint errors_Is (err target : error) : bool :=
  if decide (err = target) then true
  else match err with
       | PathError _ _ e | LinkError _ _ _ e | WrapError _ e => errors_Is e target
       | _ => false
       end.

(** ** Machine integers *)

(** Go's [int64] addition wraps around. *)
Definition wrap64 (z : Z) : Z := (z + 2 ^ 63) mod 2 ^ 64 - 2 ^ 63.
Definition add64 (a b : Z) : Z := wrap64 (a + b).
Definition int64_range (z : Z) : Prop := - 2 ^ 63 <= z < 2 ^ 63.

(** ** The file system *)

Abbreviation byte := Byte.byte.

(** What a file is for this package: its bytes and its mode bits. *)
Record Inode := { i_data : list byte; i_mode : Z }.

(** Inodes are numbered by their position in [inodes]; [names] are the
    directory entries. *)
Record World := { inodes : list Inode; names : gmap string nat }.

(** [*os.File]: the inode it is open on, the name it was opened under, the
    offset of the descriptor and whether [Close] was called. *)
Record File := { f_ino : nat; f_name : string; f_pos : Z; f_closed : bool }.

(** [fs.FileInfo], as far as the package reads it. *)
Record FileInfo := { Size : Z; Mode : Z }.

(** Decisions of the host: which system calls are refused, and with what.
    An errno of [0] lets the call through. *)
Record Host := {
  open_errno : string -> Z;          (* open(2) on a path *)
  temp_errno : Z;                    (* creating the temporary file *)
  temp_names : string -> list string; (* candidate temporary paths in a directory *)
  fstat_errno : Z;                   (* fstat(2) *)
  fchmod_errno : Z;                  (* fchmod(2) *)
  rename_errno : Z;                  (* rename(2) *)
  fsize_limit : option Z;            (* largest file size write(2) may reach *)
  ficlone_errno : Z;                 (* ioctl(FICLONE) *)
  ficlonerange_errno : Z;            (* ioctl(FICLONERANGE) *)
  block_size : Z;                    (* block size of the filesystem *)
  cfr_errno : Z;                     (* copy_file_range(2) *)
  cfr_max : Z                        (* most bytes one copy_file_range call moves,
                                        whatever stops it: the kernel's
                                        MAX_RW_COUNT, a file size limit of the
                                        process, the filesystem *)
}.

Definition set_inode (w : World) (i : nat) (x : Inode) : World :=
  {| inodes := <[i := x]> (inodes w); names := names w |}.

Definition set_names (w : World) (m : gmap string nat) : World :=
  {| inodes := inodes w; names := m |}.

Definition data_of (w : World) (i : nat) : list byte :=
  match inodes w !! i with Some x => i_data x | None => [] end.

Definition mode_of (w : World) (i : nat) : Z :=
  match inodes w !! i with Some x => i_mode x | None => 0 end.

Definition set_data (w : World) (i : nat) (d : list byte) : World :=
  match inodes w !! i with
  | Some x => set_inode w i {| i_data := d; i_mode := i_mode x |}
  | None => w
  end.

(** Bytes [p] stored at offset [off]: a gap past the end is filled with
    zeros, bytes after the written range stay. *)
Definition splice (d : list byte) (off : nat) (p : list byte) : list byte :=
  take off d ++ replicate (off - length d) Byte.x00 ++ p ++ drop (off + length p) d.

(** The bytes of [d] in [[off, off+len)], as far as they exist. *)
Definition slice (d : list byte) (off len : nat) : list byte :=
  take len (drop off d).

(** ** The standard library and the kernel, as the package uses them *)

(** [filepath.Dir]: the path up to its last separator. *)
Fixpoint dir_prefix (s : string) : option string :=
  match s with
  | EmptyString => None
  | String c r =>
      match dir_prefix r with
      | Some d => Some (String c d)
      | None => if Ascii.eqb c "/"%char then Some EmptyString else None
      end
  end.

Definition filepath_Dir (s : string) : string :=
  match dir_prefix s with
  | None => "."
  | Some EmptyString => "/"
  | Some d => d
  end.

(** Mode of a file made by [ioutil.TempFile]: 0600. *)
Definition temp_mode : Z := 384.

(** [os.ErrExist]. *)
Definition ErrExist : error := ErrorString "file already exists".

(** The path [os.CreateTemp] reports when it runs out of names: the
    directory joined with the pattern, which is "*" for an empty one. *)
Fixpoint ends_with_separator (s : string) : bool :=
  match s with
  | EmptyString => false
  | String c EmptyString => Ascii.eqb c "/"%char
  | String _ r => ends_with_separator r
  end.

Definition temp_pattern (dir : string) : string :=
  if ends_with_separator dir then (dir +:+ "*")%string else (dir +:+ "/*")%string.

Definition pathErr (op : string) (f : File) (e : error) : error :=
  PathError op (f_name f) e.

Section OS.
Variable h : Host.

(** [os.Open]. *)
Definition os_Open (name : string) (w : World) : File + error :=
  if open_errno h name =? 0 then
    match names w !! name with
    | Some i => inl {| f_ino := i; f_name := name; f_pos := 0; f_closed := false |}
    | None => inr (PathError "open" name (Errno ENOENT))
    end
  else inr (PathError "open" name (Errno (open_errno h name))).

(** [ioutil.TempFile(dir, "")], which is [os.CreateTemp]: a new empty file
    of mode 0600 under the first candidate name that is not taken.  An open
    that the host refuses fails on the first name tried, and the error names
    that path; when every candidate exists, or every open is answered with
    [EEXIST], the error names the pattern. *)
Definition ioutil_TempFile (dir : string) (w : World) : World * (File + error) :=
  match temp_names h dir with
  | [] => (w, inr (PathError "createtemp" (temp_pattern dir) ErrExist))
  | first :: _ =>
      if temp_errno h =? 0 then
        match find (fun nm => bool_decide (names w !! nm = None)) (temp_names h dir) with
        | Some nm =>
            let i := length (inodes w) in
            ({| inodes := inodes w ++ [{| i_data := []; i_mode := temp_mode |}];
                names := <[nm := i]> (names w) |},
             inl {| f_ino := i; f_name := nm; f_pos := 0; f_closed := false |})
        | None => (w, inr (PathError "createtemp" (temp_pattern dir) ErrExist))
        end
      else if temp_errno h =? EEXIST
      then (w, inr (PathError "createtemp" (temp_pattern dir) ErrExist))
      else (w, inr (PathError "open" first (Errno (temp_errno h))))
  end.

(** [os.File.Close]; the package never reads its result. *)
Definition File_Close (f : File) : File :=
  {| f_ino := f_ino f; f_name := f_name f; f_pos := f_pos f; f_closed := true |}.

(** [os.File.Stat]. *)
Definition File_Stat (f : File) (w : World) : FileInfo + error :=
  if f_closed f then inr (pathErr "stat" f ErrClosed)
  else if fstat_errno h =? 0 then
    match inodes w !! f_ino f with
    | Some x => inl {| Size := Z.of_nat (length (i_data x)); Mode := i_mode x |}
    | None => inr (pathErr "stat" f (Errno EBADF))
    end
  else inr (pathErr "stat" f (Errno (fstat_errno h))).

(** [os.File.Chmod]: refused on a closed file. *)
Definition File_Chmod (f : File) (mode : Z) (w : World) : World * option error :=
  if f_closed f then (w, Some (pathErr "chmod" f ErrClosed))
  else if fchmod_errno h =? 0 then
    match inodes w !! f_ino f with
    | Some x => (set_inode w (f_ino f) {| i_data := i_data x; i_mode := mode |}, None)
    | None => (w, Some (pathErr "chmod" f (Errno EBADF)))
    end
  else (w, Some (pathErr "chmod" f (Errno (fchmod_errno h)))).

(** [os.File.Truncate]. *)
Definition File_Truncate (f : File) (size : Z) (w : World) : World * option error :=
  if f_closed f then (w, Some (pathErr "truncate" f ErrClosed))
  else if size <? 0 then (w, Some (pathErr "truncate" f (Errno EINVAL)))
  else match inodes w !! f_ino f with
       | Some x =>
           let n := Z.to_nat size in
           (set_data w (f_ino f)
              (take n (i_data x) ++ replicate (n - length (i_data x)) Byte.x00), None)
       | None => (w, Some (pathErr "truncate" f (Errno EBADF)))
       end.

(** pwrite(2), repeated until everything is written or the kernel refuses:
    bytes that fit under the file size limit are stored, and an early stop
    is reported with [EFBIG]. *)
Definition pwrite (i : nat) (p : list byte) (off : Z) (w : World)
  : World * (Z * option error) :=
  match inodes w !! i with
  | None => (w, (0, Some (Errno EBADF)))
  | Some x =>
      let len := Z.of_nat (length p) in
      let room := match fsize_limit h with
                  | Some L => Z.max 0 (L - off)
                  | None => len
                  end in
      let m := Z.min len room in
      let w' := if m =? 0 then w
                else set_data w i (splice (i_data x) (Z.to_nat off) (take (Z.to_nat m) p)) in
      (w', (m, if m <? len then Some (Errno EFBIG) else None))
  end.

Definition wrapErr (op : string) (f : File) (r : option error) : option error :=
  match r with Some e => Some (pathErr op f e) | None => None end.

(** [os.File.WriteAt]. *)
Definition File_WriteAt (f : File) (p : list byte) (off : Z) (w : World)
  : World * (Z * option error) :=
  if f_closed f then (w, (0, Some (pathErr "write" f ErrClosed)))
  else if off <? 0 then (w, (0, Some (pathErr "writeat" f (ErrorString "negative offset"))))
  else let '(w', (n, e)) := pwrite (f_ino f) p off w in
       (w', (n, wrapErr "write" f e)).

(** [os.File.ReadAt] into a buffer of [len] bytes: fewer bytes than
    asked come with [io.EOF]. *)
Definition File_ReadAt (f : File) (len : Z) (off : Z) (w : World)
  : list byte * option error :=
  if f_closed f then ([], Some (pathErr "read" f ErrClosed))
  else if off <? 0 then ([], Some (pathErr "readat" f (ErrorString "negative offset")))
  else let d := slice (data_of w (f_ino f)) (Z.to_nat off) (Z.to_nat len) in
       (d, if Z.of_nat (length d) <? len then Some EOF else None).

(** [io.Copy(dst, src)] between two [*os.File]: whichever route the
    library takes (copy_file_range, sendfile, a read/write loop), the bytes
    of [src] from its offset to its end are written at the offset of
    [dst], and both offsets move. *)
Definition io_Copy_File (dst src : File) (w : World)
  : World * (File * File * (Z * option error)) :=
  if f_closed src then (w, (dst, src, (0, Some (pathErr "read" src ErrClosed))))
  else if f_closed dst then (w, (dst, src, (0, Some (pathErr "write" dst ErrClosed))))
  else
    let p := drop (Z.to_nat (f_pos src)) (data_of w (f_ino src)) in
    let '(w', (n, e)) := pwrite (f_ino dst) p (f_pos dst) w in
    (w', ({| f_ino := f_ino dst; f_name := f_name dst;
             f_pos := f_pos dst + n; f_closed := false |},
          {| f_ino := f_ino src; f_name := f_name src;
             f_pos := f_pos src + n; f_closed := false |},
          (n, wrapErr "write" dst e))).

(** [os.Rename]: the new name takes over the inode of the old one. *)
Definition os_Rename (old new : string) (w : World) : World * option error :=
  if rename_errno h =? 0 then
    match names w !! old with
    | Some i => (set_names w (<[new := i]> (delete old (names w))), None)
    | None => (w, Some (LinkError "rename" old new (Errno ENOENT)))
    end
  else (w, Some (LinkError "rename" old new (Errno (rename_errno h)))).

(** [os.Remove]: the name goes away. *)
Definition os_Remove (name : string) (w : World) : World * option error :=
  match names w !! name with
  | Some _ => (set_names w (delete name (names w)), None)
  | None => (w, Some (PathError "remove" name (Errno ENOENT)))
  end.

(** A position or length that is a multiple of the block size. *)
Definition aligned (x : Z) : bool := x mod block_size h =? 0.

(** ioctl(dest_fd, FICLONE, src_fd): the destination shares the blocks of
    the whole source from offset 0.  A source that ends inside a block can
    only be cloned over a destination that is not longer than it: a partial
    last block in the middle of the destination is refused with [EINVAL].
    The destination is never shortened. *)
Definition unix_IoctlFileClone (d s : File) (w : World) : World * option error :=
  if ficlone_errno h =? 0 then
    match inodes w !! f_ino s, inodes w !! f_ino d with
    | Some si, Some di =>
        let size := Z.of_nat (length (i_data si)) in
        if aligned size || (Z.of_nat (length (i_data di)) <=? size)
        then (set_data w (f_ino d) (splice (i_data di) 0 (i_data si)), None)
        else (w, Some (Errno EINVAL))
    | _, _ => (w, Some (Errno EBADF))
    end
  else (w, Some (Errno (ficlone_errno h))).

(** [unix.FileCloneRange]. *)
Record FileCloneRange := {
  Src_fd : File; Src_offset : Z; Src_length : Z; Dest_offset : Z
}.

Definition uint64 (z : Z) : Z := z mod 2 ^ 64.

(** ioctl(dest_fd, FICLONERANGE, req): a source length of 0 means "to the
    end of the source" (ioctl_ficlonerange(2)), and nothing is left to do
    when the source offset is that end.  Refused with [EINVAL] are: an
    offset that is negative as a signed 64-bit number; a range that leaves
    the source, or whose end does not fit a signed 64-bit offset; a source
    or destination offset that is not aligned to the block size; a length
    that is not aligned, unless the range ends with the source and does
    not stop inside the destination. *)
Definition unix_IoctlFileCloneRange (d : File) (req : FileCloneRange) (w : World)
  : World * option error :=
  if ficlonerange_errno h =? 0 then
    match inodes w !! f_ino (Src_fd req), inodes w !! f_ino d with
    | Some si, Some di =>
        let size := Z.of_nat (length (i_data si)) in
        let len := if Src_length req =? 0 then size - Src_offset req
                   else Src_length req in
        if (2 ^ 63 <=? Src_offset req) || (2 ^ 63 <=? Dest_offset req)
        then (w, Some (Errno EINVAL))
        else if len =? 0 then (w, None)
        else if (0 <=? len) && (Src_offset req + len <=? size)
           && (Src_offset req + len <? 2 ^ 63) && (Dest_offset req + len <? 2 ^ 63)
           && aligned (Src_offset req) && aligned (Dest_offset req)
           && (aligned len
               || ((Src_offset req + len =? size)
                   && (Z.of_nat (length (i_data di)) <=? Dest_offset req + len)))
        then (set_data w (f_ino d)
                (splice (i_data di) (Z.to_nat (Dest_offset req))
                   (slice (i_data si) (Z.to_nat (Src_offset req)) (Z.to_nat len))), None)
        else (w, Some (Errno EINVAL))
    | _, _ => (w, Some (Errno EBADF))
    end
  else (w, Some (Errno (ficlonerange_errno h))).

(** An [int64] read as the unsigned 64-bit number with the same bits, as
    the kernel reads the [int] length and the offsets it is handed. *)
Definition size_t (z : Z) : Z := if z <? 0 then z + 2 ^ 64 else z.

(** copy_file_range(2) with explicit offsets: one call moves at most
    [cfr_max] bytes and stops at the end of the source; the offsets of the
    descriptors do not move.  Whatever else stops a call short, a file
    size limit of the process included, is part of [cfr_max].  The length
    is a [size_t]: a negative [int] arrives as a huge count, which asks for
    everything up to the end of the source.  An offset plus the count that
    wraps around 64 bits is refused with [EOVERFLOW], a negative offset
    with [EINVAL]. *)
Definition unix_CopyFileRange (s : File) (roff : Z) (d : File) (woff : Z) (len : Z)
    (w : World) : World * (Z * option error) :=
  if cfr_errno h =? 0 then
    match inodes w !! f_ino s, inodes w !! f_ino d with
    | Some si, Some di =>
        let len := size_t len in
        if (2 ^ 64 <=? size_t roff + len) || (2 ^ 64 <=? size_t woff + len)
        then (w, (-1, Some (Errno EOVERFLOW)))
        else if (roff <? 0) || (woff <? 0) then (w, (-1, Some (Errno EINVAL)))
        else
          let avail := Z.of_nat (length (i_data si)) - roff in
          let n := Z.max 0 (Z.min (Z.min len (cfr_max h)) avail) in
          let w' := if n =? 0 then w
                    else set_data w (f_ino d)
                           (splice (i_data di) (Z.to_nat woff)
                              (slice (i_data si) (Z.to_nat roff) (Z.to_nat n))) in
          (w', (n, None))
    | _, _ => (w, (-1, Some (Errno EBADF)))
    end
  else (w, (-1, Some (Errno (cfr_errno h)))).

(** [os.File.SyscallConn] and [RawConn.Control]: [Control] runs the
    function on the descriptor unless the file is closed.  The function
    here returns the values of the variables the Go closure assigns; [x0]
    are their values when it does not run. *)
Definition SyscallConn (f : File) : File + error := inl f.

Definition Control {X : Type} (c : File) (f : World -> World * X) (x0 : X) (w : World)
  : World * (option error * X) :=
  if f_closed c then (w, (Some ErrFileClosing, x0))
  else let '(w', x) := f w in (w', (None, x)).
End OS.

(** ** reflink_linux.go and reflink.go: the clone primitives *)

(** The three primitives every platform file provides; the build tags pick
    one implementation. *)
Class Primitives := {
  reflinkInternal : File -> File -> World -> World * option error;
  reflinkRangeInternal : File -> File -> Z -> Z -> Z -> World -> World * option error;
  copyFileRange : File -> File -> Z -> Z -> Z -> World -> World * (Z * option error)
}.

Definition notnil (err : option error) : bool :=
  match err with Some _ => true | None => false end.

Module Linux.
Section Linux.
Variable h : Host.

Definition reflinkInternal (d s : File) (w : World) : World * option error :=
  match SyscallConn s with
  | inr err => (w, Some err)
  | inl ss =>
      match SyscallConn d with
      | inr err => (w, Some err)
      | inl sd =>
          let '(w', (err, (err2, err3))) :=
            Control sd (Control ss (unix_IoctlFileClone h sd ss) None) (None, None) w in
          (w', match err with
                  | Some e => Some e                 (* sd.Control failed *)
                  | None =>
                      match err2 with
                      | Some e => Some e             (* ss.Control failed *)
                      | None =>
                          match err3 with
                          | Some e3 =>
                              if errors_Is e3 (Errno ENOTSUP) then Some ErrReflinkFailed
                              else Some e3           (* err3 is ioctl() response *)
                          | None => None
                          end
                      end
                  end)
      end
  end.

Definition reflinkRangeInternal (dst src : File) (dstOffset srcOffset n : Z) (w : World)
  : World * option error :=
  match SyscallConn src with
  | inr err => (w, Some err)
  | inl ss =>
      match SyscallConn dst with
      | inr err => (w, Some err)
      | inl sd =>
          let req := {| Src_fd := ss;
                        Src_offset := uint64 srcOffset;
                        Src_length := uint64 n;
                        Dest_offset := uint64 dstOffset |} in
          let '(w', (err, (err2, err3))) :=
            Control sd (Control ss (unix_IoctlFileCloneRange h sd req) None) (None, None) w in
          (w', match err with
                  | Some e => Some e                 (* sd.Control failed *)
                  | None =>
                      match err2 with
                      | Some e => Some e             (* ss.Control failed *)
                      | None =>
                          match err3 with
                          | Some e3 =>
                              if errors_Is e3 (Errno ENOTSUP) then Some ErrReflinkFailed
                              else Some e3           (* err3 is ioctl() response *)
                          | None => None
                          end
                      end
                  end)
      end
  end.

Definition copyFileRange (dst src : File) (dstOffset srcOffset n : Z) (w : World)
  : World * (Z * option error) :=
  match SyscallConn src with
  | inr err => (w, (0, Some err))
  | inl ss =>
      match SyscallConn dst with
      | inr err => (w, (0, Some err))
      | inl sd =>
          let '(w', (err, (err2, (resN, err3)))) :=
            Control sd
              (Control ss (unix_CopyFileRange h ss srcOffset sd dstOffset n) (0, None))
              (None, (0, None)) w in
          match err with
          | Some e => (w', (resN, Some e))
          | None =>
              match err2 with
              | Some e => (w', (resN, Some e))
              | None => (w', (resN, err3))
              end
          end
      end
  end.
End Linux.
End Linux.

Module Other.
Definition reflinkInternal (d s : File) (w : World) : World * option error :=
  (w, Some ErrReflinkUnsupported).

Definition reflinkRangeInternal (dst src : File) (dstOffset srcOffset n : Z) (w : World)
  : World * option error :=
  (w, Some ErrReflinkUnsupported).

Definition copyFileRange (dst src : File) (dstOffset srcOffset n : Z) (w : World)
  : World * (Z * option error) :=
  (w, (0, Some ErrReflinkUnsupported)).
End Other.

(** go:build linux *)
Definition linux (h : Host) : Primitives :=
  {| reflinkInternal := Linux.reflinkInternal h;
     reflinkRangeInternal := Linux.reflinkRangeInternal h;
     copyFileRange := Linux.copyFileRange h |}.

(** go:build !linux *)
Definition other : Primitives :=
  {| reflinkInternal := Other.reflinkInternal;
     reflinkRangeInternal := Other.reflinkRangeInternal;
     copyFileRange := Other.copyFileRange |}.

(** ** The section writer *)

(** [io.WriterAt]. *)
Class WriterAt (T : Type) :=
  WriteAt : T -> list byte -> Z -> World -> World * (Z * option error).

(** [sectionWriter{w, base, off}]. *)
Record sectionWriter (T : Type) := {
  sw_w : T;        (* target file *)
  sw_base : Z;     (* base position in file *)
  sw_off : Z       (* current relative offset *)
}.
Arguments sw_w {T} _.
Arguments sw_base {T} _.
Arguments sw_off {T} _.

Definition SeekStart : Z := 0.
Definition SeekCurrent : Z := 1.
Definition SeekEnd : Z := 2.

Section SectionWriter.
Context {T : Type} `{WriterAt T}.

Definition set_off (s : sectionWriter T) (o : Z) : sectionWriter T :=
  {| sw_w := sw_w s; sw_base := sw_base s; sw_off := o |}.

Definition sectionWriter_Write (s : sectionWriter T) (p : list byte) (wd : World)
  : sectionWriter T * World * (Z * option error) :=
  let '(wd', (n, err)) := WriteAt (sw_w s) p (add64 (sw_base s) (sw_off s)) wd in
  (set_off s (add64 (sw_off s) n), wd', (n, err)).

Definition sectionWriter_Seek (s : sectionWriter T) (offset whence : Z)
  : sectionWriter T * (Z * option error) :=
  let target :=
    if whence =? SeekStart then Some offset                (* nothing needed *)
    else if whence =? SeekCurrent then Some (add64 offset (sw_off s))
    else None in                                           (* SeekEnd, default *)
  match target with
  | None => (s, (sw_off s, Some (ErrorString "Seek: invalid whence")))
  | Some offset =>
      if offset <? 0 then (s, (sw_off s, Some (ErrorString "Seek: invalid offset")))
      else (set_off s offset, (offset, None))
  end.
End SectionWriter.

(** ** package io: readers, writers and the copy loop *)

Class Writer (W : Type) :=
  Write : W -> list byte -> World -> W * World * (Z * option error).

(** [Read r len w]: one [Read] into a buffer of [len] bytes.  [limited] is
    [Some N] for an [io.LimitedReader] with [N] bytes left; [remaining]
    bounds the bytes the reader can still deliver. *)
Class Reader (R : Type) := {
  Read : R -> Z -> World -> R * (list byte * option error);
  limited : R -> option Z;
  remaining : R -> Z
}.

#[global] Instance sectionWriter_Writer {T : Type} `{WriterAt T} : Writer (sectionWriter T) :=
  sectionWriter_Write.

(** [io.SectionReader] over an [*os.File]. *)
Record SectionReader := { sr_r : File; sr_base : Z; sr_off : Z; sr_limit : Z; sr_n : Z }.

Definition maxint64 : Z := 2 ^ 63 - 1.

(** [maxint64 - n] overflows and wraps around when [n] is negative. *)
Definition NewSectionReader (r : File) (off n : Z) : SectionReader :=
  let remaining :=
    if n <? 0
    then (if off <=? wrap64 (maxint64 - n) then add64 n off else maxint64)
    else (if off <=? maxint64 - n then n + off else maxint64) in
  {| sr_r := r; sr_base := off; sr_off := off; sr_limit := remaining; sr_n := n |}.

Definition SectionReader_Read (s : SectionReader) (len : Z) (w : World)
  : SectionReader * (list byte * option error) :=
  if sr_limit s <=? sr_off s then (s, ([], Some EOF))
  else
    let max := sr_limit s - sr_off s in
    let len := if max <? len then max else len in
    let '(p, err) := File_ReadAt (sr_r s) len (sr_off s) w in
    ({| sr_r := sr_r s; sr_base := sr_base s;
        sr_off := sr_off s + Z.of_nat (length p);
        sr_limit := sr_limit s; sr_n := sr_n s |}, (p, err)).

#[global] Instance SectionReader_Reader : Reader SectionReader :=
  {| Read := SectionReader_Read;
     limited := fun _ => None;
     remaining := fun s => sr_limit s - sr_off s |}.

(** [io.LimitedReader]. *)
Record LimitedReader (R : Type) := { lr_R : R; lr_N : Z }.
Arguments lr_R {R} _.
Arguments lr_N {R} _.

Definition LimitReader {R : Type} (r : R) (n : Z) : LimitedReader R :=
  {| lr_R := r; lr_N := n |}.

Definition LimitedReader_Read {R : Type} `{Reader R} (l : LimitedReader R) (len : Z)
    (w : World) : LimitedReader R * (list byte * option error) :=
  if lr_N l <=? 0 then (l, ([], Some EOF))
  else
    let len := if lr_N l <? len then lr_N l else len in
    let '(r', (p, err)) := Read (lr_R l) len w in
    ({| lr_R := r'; lr_N := lr_N l - Z.of_nat (length p) |}, (p, err)).

#[global] Instance LimitedReader_Reader {R : Type} `{Reader R} : Reader (LimitedReader R) :=
  {| Read := LimitedReader_Read;
     limited := fun l => Some (lr_N l);
     remaining := fun l => lr_N l |}.

Section Copy.
Context {W R : Type} `{Writer W} `{Reader R}.

(** End of one turn of the loop, after the write: [er] is the error of
    the read; [io.EOF] ends the copy without an error. *)
Definition read_done (er : option error) : option (option error) :=
  match er with
  | Some e => Some (if decide (e = EOF) then None else Some e)   (* break *)
  | None => None                                                  (* next turn *)
  end.

(** One turn of the loop of [io.copyBuffer] with a buffer of [size]
    bytes: [inl] goes on to the next turn, [inr] is a [break] with the
    values the function returns. *)
Definition copyStep (size : Z) (dst : W) (src : R) (wd : World) (written : Z)
  : (W * R * World * Z) + (W * R * World * (Z * option error)) :=
  let '(src, (buf, er)) := Read src size wd in
  let nr := Z.of_nat (length buf) in
  if 0 <? nr then
    let '(dst, wd, (nw, ew)) := Write dst buf wd in
    let '(nw, ew) :=
      if (nw <? 0) || (nr <? nw)
      then (0, Some (default errInvalidWrite ew))
      else (nw, ew) in
    let written := written + nw in
    match ew with
    | Some e => inr (dst, src, wd, (written, Some e))
    | None =>
        if negb (nr =? nw) then inr (dst, src, wd, (written, Some ErrShortWrite))
        else match read_done er with
             | Some err => inr (dst, src, wd, (written, err))
             | None => inl (dst, src, wd, written)
             end
    end
  else match read_done er with
       | Some err => inr (dst, src, wd, (written, err))
       | None => inl (dst, src, wd, written)
       end.

(** The loop itself.  [None] means that [fuel] turns were not enough. *)
Fixpoint copyLoop (fuel : nat) (size : Z) (dst : W) (src : R) (wd : World) (written : Z)
  : option (W * R * World * (Z * option error)) :=
  match fuel with
  | O => None
  | S fuel =>
      match copyStep size dst src wd written with
      | inr res => Some res
      | inl (dst, src, wd, written) => copyLoop fuel size dst src wd written
      end
  end.

(** Size of the buffer [io.Copy] allocates. *)
Definition bufSize (src : R) : Z :=
  let size := 32 * 1024 in
  match limited src with
  | Some N => if N <? size then (if N <? 1 then 1 else N) else size
  | None => size
  end.

(** [io.Copy] for a reader without [WriteTo] and a writer without
    [ReadFrom]. *)
Definition io_Copy (dst : W) (src : R) (wd : World)
  : option (W * R * World * (Z * option error)) :=
  copyLoop (S (Z.to_nat (remaining src))) (bufSize src) dst src wd 0.
End Copy.

(** [io.CopyN]. *)
Definition io_CopyN {W R : Type} `{Writer W} `{Reader R} (dst : W) (src : R) (n : Z)
    (wd : World) : option (World * (Z * option error)) :=
  match io_Copy dst (LimitReader src n) wd with
  | None => None
  | Some (_, _, wd', (written, err)) =>
      if written =? n then Some (wd', (n, None))
      else if (written <? n) && negb (notnil err) then Some (wd', (written, Some EOF))
      else Some (wd', (written, err))
  end.

(** ** api.go *)

Section Api.
Variable h : Host.
Context {P : Primitives}.

#[local] Instance File_WriterAt : WriterAt File := File_WriteAt h.

Definition reflinkFile (src dst : string) (fallback : bool) (w : World)
  : World * option error :=
  match os_Open h src w with
  | inr err => (w, Some err)
  | inl s =>
      (* generate temporary file for output *)
      match ioutil_TempFile h (filepath_Dir dst) w with
      | (w, inr err) => (w, Some err)
      | (w, inl tmp) =>
          (* copy to temp file *)
          let '(w, err) := reflinkInternal tmp s w in
          (* if reflink failed but we allow fallback, first attempt using
             copyFileRange *)
          let '(w, err) :=
            if notnil err && fallback then
              match File_Stat h s w with
              | inr e => (w, Some e)
              | inl st =>
                  let '(w, (_, err)) := copyFileRange tmp s 0 0 (Size st) w in (w, err)
              end
            else (w, err) in
          (* if everything failed and we fallback, attempt io.Copy *)
          let '(w, (tmp, s, err)) :=
            if notnil err && fallback then
              let '(w, (tmp, s, (_, err))) := io_Copy_File h tmp s w in (w, (tmp, s, err))
            else (w, (tmp, s, err)) in
          let tmp := File_Close tmp in   (* we're not writing to this anymore *)
          match err with
          | Some e =>
              (* if an error happened, remove temp file and signal error *)
              let '(w, _) := os_Remove (f_name tmp) w in (w, Some e)
          | None =>
              (* keep src file mode if possible *)
              let w := match File_Stat h s w with
                       | inl st => fst (File_Chmod h tmp (Mode st) w)
                       | inr _ => w
                       end in
              (* replace dst file *)
              match os_Rename h (f_name tmp) dst w with
              | (w, Some e) =>
                  (* failed to rename (dst is not writable?) *)
                  let '(w, _) := os_Remove (f_name tmp) w in (w, Some e)
              | (w, None) => (w, None)
              end
          end
      end
  end.

(** The copy stage of [reflinkFile] on its own, from "copy to temp file"
    to the [io.Copy], as the proofs use it ([reflinkFile_stages]). *)
Definition copy_to_temp (tmp s : File) (fallback : bool) (w : World)
  : World * (File * File * option error) :=
  let '(w, err) := reflinkInternal tmp s w in
  let '(w, err) :=
    if notnil err && fallback then
      match File_Stat h s w with
      | inr e => (w, Some e)
      | inl st =>
          let '(w, (_, err)) := copyFileRange tmp s 0 0 (Size st) w in (w, err)
      end
    else (w, err) in
  if notnil err && fallback then
    let '(w, (tmp, s, (_, err))) := io_Copy_File h tmp s w in (w, (tmp, s, err))
  else (w, (tmp, s, err)).

Definition Always (src dst : string) (w : World) : World * option error :=
  reflinkFile src dst false w.

Definition Auto (src dst : string) (w : World) : World * option error :=
  reflinkFile src dst true w.

(** [None] only if the copy loop ran out of turns, which
    [Reflink_returns] excludes. *)
Definition Reflink (dst src : File) (fallback : bool) (w : World)
  : option (World * option error) :=
  let '(w, err) := reflinkInternal dst src w in
  if notnil err && fallback then
    (* reflink failed, but we can fallback, but first we need to know the file's size *)
    match File_Stat h src w with
    | inr err =>
        (* couldn't stat source, this can't be helped *)
        Some (w, Some (WrapError "failed to stat source" err))
    | inl st =>
        let '(w, (_, err)) := copyFileRange dst src 0 0 (Size st) w in
        if notnil err then
          (* copyFileRange failed too, switch to simple io copy *)
          let reader := NewSectionReader src 0 (Size st) in
          let writer := {| sw_w := dst; sw_base := 0; sw_off := 0 |} in
          let '(w, _) := File_Truncate dst 0 w in
          match io_Copy writer reader w with
          | Some (_, _, w, (_, err)) => Some (w, err)
          | None => None
          end
        else Some (w, err)
    end
  else Some (w, err).

(** [None] only if the copy loop ran out of turns, which
    [Partial_returns] excludes. *)
Definition Partial (dst src : File) (dstOffset srcOffset n : Z) (fallback : bool)
    (w : World) : option (World * option error) :=
  let '(w, err) := reflinkRangeInternal dst src dstOffset srcOffset n w in
  let '(w, err) :=
    if notnil err && fallback then
      let '(w, (_, err)) := copyFileRange dst src dstOffset srcOffset n w in (w, err)
    else (w, err) in
  if notnil err && fallback then
    (* seek both src & dst *)
    let reader := NewSectionReader src srcOffset n in
    let writer := {| sw_w := dst; sw_base := dstOffset; sw_off := 0 |} in
    match io_CopyN writer reader n w with
    | Some (w, (_, err)) => Some (w, err)
    | None => None
    end
  else Some (w, err).
End Api.

(** The two builds of the package. *)
Inductive Platform := LinuxOS | OtherOS.

Definition prims (h : Host) (pf : Platform) : Primitives :=
  match pf with LinuxOS => linux h | OtherOS => other end.

(** ** Why the kernel refuses a clone *)

(** The reasons ioctl_ficlonerange(2) lists for a refused FICLONE or
    FICLONERANGE, with the errno it documents for each. *)
Inductive rejection :=
| CrossFilesystem         (* the two files are not on the same mounted filesystem *)
| UnsupportedFilesystem   (* the filesystem does not support reflinking *)
| NotRegularFile          (* a descriptor is a device, FIFO or socket *)
| IsDirectory             (* one of the files is a directory *)
| Immutable.              (* the destination is immutable *)

Definition kernel_errno (r : rejection) : Z :=
  match r with
  | CrossFilesystem => EXDEV
  | UnsupportedFilesystem => ENOTSUP
  | NotRegularFile => EINVAL
  | IsDirectory => EISDIR
  | Immutable => EPERM
  end.

(** ** Hosts and files used in the examples *)

(** A host that refuses nothing; one copy_file_range call moves up to
    [MAX_RW_COUNT] bytes. *)
Definition quiet_host : Host :=
  {| open_errno := fun _ => 0; temp_errno := 0;
     temp_names := fun d => [(d +:+ "/553203")%string];
     fstat_errno := 0; fchmod_errno := 0; rename_errno := 0; fsize_limit := None;
     ficlone_errno := 0; ficlonerange_errno := 0; block_size := 4096;
     cfr_errno := 0; cfr_max := 2147479552 |}.

(** A filesystem without reflinks, and a kernel that moves at most two
    bytes per copy_file_range call. *)
Definition short_copy_host : Host :=
  {| open_errno := fun _ => 0; temp_errno := 0;
     temp_names := fun d => [(d +:+ "/553203")%string];
     fstat_errno := 0; fchmod_errno := 0; rename_errno := 0; fsize_limit := None;
     ficlone_errno := ENOTSUP; ficlonerange_errno := ENOTSUP; block_size := 4096;
     cfr_errno := 0; cfr_max := 2 |}.

(** Source and destination on different filesystems. *)
Definition cross_fs_host : Host :=
  {| open_errno := fun _ => 0; temp_errno := 0;
     temp_names := fun d => [(d +:+ "/553203")%string];
     fstat_errno := 0; fchmod_errno := 0; rename_errno := 0; fsize_limit := None;
     ficlone_errno := kernel_errno CrossFilesystem;
     ficlonerange_errno := kernel_errno CrossFilesystem; block_size := 4096;
     cfr_errno := EXDEV; cfr_max := 2147479552 |}.

(** No reflinks, no copy_file_range, and files may not grow past two
    bytes. *)
Definition full_disk_host : Host :=
  {| open_errno := fun _ => 0; temp_errno := 0;
     temp_names := fun d => [(d +:+ "/553203")%string];
     fstat_errno := 0; fchmod_errno := 0; rename_errno := 0; fsize_limit := Some 2;
     ficlone_errno := ENOTSUP; ficlonerange_errno := ENOTSUP; block_size := 4096;
     cfr_errno := ENOTSUP; cfr_max := 2147479552 |}.

Definition abc : list byte := [Byte.x61; Byte.x62; Byte.x63].
Definition xxxxx : list byte := [Byte.x78; Byte.x78; Byte.x78; Byte.x78; Byte.x78].

(** One directory with a source file "abc" of mode 0644. *)
Definition one_file : World :=
  {| inodes := [ {| i_data := abc; i_mode := 420 |} ];
     names := {[ "d/src"%string := 0%nat ]} |}.

(** The same with a destination file "xxxxx". *)
Definition two_files : World :=
  {| inodes := [ {| i_data := abc; i_mode := 420 |}; {| i_data := xxxxx; i_mode := 420 |} ];
     names := {[ "d/src"%string := 0%nat; "d/dst"%string := 1%nat ]} |}.

Definition src_file : File :=
  {| f_ino := 0; f_name := "d/src"; f_pos := 0; f_closed := false |}.
Definition dst_file : File :=
  {| f_ino := 1; f_name := "d/dst"; f_pos := 0; f_closed := false |}.

(** A filesystem without reflinks on which copy_file_range works. *)
Definition no_reflink_host : Host :=
  {| open_errno := fun _ => 0; temp_errno := 0;
     temp_names := fun d => [(d +:+ "/553203")%string];
     fstat_errno := 0; fchmod_errno := 0; rename_errno := 0; fsize_limit := None;
     ficlone_errno := ENOTSUP; ficlonerange_errno := ENOTSUP; block_size := 4096;
     cfr_errno := 0; cfr_max := 2147479552 |}.

(** ** What a step may change *)

(** From [w] to [w'] nothing but the bytes of inode [i] changed: the
    names, the other inodes and the mode of [i] are the same. *)
Definition only_data (i : nat) (w w' : World) : Prop :=
  names w' = names w /\
  length (inodes w') = length (inodes w) /\
  (forall j, j <> i -> inodes w' !! j = inodes w !! j) /\
  mode_of w' i = mode_of w i.

(** From [w] to [w'] inode [i] did not shrink and kept every byte at a
    position outside [[lo, hi)]. *)
Definition keeps_outside (i : nat) (lo hi : Z) (w w' : World) : Prop :=
  (length (data_of w i) <= length (data_of w' i))%nat /\
  forall (k : nat) (b : byte),
    data_of w i !! k = Some b ->
    Z.of_nat k < lo \/ hi <= Z.of_nat k ->
    data_of w' i !! k = Some b.

(** What a path-based copy from [w] with result [r] leaves behind: files
    that existed are untouched; after an error the names are those of [w];
    after a success the only change of names is [dst], put on the new inode
    by renaming a temporary name [nm] that was free in [w]. *)
Definition atomic_outcome (h : Host) (dst : string) (w : World) (r : World * option error)
  : Prop :=
  (forall j x, inodes w !! j = Some x -> inodes (fst r) !! j = Some x) /\
  match snd r with
  | Some _ => names (fst r) = names w
  | None =>
      names (fst r) = <[dst := length (inodes w)]> (names w) /\
      exists nm w2,
        names w !! nm = None /\
        names w2 = <[nm := length (inodes w)]> (names w) /\
        os_Rename h nm dst w2 = (fst r, None)
  end.

(** ** The streamed copy of [Partial], turn by turn *)



(** ** The streamed copy of [Reflink], turn by turn *)

(** While [io.Copy] runs for [Reflink] from the file [s], whose bytes are
    [srcdata], to the truncated file [d]: writer and reader are both
    [written] bytes in, and [d] holds the first [written] bytes of the
    source. *)
Definition reflink_inv (d s : File) (srcdata : list byte)
    (sw : sectionWriter File) (sr : SectionReader) (wd : World) (written : Z) : Prop :=
  sw_w sw = d /\ sw_base sw = 0 /\ sw_off sw = written /\
  sr_r sr = s /\ sr_off sr = written /\ sr_limit sr = Z.of_nat (length srcdata) /\
  0 <= written <= Z.of_nat (length srcdata) /\
  data_of wd (f_ino s) = srcdata /\
  is_Some (inodes wd !! f_ino d) /\
  data_of wd (f_ino d) = take (Z.to_nat written) srcdata.

Definition reflink_post (d : File) (srcdata : list byte)
    (res : sectionWriter File * SectionReader * World * (Z * option error)) : Prop :=
  0 <= fst (snd res) <= Z.of_nat (length srcdata) /\
  data_of (snd (fst res)) (f_ino d) = take (Z.to_nat (fst (snd res))) srcdata.


(** ** More files for the examples *)

(** The source file, closed. *)
Definition closed_src_file : File :=
  {| f_ino := 0; f_name := "d/src"; f_pos := 0; f_closed := true |}.

(** ** The streamed copy of [Partial], byte by byte *)

(** While [io.CopyN] runs for [Partial] from the file [s], whose bytes are
    [srcdata], to the file [d]: writer and reader are both [written] bytes
    into their ranges, the limited reader has the rest of the [n] bytes
    left, and the first [written] bytes of the destination range are those
    of the source range. *)
Definition partial_copy_inv (d s : File) (dstOffset srcOffset n : Z) (srcdata : list byte)
    (sw : sectionWriter File) (lr : LimitedReader SectionReader)
    (wd : World) (written : Z) : Prop :=
  sw_w sw = d /\ sw_base sw = dstOffset /\ sw_off sw = written /\
  sr_r (lr_R lr) = s /\ sr_off (lr_R lr) = srcOffset + written /\
  sr_limit (lr_R lr) = srcOffset + n /\ lr_N lr = n - written /\
  0 <= written <= n /\
  data_of wd (f_ino s) = srcdata /\
  (0 < written -> srcOffset + written <= Z.of_nat (length srcdata)) /\
  slice (data_of wd (f_ino d)) (Z.to_nat dstOffset) (Z.to_nat written)
  = slice srcdata (Z.to_nat srcOffset) (Z.to_nat written).

(** The loop never writes more than [n] bytes; when it ends having written
    all of them, the source had the whole range and the destination range
    holds it. *)
Definition partial_copy_post (d : File) (dstOffset srcOffset n : Z) (srcdata : list byte)
    (res : sectionWriter File * LimitedReader SectionReader * World * (Z * option error))
  : Prop :=
  fst (snd res) <= n /\
  (fst (snd res) = n ->
   srcOffset + n <= Z.of_nat (length srcdata) /\
   slice (data_of (snd (fst res)) (f_ino d)) (Z.to_nat dstOffset) (Z.to_nat n)
   = slice srcdata (Z.to_nat srcOffset) (Z.to_nat n)).
(** * Properties *)

(** ** Machine integers *)

Lemma wrap64_id z : int64_range z -> wrap64 z = z.
Proof.
  unfold int64_range, wrap64. intros Hz.
  rewrite Z.mod_small by lia. lia.
Qed.

Lemma add64_exact a b : int64_range (a + b) -> add64 a b = a + b.
Proof. apply wrap64_id. Qed.

Lemma wrap64_range z : int64_range (wrap64 z).
Proof.
  unfold int64_range, wrap64.
  pose proof (Z.mod_pos_bound (z + 2 ^ 63) (2 ^ 64) ltac:(lia)). lia.
Qed.

(** ** The section writer *)

Section SectionWriterFacts.
Context {T : Type} `{WriterAt T}.

(** C8.  A [sectionWriter] with base [b] and relative offset [o] hands
    [Write(p)] to the underlying [WriteAt] at the absolute offset [b + o] and
    moves [o] forward by the number of bytes that call reports as written.
    [Seek] from the start sets [o] to the offset, [Seek] from the current
    position sets it to [o] plus the offset; [Seek] from the end is refused,
    and so is every [Seek] that would make the offset negative.  A refused
    [Seek] leaves the writer as it was. *)
Theorem sectionWriter_contract (s : sectionWriter T) :
    (forall p wd,
        int64_range (sw_base s + sw_off s) ->
        int64_range (sw_off s + fst (snd (WriteAt (sw_w s) p (sw_base s + sw_off s) wd))) ->
        let r := WriteAt (sw_w s) p (sw_base s + sw_off s) wd in
        sectionWriter_Write s p wd
        = (set_off s (sw_off s + fst (snd r)), fst r, snd r)) /\
    (forall offset,
        0 <= offset ->
        sectionWriter_Seek s offset SeekStart = (set_off s offset, (offset, None))) /\
    (forall offset,
        int64_range (sw_off s + offset) -> 0 <= sw_off s + offset ->
        sectionWriter_Seek s offset SeekCurrent
        = (set_off s (sw_off s + offset), (sw_off s + offset, None))) /\
    (forall offset,
        sectionWriter_Seek s offset SeekEnd
        = (s, (sw_off s, Some (ErrorString "Seek: invalid whence")))) /\
    (forall offset,
        offset < 0 ->
        sectionWriter_Seek s offset SeekStart
        = (s, (sw_off s, Some (ErrorString "Seek: invalid offset")))) /\
    (forall offset,
        add64 offset (sw_off s) < 0 ->
        sectionWriter_Seek s offset SeekCurrent
        = (s, (sw_off s, Some (ErrorString "Seek: invalid offset")))).
Proof.
  repeat split.
  - intros p wd Hb Ho r. unfold sectionWriter_Write.
    rewrite (add64_exact _ _ Hb). subst r.
    destruct (WriteAt (sw_w s) p (sw_base s + sw_off s) wd) as [wd' [n err]].
    simpl in *. rewrite (add64_exact _ _ Ho). reflexivity.
  - intros offset Hpos. unfold sectionWriter_Seek. simpl.
    destruct (offset <? 0) eqn:E; [lia | reflexivity].
  - intros offset Hr Hpos. unfold sectionWriter_Seek. simpl.
    rewrite add64_exact by (rewrite Z.add_comm; exact Hr).
    rewrite (Z.add_comm offset).
    destruct (sw_off s + offset <? 0) eqn:E; [lia | reflexivity].
  - intros offset Hneg. unfold sectionWriter_Seek. simpl.
    destruct (offset <? 0) eqn:E; [reflexivity | lia].
  - intros offset Hneg. unfold sectionWriter_Seek. simpl.
    destruct (add64 offset (sw_off s) <? 0) eqn:E; [reflexivity | lia].
Qed.
End SectionWriterFacts.

(** A writer at base 1 and offset 1 of the five-byte file: the two bytes
    land at offset 2, the offset becomes 3; then the seeks. *)
Lemma sectionWriter_contract_witness :
  let s := {| sw_w := dst_file; sw_base := 1; sw_off := 1 |} in
  (data_of (snd (fst (sectionWriter_Write (H := File_WriteAt quiet_host) s
                        [Byte.x61; Byte.x62] two_files))) 1
   = [Byte.x78; Byte.x78; Byte.x61; Byte.x62; Byte.x78]
   /\ sw_off (fst (fst (sectionWriter_Write (H := File_WriteAt quiet_host) s
                          [Byte.x61; Byte.x62] two_files))) = 3)
  /\ sectionWriter_Seek s 7 SeekStart = (set_off s 7, (7, None))
  /\ sectionWriter_Seek s 4 SeekCurrent = (set_off s 5, (5, None))
  /\ snd (snd (sectionWriter_Seek s (-1) SeekStart)) <> None
  /\ snd (snd (sectionWriter_Seek s (-2) SeekCurrent)) <> None.
Proof.
  intros s.
  destruct (sectionWriter_contract (H := File_WriteAt quiet_host) s)
    as (Hw & Hs & Hc & _ & Hn & Hm).
  split; [| split; [| split; [| split]]].
  - rewrite (Hw [Byte.x61; Byte.x62] two_files); [| vm_compute; split; congruence ..].
    split; reflexivity.
  - apply (Hs 7). lia.
  - apply (Hc 4); [vm_compute; split; congruence | simpl; lia].
  - rewrite (Hn (-1)); [discriminate | lia].
  - rewrite (Hm (-2)); [discriminate | reflexivity].
Defined.

(** ** The clone primitives (reflink_linux.go, reflink.go) *)

Lemma errors_Is_Errno (e t : Z) : errors_Is (Errno e) (Errno t) = bool_decide (e = t).
Proof.
  simpl. destruct (decide (Errno e = Errno t)) as [Heq | Hne].
  - inversion Heq. subst. symmetry. apply bool_decide_eq_true. reflexivity.
  - symmetry. apply bool_decide_eq_false. intros ->. apply Hne. reflexivity.
Qed.

(** What the clone primitives make of an ioctl errno. *)
Lemma ENOTSUP_mapping (e : Z) :
  (if errors_Is (Errno e) (Errno ENOTSUP) then Some ErrReflinkFailed else Some (Errno e))
  = Some (if e =? ENOTSUP then ErrReflinkFailed else Errno e).
Proof.
  rewrite errors_Is_Errno.
  destruct (e =? ENOTSUP) eqn:E.
  - apply Z.eqb_eq in E. rewrite bool_decide_eq_true_2 by exact E. reflexivity.
  - apply Z.eqb_neq in E. rewrite bool_decide_eq_false_2 by exact E. reflexivity.
Qed.

Lemma reflinkInternal_refused (h : Host) (d s : File) (w : World) :
  f_closed d = false -> f_closed s = false -> ficlone_errno h <> 0 ->
  Linux.reflinkInternal h d s w
  = (w, Some (if ficlone_errno h =? ENOTSUP then ErrReflinkFailed
              else Errno (ficlone_errno h))).
Proof.
  intros Hd Hs He. unfold Linux.reflinkInternal, SyscallConn, Control, unix_IoctlFileClone.
  rewrite Hd, Hs. apply Z.eqb_neq in He. rewrite He. cbv beta iota zeta.
  rewrite ENOTSUP_mapping. reflexivity.
Qed.

Lemma reflinkRangeInternal_refused (h : Host) (d s : File) (dstOffset srcOffset n : Z)
    (w : World) :
  f_closed d = false -> f_closed s = false -> ficlonerange_errno h <> 0 ->
  Linux.reflinkRangeInternal h d s dstOffset srcOffset n w
  = (w, Some (if ficlonerange_errno h =? ENOTSUP then ErrReflinkFailed
              else Errno (ficlonerange_errno h))).
Proof.
  intros Hd Hs He.
  unfold Linux.reflinkRangeInternal, SyscallConn, Control, unix_IoctlFileCloneRange.
  rewrite Hd, Hs. apply Z.eqb_neq in He. rewrite He. cbv beta iota zeta.
  rewrite ENOTSUP_mapping. reflexivity.
Qed.

(** C5.  What the two clone primitives of the Linux build return when the
    kernel refuses the clone for reason [r]: [ErrReflinkFailed] only for a
    filesystem without reflink support (errno [ENOTSUP]); every other
    refusal, a pair of files on different filesystems ([EXDEV]) and a
    file that is not a regular file ([EINVAL]) included, comes back as the
    bare errno. *)
Theorem clone_refusal_mapping (h : Host) (d s : File) (dstOffset srcOffset n : Z)
    (w : World) (r : rejection) :
  f_closed d = false -> f_closed s = false ->
  ficlone_errno h = kernel_errno r -> ficlonerange_errno h = kernel_errno r ->
  let answer := match r with
                | UnsupportedFilesystem => ErrReflinkFailed
                | _ => Errno (kernel_errno r)
                end in
  Linux.reflinkInternal h d s w = (w, Some answer) /\
  Linux.reflinkRangeInternal h d s dstOffset srcOffset n w = (w, Some answer).
Proof.
  intros Hd Hs H1 H2 answer. split.
  - rewrite reflinkInternal_refused by (rewrite ?H1; try assumption; destruct r; discriminate).
    rewrite H1. destruct r; reflexivity.
  - rewrite reflinkRangeInternal_refused
      by (rewrite ?H2; try assumption; destruct r; discriminate).
    rewrite H2. destruct r; reflexivity.
Qed.

(** Source and destination on different filesystems: the caller sees
    [EXDEV], not [ErrReflinkFailed]. *)
Lemma clone_refusal_mapping_witness :
  Linux.reflinkInternal cross_fs_host dst_file src_file two_files
  = (two_files, Some (Errno EXDEV)) /\
  Linux.reflinkRangeInternal cross_fs_host dst_file src_file 0 0 3 two_files
  = (two_files, Some (Errno EXDEV)).
Proof.
  apply (clone_refusal_mapping cross_fs_host dst_file src_file 0 0 3 two_files
           CrossFilesystem); reflexivity.
Defined.

(** ** A range of length zero *)

Lemma Control_fail_same {X : Type} (c : File) (f : World -> World * X) (x0 : X)
    (w w' : World) (e : option error) (x : X) :
  (forall v v' y, f v = (v', y) -> v' = v) ->
  Control c f x0 w = (w', (e, x)) -> w' = w.
Proof.
  intros Hf. unfold Control. destruct (f_closed c).
  - intros [= <- _ _]. reflexivity.
  - destruct (f w) as [v' y] eqn:E. intros [= <- _ _]. eapply Hf. exact E.
Qed.

Lemma copy_zero_same (h : Host) (s d : File) (roff woff : Z) (w w' : World)
    (r : Z * option error) :
  unix_CopyFileRange h s roff d woff 0 w = (w', r) -> w' = w.
Proof.
  unfold unix_CopyFileRange.
  destruct (cfr_errno h =? 0); [| intros [= <- _]; reflexivity].
  destruct (inodes w !! f_ino s) as [si |]; [| intros [= <- _]; reflexivity].
  destruct (inodes w !! f_ino d) as [di |]; [| intros [= <- _]; reflexivity].
  change (size_t 0) with 0.
  destruct ((2 ^ 64 <=? size_t roff + 0) || (2 ^ 64 <=? size_t woff + 0));
    [intros [= <- _]; reflexivity |].
  destruct ((roff <? 0) || (woff <? 0)); [intros [= <- _]; reflexivity |].
  replace (Z.max 0 (Z.min (Z.min 0 (cfr_max h)) (Z.of_nat (length (i_data si)) - roff)))
    with 0 by lia.
  simpl. intros [= <- _]. reflexivity.
Qed.

Lemma copyFileRange_zero_same (h : Host) (pf : Platform) (dst src : File)
    (dstOffset srcOffset : Z) (w w' : World) (r : Z * option error) :
  copyFileRange (Primitives := prims h pf) dst src dstOffset srcOffset 0 w = (w', r) ->
  w' = w.
Proof.
  destruct pf; simpl.
  - unfold Linux.copyFileRange, SyscallConn.
    destruct (Control dst _ _ w) as [v [e [e2 [k e3]]]] eqn:E.
    assert (v = w) as ->.
    { eapply Control_fail_same; [| exact E].
      intros v0 v1 y Hy. destruct y as [y1 y2].
      eapply Control_fail_same; [| exact Hy].
      intros ? ? ?. apply copy_zero_same. }
    destruct e; [intros [= <- _]; reflexivity |].
    destruct e2; intros [= <- _]; reflexivity.
  - unfold Other.copyFileRange. intros [= <- _]. reflexivity.
Qed.

Lemma clone_range_fail_same (h : Host) (d : File) (req : FileCloneRange) (w w' : World)
    (e : error) :
  unix_IoctlFileCloneRange h d req w = (w', Some e) -> w' = w.
Proof.
  unfold unix_IoctlFileCloneRange.
  destruct (ficlonerange_errno h =? 0); [| intros [= <- _]; reflexivity].
  destruct (inodes w !! f_ino (Src_fd req)); [| intros [= <- _]; reflexivity].
  destruct (inodes w !! f_ino d); [| intros [= <- _]; reflexivity].
  cbv zeta. destruct (_ || _); [intros [= <- _]; reflexivity |].
  match goal with |- context [if ?c =? 0 then (w, None) else _] => destruct (c =? 0) end;
    [discriminate |].
  match goal with |- context [if ?c then _ else _] => destruct c end;
    [discriminate | intros [= <- _]; reflexivity].
Qed.

Lemma reflinkRangeInternal_fail_same (h : Host) (pf : Platform) (dst src : File)
    (dstOffset srcOffset n : Z) (w w' : World) (e : error) :
  reflinkRangeInternal (Primitives := prims h pf) dst src dstOffset srcOffset n w
  = (w', Some e) -> w' = w.
Proof.
  destruct pf; simpl.
  - unfold Linux.reflinkRangeInternal, SyscallConn, Control.
    destruct (f_closed dst); [intros [= <- _]; reflexivity |].
    destruct (f_closed src); [intros [= <- _]; reflexivity |].
    destruct (unix_IoctlFileCloneRange h dst _ w) as [v [e3 |]] eqn:E.
    + apply clone_range_fail_same in E. subst v. intros [= <- _]. reflexivity.
    + simpl. discriminate.
  - unfold Other.reflinkRangeInternal. intros [= <- _]. reflexivity.
Qed.

(** Copying zero bytes through [io.CopyN]: the limited reader is at its
    end at once, nothing is written. *)
Lemma io_CopyN_zero {W R : Type} `{Writer W} `{Reader R} (dst : W) (src : R) (wd : World) :
  io_CopyN dst src 0 wd = Some (wd, (0, None)).
Proof. reflexivity. Qed.

(** C6 as the code has it.  With [fallback] set, [Partial] with a length of
    zero returns no error, and when the ranged clone did not succeed it
    leaves every file as it was; without [fallback] it returns whatever the
    ranged clone returned. *)
Theorem zero_length_partial (h : Host) (pf : Platform) (dst src : File)
    (dstOffset srcOffset : Z) (w : World) :
  (exists w', Partial h (P := prims h pf) dst src dstOffset srcOffset 0 true w
              = Some (w', None)) /\
  (notnil (snd (reflinkRangeInternal (Primitives := prims h pf)
                  dst src dstOffset srcOffset 0 w)) = true ->
   Partial h (P := prims h pf) dst src dstOffset srcOffset 0 true w = Some (w, None)) /\
  Partial h (P := prims h pf) dst src dstOffset srcOffset 0 false w
  = Some (reflinkRangeInternal (Primitives := prims h pf) dst src dstOffset srcOffset 0 w).
Proof.
  assert (Hfail : notnil (snd (reflinkRangeInternal (Primitives := prims h pf)
                  dst src dstOffset srcOffset 0 w)) = true ->
   Partial h (P := prims h pf) dst src dstOffset srcOffset 0 true w = Some (w, None)).
  { unfold Partial.
    destruct (reflinkRangeInternal dst src dstOffset srcOffset 0 w) as [w1 [e |]] eqn:E1;
      [| discriminate].
    intros _. apply reflinkRangeInternal_fail_same in E1. subst w1. cbn [notnil andb].
    destruct (copyFileRange dst src dstOffset srcOffset 0 w) as [w2 [k e2]] eqn:E2.
    apply copyFileRange_zero_same in E2. subst w2.
    destruct e2; cbn [notnil andb]; [rewrite io_CopyN_zero |]; reflexivity. }
  split; [| split].
  - destruct (notnil (snd (reflinkRangeInternal dst src dstOffset srcOffset 0 w))) eqn:E.
    + exists w. apply Hfail. reflexivity.
    + unfold Partial.
      destruct (reflinkRangeInternal dst src dstOffset srcOffset 0 w) as [w1 [e |]];
        [discriminate |].
      exists w1. reflexivity.
  - exact Hfail.
  - unfold Partial.
    destruct (reflinkRangeInternal dst src dstOffset srcOffset 0 w) as [w1 e].
    destruct e; reflexivity.
Qed.

(** On a platform without the clone primitive the zero-length range is
    copied by the last stage and nothing changes. *)
Lemma zero_length_partial_witness :
  Partial quiet_host (P := other) dst_file src_file 1 0 0 true two_files
  = Some (two_files, None).
Proof.
  apply (zero_length_partial quiet_host OtherOS dst_file src_file 1 0 two_files).
  reflexivity.
Defined.

(** C6 as stated fails: without [fallback], on a platform without the clone
    primitive, a length of zero is answered with [ErrReflinkUnsupported]. *)
Lemma zero_length_without_fallback :
  Partial quiet_host (P := other) dst_file src_file 1 0 0 false two_files
  = Some (two_files, Some ErrReflinkUnsupported).
Proof. reflexivity. Qed.

(** ** Steps that only write bytes of one file *)

Lemma only_data_refl (i : nat) (w : World) : only_data i w w.
Proof. repeat split. Qed.

Lemma only_data_trans (i : nat) (w1 w2 w3 : World) :
  only_data i w1 w2 -> only_data i w2 w3 -> only_data i w1 w3.
Proof.
  intros (Hn & Hl & Ho & Hm) (Hn' & Hl' & Ho' & Hm'). repeat split.
  - congruence.
  - congruence.
  - intros j Hj. rewrite Ho' by exact Hj. apply Ho. exact Hj.
  - congruence.
Qed.

Lemma set_data_only_data (w : World) (i : nat) (d : list byte) :
  only_data i w (set_data w i d).
Proof.
  unfold set_data. destruct (inodes w !! i) as [x |] eqn:Hx; [| apply only_data_refl].
  unfold only_data, set_inode, mode_of. simpl. repeat split.
  - apply length_insert.
  - intros j Hj. apply list_lookup_insert_ne. congruence.
  - rewrite list_lookup_insert_eq by (eapply lookup_lt_Some; exact Hx).
    rewrite Hx. reflexivity.
Qed.

Lemma data_of_set_data (w : World) (i : nat) (d : list byte) :
  data_of (set_data w i d) i = match inodes w !! i with Some _ => d | None => [] end.
Proof.
  unfold set_data. destruct (inodes w !! i) as [x |] eqn:Hx.
  - unfold data_of, set_inode. simpl.
    rewrite list_lookup_insert_eq by (eapply lookup_lt_Some; exact Hx). reflexivity.
  - unfold data_of. rewrite Hx. reflexivity.
Qed.

Lemma data_of_None (w : World) (i : nat) : inodes w !! i = None -> data_of w i = [].
Proof. unfold data_of. intros ->. reflexivity. Qed.

Lemma data_of_Some (w : World) (i : nat) (x : Inode) :
  inodes w !! i = Some x -> data_of w i = i_data x.
Proof. unfold data_of. intros ->. reflexivity. Qed.

Lemma only_data_other (i j : nat) (w w' : World) :
  only_data i w w' -> j <> i -> data_of w' j = data_of w j.
Proof.
  intros (_ & _ & Ho & _) Hj. unfold data_of. rewrite Ho by exact Hj. reflexivity.
Qed.

Lemma only_data_is_Some (i j : nat) (w w' : World) :
  only_data i w w' -> is_Some (inodes w' !! j) <-> is_Some (inodes w !! j).
Proof.
  intros (_ & Hl & _ & _). rewrite !lookup_lt_is_Some, Hl. reflexivity.
Qed.

Lemma length_splice (d : list byte) (off : nat) (p : list byte) :
  length (splice d off p) = (length d `max` (off + length p))%nat.
Proof.
  unfold splice. rewrite !length_app, length_take, length_replicate, length_drop. lia.
Qed.

Lemma lookup_splice_outside (d : list byte) (off : nat) (p : list byte) (k : nat) (b : byte) :
  d !! k = Some b -> (k < off \/ off + length p <= k)%nat -> splice d off p !! k = Some b.
Proof.
  intros Hk Hout. pose proof (lookup_lt_Some _ _ _ Hk) as Hlt. unfold splice.
  destruct Hout as [Hlo | Hhi].
  - rewrite lookup_app_l by (rewrite length_take; lia).
    rewrite lookup_take_lt by exact Hlo. exact Hk.
  - rewrite lookup_app_r by (rewrite length_take; lia).
    rewrite length_take.
    rewrite lookup_app_r by (rewrite length_replicate; lia).
    rewrite length_replicate.
    rewrite lookup_app_r by lia.
    rewrite lookup_drop. rewrite <- Hk. f_equal. lia.
Qed.

Lemma keeps_outside_refl (i : nat) (lo hi : Z) (w : World) : keeps_outside i lo hi w w.
Proof. split; [reflexivity | tauto]. Qed.



(** Storing [p] at [off] inside [[lo, hi)]. *)
Lemma set_data_splice_keeps (w : World) (i : nat) (lo hi off : Z) (p : list byte) :
  0 <= off -> lo <= off -> off + Z.of_nat (length p) <= hi ->
  keeps_outside i lo hi w (set_data w i (splice (data_of w i) (Z.to_nat off) p)).
Proof.
  intros H0 Hlo Hhi. unfold keeps_outside. rewrite data_of_set_data.
  destruct (inodes w !! i) as [x |] eqn:Hx.
  - split; [rewrite length_splice; lia |].
    intros k b Hk Hout. apply lookup_splice_outside; [exact Hk | lia].
  - rewrite (data_of_None _ _ Hx). split; [reflexivity |]. intros k b Hk. discriminate.
Qed.

Lemma length_slice_le (d : list byte) (off len : nat) : (length (slice d off len) <= len)%nat.
Proof. unfold slice. rewrite length_take. lia. Qed.

Lemma pwrite_only_data (h : Host) (i : nat) (p : list byte) (off : Z) (w w' : World)
    (r : Z * option error) :
  pwrite h i p off w = (w', r) -> only_data i w w'.
Proof.
  unfold pwrite. destruct (inodes w !! i) as [x |]; [| intros [= <- _]; apply only_data_refl].
  intros [= <- _]. destruct (_ =? 0); [apply only_data_refl | apply set_data_only_data].
Qed.

Lemma pwrite_count (h : Host) (i : nat) (p : list byte) (off : Z) (w w' : World)
    (n : Z) (e : option error) :
  pwrite h i p off w = (w', (n, e)) -> 0 <= n <= Z.of_nat (length p).
Proof.
  unfold pwrite. destruct (inodes w !! i) as [x |]; [| intros [= _ <- _]; lia].
  intros [= _ <- _]. destruct (fsize_limit h); lia.
Qed.

Lemma pwrite_keeps (h : Host) (i : nat) (p : list byte) (off : Z) (w w' : World)
    (r : Z * option error) :
  0 <= off -> pwrite h i p off w = (w', r) ->
  keeps_outside i off (off + Z.of_nat (length p)) w w'.
Proof.
  intros Hoff. unfold pwrite.
  destruct (inodes w !! i) as [x |] eqn:Hx; [| intros [= <- _]; apply keeps_outside_refl].
  intros [= <- _]. destruct (_ =? 0); [apply keeps_outside_refl |].
  rewrite <- (data_of_Some _ _ _ Hx).
  apply set_data_splice_keeps; [exact Hoff | lia |].
  rewrite length_take. lia.
Qed.

Lemma File_WriteAt_only_data (h : Host) (f : File) (p : list byte) (off : Z) (w w' : World)
    (r : Z * option error) :
  File_WriteAt h f p off w = (w', r) -> only_data (f_ino f) w w'.
Proof.
  unfold File_WriteAt. destruct (f_closed f); [intros [= <- _]; apply only_data_refl |].
  destruct (off <? 0); [intros [= <- _]; apply only_data_refl |].
  destruct (pwrite h (f_ino f) p off w) as [v [n e]] eqn:E. intros [= <- _].
  eapply pwrite_only_data. exact E.
Qed.

Lemma File_WriteAt_keeps (h : Host) (f : File) (p : list byte) (off : Z) (w w' : World)
    (r : Z * option error) :
  File_WriteAt h f p off w = (w', r) ->
  keeps_outside (f_ino f) off (off + Z.of_nat (length p)) w w'.
Proof.
  unfold File_WriteAt. destruct (f_closed f); [intros [= <- _]; apply keeps_outside_refl |].
  destruct (off <? 0) eqn:Hoff; [intros [= <- _]; apply keeps_outside_refl |].
  destruct (pwrite h (f_ino f) p off w) as [v [n e]] eqn:E. intros [= <- _].
  eapply pwrite_keeps; [lia | exact E].
Qed.

Lemma File_WriteAt_count (h : Host) (f : File) (p : list byte) (off : Z) (w w' : World)
    (n : Z) (e : option error) :
  File_WriteAt h f p off w = (w', (n, e)) -> 0 <= n <= Z.of_nat (length p).
Proof.
  unfold File_WriteAt. destruct (f_closed f); [intros [= _ <- _]; lia |].
  destruct (off <? 0); [intros [= _ <- _]; lia |].
  destruct (pwrite h (f_ino f) p off w) as [v [k e0]] eqn:E. intros [= _ <- _].
  eapply pwrite_count. exact E.
Qed.

Lemma unix_IoctlFileClone_only_data (h : Host) (d s : File) (w w' : World)
    (r : option error) :
  unix_IoctlFileClone h d s w = (w', r) -> only_data (f_ino d) w w'.
Proof.
  unfold unix_IoctlFileClone.
  destruct (ficlone_errno h =? 0); [| intros [= <- _]; apply only_data_refl].
  destruct (inodes w !! f_ino s); [| intros [= <- _]; apply only_data_refl].
  destruct (inodes w !! f_ino d); [| intros [= <- _]; apply only_data_refl].
  cbv zeta. destruct (_ || _); intros [= <- _];
    [apply set_data_only_data | apply only_data_refl].
Qed.


Lemma unix_CopyFileRange_only_data (h : Host) (s d : File) (roff woff len : Z)
    (w w' : World) (r : Z * option error) :
  unix_CopyFileRange h s roff d woff len w = (w', r) -> only_data (f_ino d) w w'.
Proof.
  unfold unix_CopyFileRange.
  destruct (cfr_errno h =? 0); [| intros [= <- _]; apply only_data_refl].
  destruct (inodes w !! f_ino s); [| intros [= <- _]; apply only_data_refl].
  destruct (inodes w !! f_ino d); [| intros [= <- _]; apply only_data_refl].
  cbv zeta. destruct (_ || _); [intros [= <- _]; apply only_data_refl |].
  destruct (_ || _); [intros [= <- _]; apply only_data_refl |].
  intros [= <- _]. destruct (_ =? 0); [apply only_data_refl | apply set_data_only_data].
Qed.

(** [Control] passes on what the function it runs guarantees. *)
Lemma Control_preserves {X : Type} (Rel : World -> World -> Prop) (c : File)
    (f : World -> World * X) (x0 : X) (w w' : World) (r : option error * X) :
  (forall v, Rel v v) ->
  (forall v v' y, f v = (v', y) -> Rel v v') ->
  Control c f x0 w = (w', r) -> Rel w w'.
Proof.
  intros Hrefl Hf. unfold Control. destruct (f_closed c).
  - intros [= <- _]. apply Hrefl.
  - destruct (f w) as [v' y] eqn:E. intros [= <- _]. eapply Hf. exact E.
Qed.

Lemma reflinkInternal_only_data (h : Host) (pf : Platform) (d s : File) (w w' : World)
    (r : option error) :
  reflinkInternal (Primitives := prims h pf) d s w = (w', r) -> only_data (f_ino d) w w'.
Proof.
  destruct pf; simpl.
  - unfold Linux.reflinkInternal, SyscallConn.
    destruct (Control d _ _ w) as [v [e [e2 e3]]] eqn:E. intros [= <- _].
    eapply (Control_preserves (only_data (f_ino d))); [apply only_data_refl | | exact E].
    intros v0 v1 y. apply Control_preserves; [apply only_data_refl |].
    intros ? ? ?. apply unix_IoctlFileClone_only_data.
  - intros [= <- _]. apply only_data_refl.
Qed.


Lemma copyFileRange_only_data (h : Host) (pf : Platform) (d s : File)
    (dstOffset srcOffset n : Z) (w w' : World) (r : Z * option error) :
  copyFileRange (Primitives := prims h pf) d s dstOffset srcOffset n w = (w', r) ->
  only_data (f_ino d) w w'.
Proof.
  destruct pf; simpl.
  - unfold Linux.copyFileRange, SyscallConn.
    destruct (Control d _ _ w) as [v [e [e2 [k e3]]]] eqn:E.
    assert (only_data (f_ino d) w v) as Hv.
    { eapply (Control_preserves (only_data (f_ino d))); [apply only_data_refl | | exact E].
      intros v0 v1 y. apply Control_preserves; [apply only_data_refl |].
      intros ? ? ?. apply unix_CopyFileRange_only_data. }
    destruct e; [intros [= <- _]; exact Hv |].
    destruct e2; intros [= <- _]; exact Hv.
  - intros [= <- _]. apply only_data_refl.
Qed.

Lemma io_Copy_File_only_data (h : Host) (dst src dst' src' : File) (w w' : World)
    (r : Z * option error) :
  io_Copy_File h dst src w = (w', (dst', src', r)) ->
  only_data (f_ino dst) w w' /\ f_ino dst' = f_ino dst /\ f_name dst' = f_name dst.
Proof.
  unfold io_Copy_File.
  destruct (f_closed src); [intros [= <- <- _ _]; auto using only_data_refl |].
  destruct (f_closed dst); [intros [= <- <- _ _]; auto using only_data_refl |].
  destruct (pwrite h (f_ino dst) _ (f_pos dst) w) as [v [k e]] eqn:E.
  intros [= <- <- _ _]. simpl. split; [| split; reflexivity].
  eapply pwrite_only_data. exact E.
Qed.

(** The copy stage of [reflinkFile] writes bytes of the temporary file and
    nothing else. *)
Lemma copy_to_temp_only_data (h : Host) (pf : Platform) (tmp s tmp' s' : File)
    (fallback : bool) (w w' : World) (err : option error) :
  copy_to_temp h (P := prims h pf) tmp s fallback w = (w', (tmp', s', err)) ->
  only_data (f_ino tmp) w w' /\ f_ino tmp' = f_ino tmp /\ f_name tmp' = f_name tmp.
Proof.
  unfold copy_to_temp.
  destruct (reflinkInternal tmp s w) as [w1 e1] eqn:E1.
  apply reflinkInternal_only_data in E1.
  set (stage2 := if notnil e1 && fallback then _ else _).
  assert (H2 : only_data (f_ino tmp) w1 (fst stage2)).
  { subst stage2. destruct (notnil e1 && fallback); [| apply only_data_refl].
    destruct (File_Stat h s w1) as [st | e]; [| apply only_data_refl].
    destruct (copyFileRange tmp s 0 0 (Size st) w1) as [v [k e]] eqn:E2.
    apply copyFileRange_only_data in E2. exact E2. }
  destruct stage2 as [w2 e2]. simpl in H2.
  destruct (notnil e2 && fallback).
  - destruct (io_Copy_File h tmp s w2) as [w3 [[t3 s3] [k e3]]] eqn:E3.
    apply io_Copy_File_only_data in E3. destruct E3 as (H3 & Hi & Hn).
    intros [= <- <- _ _]. split; [| split; assumption].
    eauto using only_data_trans.
  - intros [= <- <- _ _]. split; [| split; reflexivity].
    eauto using only_data_trans.
Qed.

(** ** Opening and creating files *)

Lemma data_of_app_new (l : list Inode) (nm : gmap string nat) (x : Inode) (i : nat) :
  data_of {| inodes := l ++ [x]; names := nm |} i
  = if decide (i = length l) then i_data x
    else data_of {| inodes := l; names := nm |} i.
Proof.
  unfold data_of. simpl. destruct (decide (i = length l)) as [-> | Hne].
  - rewrite lookup_app_r by lia. rewrite Nat.sub_diag. reflexivity.
  - destruct (decide (i < length l)%nat) as [Hlt | Hge].
    + rewrite lookup_app_l by exact Hlt. reflexivity.
    + rewrite !lookup_ge_None_2; [reflexivity | lia | rewrite length_app; simpl; lia].
Qed.

Lemma splice_empty (p : list byte) : splice [] 0 p = p.
Proof.
  unfold splice. simpl. rewrite drop_nil, app_nil_r. reflexivity.
Qed.

Lemma TempFile_inv (h : Host) (dir : string) (w w1 : World) (tmp : File) :
  ioutil_TempFile h dir w = (w1, inl tmp) ->
  exists nm,
    names w !! nm = None /\
    tmp = {| f_ino := length (inodes w); f_name := nm; f_pos := 0; f_closed := false |} /\
    w1 = {| inodes := inodes w ++ [{| i_data := []; i_mode := temp_mode |}];
            names := <[nm := length (inodes w)]> (names w) |}.
Proof.
  unfold ioutil_TempFile. destruct (temp_names h dir) as [| first rest]; [discriminate |].
  destruct (temp_errno h =? 0); [| destruct (temp_errno h =? EEXIST); discriminate].
  destruct (find _ _) as [nm |] eqn:Ef; [| discriminate].
  intros [= <- <-]. exists nm. split; [| split; reflexivity].
  apply find_some in Ef. destruct Ef as [_ Hb].
  apply bool_decide_eq_true in Hb. exact Hb.
Qed.

Lemma os_Open_inv (h : Host) (src : string) (w : World) (s : File) :
  os_Open h src w = inl s ->
  exists i, names w !! src = Some i /\
            s = {| f_ino := i; f_name := src; f_pos := 0; f_closed := false |}.
Proof.
  unfold os_Open. destruct (open_errno h src =? 0); [| discriminate].
  destruct (names w !! src) as [i |]; [| discriminate].
  intros [= <-]. exists i. split; reflexivity.
Qed.

Lemma lookup_app_new {A : Type} (l : list A) (x : A) : (l ++ [x]) !! length l = Some x.
Proof. rewrite lookup_app_r by reflexivity. rewrite Nat.sub_diag. reflexivity. Qed.

(** ** The path-based operations *)

Lemma File_Chmod_closed (h : Host) (f : File) (mode : Z) (w : World) :
  fst (File_Chmod h (File_Close f) mode w) = w.
Proof. reflexivity. Qed.

(** [reflinkFile] is: open, create the temporary file, run the copy stage,
    close, and then either remove the temporary file or rename it. *)
Lemma reflinkFile_stages (h : Host) {P : Primitives} (src dst : string)
    (fallback : bool) (w : World) :
  reflinkFile h src dst fallback w
  = match os_Open h src w with
    | inr err => (w, Some err)
    | inl s =>
        match ioutil_TempFile h (filepath_Dir dst) w with
        | (w, inr err) => (w, Some err)
        | (w, inl tmp) =>
            let '(w, (tmp, s, err)) := copy_to_temp h tmp s fallback w in
            let tmp := File_Close tmp in
            match err with
            | Some e => let '(w, _) := os_Remove (f_name tmp) w in (w, Some e)
            | None =>
                let w := match File_Stat h s w with
                         | inl st => fst (File_Chmod h tmp (Mode st) w)
                         | inr _ => w
                         end in
                match os_Rename h (f_name tmp) dst w with
                | (w, Some e) => let '(w, _) := os_Remove (f_name tmp) w in (w, Some e)
                | (w, None) => (w, None)
                end
            end
        end
    end.
Proof.
  unfold reflinkFile, copy_to_temp.
  destruct (os_Open h src w) as [s | e]; [| reflexivity].
  destruct (ioutil_TempFile h (filepath_Dir dst) w) as [w1 [tmp | e]]; [| reflexivity].
  destruct (reflinkInternal tmp s w1) as [w2 e1].
  destruct (notnil e1 && fallback).
  - destruct (File_Stat h s w2) as [st | e].
    + destruct (copyFileRange tmp s 0 0 (Size st) w2) as [w3 [k e2]].
      destruct (notnil e2 && fallback); [| reflexivity].
      destruct (io_Copy_File h tmp s w3) as [w4 [[tmp' s'] [k' e3]]]. reflexivity.
    + cbn [notnil andb].
      destruct fallback; [| reflexivity].
      destruct (io_Copy_File h tmp s w2) as [w4 [[tmp' s'] [k' e3]]]. reflexivity.
  - destruct (notnil e1 && fallback); [| reflexivity].
    destruct (io_Copy_File h tmp s w2) as [w4 [[tmp' s'] [k' e3]]]. reflexivity.
Qed.

(** [reflinkFile] after the copy stage failed. *)
Lemma reflinkFile_copy_failed (h : Host) {P : Primitives} (src dst : string)
    (fallback : bool) (w w1 w2 : World) (s tmp s' tmp' : File) (e : error) :
  os_Open h src w = inl s ->
  ioutil_TempFile h (filepath_Dir dst) w = (w1, inl tmp) ->
  copy_to_temp h tmp s fallback w1 = (w2, (tmp', s', Some e)) ->
  reflinkFile h src dst fallback w = (fst (os_Remove (f_name tmp') w2), Some e).
Proof.
  intros Ho Ht Hc. rewrite reflinkFile_stages, Ho, Ht, Hc. simpl.
  destruct (os_Remove (f_name tmp') w2). reflexivity.
Qed.

(** [reflinkFile] after the copy stage succeeded: the mode step changes
    nothing, since the temporary file is closed by then; what is left is the
    rename. *)
Lemma reflinkFile_copy_done (h : Host) {P : Primitives} (src dst : string)
    (fallback : bool) (w w1 w2 : World) (s tmp s' tmp' : File) :
  os_Open h src w = inl s ->
  ioutil_TempFile h (filepath_Dir dst) w = (w1, inl tmp) ->
  copy_to_temp h tmp s fallback w1 = (w2, (tmp', s', None)) ->
  reflinkFile h src dst fallback w
  = match os_Rename h (f_name tmp') dst w2 with
    | (w3, Some e) => (fst (os_Remove (f_name tmp') w3), Some e)
    | (w3, None) => (w3, None)
    end.
Proof.
  intros Ho Ht Hc. rewrite reflinkFile_stages, Ho, Ht, Hc. cbv beta iota zeta.
  assert (Hm : match File_Stat h s' w2 with
               | inl st => fst (File_Chmod h (File_Close tmp') (Mode st) w2)
               | inr _ => w2
               end = w2).
  { destruct (File_Stat h s' w2); reflexivity. }
  rewrite Hm. simpl.
  destruct (os_Rename h (f_name tmp') dst w2) as [w3 [e |]]; [| reflexivity].
  destruct (os_Remove (f_name tmp') w3). reflexivity.
Qed.

Lemma os_Remove_temp (nm : string) (t : nat) (m : gmap string nat) (w2 : World) :
  m !! nm = None -> names w2 = <[nm := t]> m ->
  names (fst (os_Remove nm w2)) = m /\ inodes (fst (os_Remove nm w2)) = inodes w2.
Proof.
  intros Hfresh Hn. unfold os_Remove. rewrite Hn, lookup_insert_eq. simpl.
  split; [| reflexivity]. apply delete_insert_id. exact Hfresh.
Qed.

Lemma os_Rename_failed (h : Host) (old new : string) (w w' : World) (e : error) :
  os_Rename h old new w = (w', Some e) -> w' = w.
Proof.
  unfold os_Rename. destruct (rename_errno h =? 0); [destruct (names w !! old) |];
    intros [= <- _]; reflexivity.
Qed.

Lemma os_Rename_temp (h : Host) (nm dst : string) (t : nat) (m : gmap string nat)
    (w2 w3 : World) :
  m !! nm = None -> names w2 = <[nm := t]> m ->
  os_Rename h nm dst w2 = (w3, None) ->
  names w3 = <[dst := t]> m /\ inodes w3 = inodes w2.
Proof.
  intros Hfresh Hn. unfold os_Rename. destruct (rename_errno h =? 0); [| discriminate].
  rewrite Hn, lookup_insert_eq. intros [= <-]. simpl. split; [| reflexivity].
  rewrite delete_insert_id by exact Hfresh. reflexivity.
Qed.

Lemma reflinkFile_atomic (h : Host) (pf : Platform) (src dst : string) (fallback : bool)
    (w : World) :
  atomic_outcome h dst w (reflinkFile h (P := prims h pf) src dst fallback w).
Proof.
  destruct (os_Open h src w) as [s | e] eqn:Ho.
  2:{ rewrite reflinkFile_stages, Ho. split; simpl; [trivial | reflexivity]. }
  destruct (ioutil_TempFile h (filepath_Dir dst) w) as [w1 [tmp | e]] eqn:Ht.
  2:{ rewrite reflinkFile_stages, Ho, Ht. simpl.
      unfold ioutil_TempFile in Ht.
      destruct (temp_names h (filepath_Dir dst)) as [| first rest];
        [| destruct (temp_errno h =? 0);
           [destruct (find _ _) | destruct (temp_errno h =? EEXIST)]];
        inversion Ht; subst; split; simpl; trivial. }
  destruct (TempFile_inv _ _ _ _ _ Ht) as (nm & Hfresh & Htmp & Hw1).
  destruct (copy_to_temp h (P := prims h pf) tmp s fallback w1)
    as [w2 [[tmp' s'] err]] eqn:Hc.
  destruct (copy_to_temp_only_data _ _ _ _ _ _ _ _ _ _ Hc) as ((Hn & _ & Hother & _) & _ & Hname).
  assert (Hnm : f_name tmp' = nm) by (rewrite Hname, Htmp; reflexivity).
  assert (Hn2 : names w2 = <[nm := length (inodes w)]> (names w))
    by (rewrite Hn, Hw1; reflexivity).
  assert (Hold : forall j x, inodes w !! j = Some x -> inodes w2 !! j = Some x).
  { intros j x Hj. pose proof (lookup_lt_Some _ _ _ Hj) as Hlt.
    rewrite Hother by (rewrite Htmp; simpl; lia).
    rewrite Hw1. simpl. apply lookup_app_l_Some. exact Hj. }
  destruct err as [e |].
  - rewrite (reflinkFile_copy_failed _ _ _ _ _ _ _ _ _ _ _ _ Ho Ht Hc). rewrite Hnm.
    destruct (os_Remove_temp nm _ _ w2 Hfresh Hn2) as [Hnames Hinodes].
    split; simpl; [rewrite Hinodes; exact Hold | exact Hnames].
  - rewrite (reflinkFile_copy_done _ _ _ _ _ _ _ _ _ _ _ Ho Ht Hc). rewrite Hnm.
    destruct (os_Rename h nm dst w2) as [w3 [e |]] eqn:Hr.
    + apply os_Rename_failed in Hr. subst w3.
      destruct (os_Remove_temp nm _ _ w2 Hfresh Hn2) as [Hnames Hinodes].
      split; simpl; [rewrite Hinodes; exact Hold | exact Hnames].
    + destruct (os_Rename_temp _ _ _ _ _ _ _ Hfresh Hn2 Hr) as [Hnames Hinodes].
      split; simpl; [rewrite Hinodes; exact Hold |].
      split; [exact Hnames |]. exists nm, w2. auto.
Qed.

(** C2.  [Always] and [Auto] leave every file that existed as it was; when
    they return an error, whatever the stage that failed, the names are
    exactly those from before the call, so the destination path is untouched
    and the temporary file is gone; when they succeed, the one change of
    names is the destination path, put on the new file by renaming its
    temporary name, which is gone afterwards. *)
Theorem atomic_replacement (h : Host) (pf : Platform) (src dst : string) (w : World) :
  atomic_outcome h dst w (Always h (P := prims h pf) src dst w) /\
  atomic_outcome h dst w (Auto h (P := prims h pf) src dst w).
Proof. split; apply reflinkFile_atomic. Qed.

(** ** Path-based copies on a platform without the clone primitive *)

(** The copy stage of [Auto] on such a platform is the plain copy. *)
Lemma copy_to_temp_other (h : Host) (tmp s : File) (w : World) :
  copy_to_temp h (P := other) tmp s true w
  = let '(w', (tmp', s', (_, err))) := io_Copy_File h tmp s w in (w', (tmp', s', err)).
Proof.
  unfold copy_to_temp. simpl. unfold Other.reflinkInternal. simpl.
  destruct (File_Stat h s w); reflexivity.
Qed.

Lemma copy_to_temp_other_always (h : Host) (tmp s : File) (w : World) :
  copy_to_temp h (P := other) tmp s false w = (w, (tmp, s, Some ErrReflinkUnsupported)).
Proof. reflexivity. Qed.

Lemma os_Open_not_unsupported (h : Host) (src : string) (w : World) (e : error) :
  os_Open h src w = inr e -> e <> ErrReflinkUnsupported.
Proof.
  unfold os_Open. destruct (open_errno h src =? 0); [destruct (names w !! src) |];
    intros [= <-]; discriminate.
Qed.

Lemma TempFile_not_unsupported (h : Host) (dir : string) (w w1 : World) (e : error) :
  ioutil_TempFile h dir w = (w1, inr e) -> e <> ErrReflinkUnsupported.
Proof.
  unfold ioutil_TempFile.
  destruct (temp_names h dir) as [| first rest];
    [| destruct (temp_errno h =? 0);
       [destruct (find _ _) | destruct (temp_errno h =? EEXIST)]];
    intros [= _ <-]; discriminate.
Qed.

Lemma io_Copy_File_not_unsupported (h : Host) (dst src dst' src' : File) (w w' : World)
    (n : Z) (e : error) :
  io_Copy_File h dst src w = (w', (dst', src', (n, Some e))) -> e <> ErrReflinkUnsupported.
Proof.
  unfold io_Copy_File. destruct (f_closed src); [intros [= _ _ _ _ <-]; discriminate |].
  destruct (f_closed dst); [intros [= _ _ _ _ <-]; discriminate |].
  destruct (pwrite h (f_ino dst) _ (f_pos dst) w) as [v [k [e0 |]]]; simpl;
    [intros [= _ _ _ _ <-] |]; discriminate.
Qed.

Lemma os_Rename_not_unsupported (h : Host) (old new : string) (w w' : World) (e : error) :
  os_Rename h old new w = (w', Some e) -> e <> ErrReflinkUnsupported.
Proof.
  unfold os_Rename. destruct (rename_errno h =? 0); [destruct (names w !! old) |];
    intros [= _ <-]; discriminate.
Qed.

Lemma Auto_other_not_unsupported (h : Host) (src dst : string) (w : World) :
  snd (Auto h (P := other) src dst w) <> Some ErrReflinkUnsupported.
Proof.
  unfold Auto.
  destruct (os_Open h src w) as [s | e] eqn:Eo.
  2:{ rewrite reflinkFile_stages, Eo. simpl. intros [= ->].
      eapply os_Open_not_unsupported; eauto. }
  destruct (ioutil_TempFile h (filepath_Dir dst) w) as [w1 [tmp | e]] eqn:Et.
  2:{ rewrite reflinkFile_stages, Eo, Et. simpl. intros [= ->].
      eapply TempFile_not_unsupported; eauto. }
  destruct (copy_to_temp h (P := other) tmp s true w1) as [w2 [[tmp' s'] [e |]]] eqn:Hc.
  - rewrite (reflinkFile_copy_failed _ _ _ _ _ _ _ _ _ _ _ _ Eo Et Hc). simpl.
    intros [= ->]. rewrite copy_to_temp_other in Hc.
    destruct (io_Copy_File h tmp s w1) as [w3 [[tmp3 s3] [k e3]]] eqn:Ec.
    injection Hc as _ _ _ ->.
    eapply io_Copy_File_not_unsupported; eauto.
  - rewrite (reflinkFile_copy_done _ _ _ _ _ _ _ _ _ _ _ Eo Et Hc).
    destruct (os_Rename h (f_name tmp') dst w2) as [w3 [e |]] eqn:Er; simpl;
      [| discriminate].
    intros [= ->]. eapply os_Rename_not_unsupported; eauto.
Qed.

Lemma data_of_temp (w : World) (nm : gmap string nat) (i : nat) :
  data_of {| inodes := inodes w ++ [{| i_data := []; i_mode := temp_mode |}];
             names := nm |} i = data_of w i.
Proof.
  rewrite data_of_app_new. destruct (decide (i = length (inodes w))) as [-> | _].
  - unfold data_of. rewrite lookup_ge_None_2 by lia. reflexivity.
  - destruct w; reflexivity.
Qed.

(** The plain copy into an empty file, when no write is refused. *)
Lemma io_Copy_File_fresh (h : Host) (tmp s : File) (w : World) (x : Inode) :
  fsize_limit h = None ->
  f_closed s = false -> f_closed tmp = false -> f_pos s = 0 -> f_pos tmp = 0 ->
  inodes w !! f_ino tmp = Some x -> i_data x = [] ->
  exists w' tmp' s' n,
    io_Copy_File h tmp s w = (w', (tmp', s', (n, None))) /\
    data_of w' (f_ino tmp) = data_of w (f_ino s).
Proof.
  intros Hlim Hs Ht Hps Hpt Hx Hempty. unfold io_Copy_File, pwrite.
  rewrite Hs, Ht, Hps, Hpt, Hx, Hlim, Hempty. simpl.
  rewrite Z.min_id, Z.ltb_irrefl. simpl.
  do 4 eexists. split; [reflexivity |].
  change (Z.to_nat 0) with 0%nat. rewrite !drop_0.
  destruct (Z.of_nat (length (data_of w (f_ino s))) =? 0) eqn:E.
  - apply Z.eqb_eq in E. rewrite (data_of_Some _ _ _ Hx), Hempty.
    destruct (data_of w (f_ino s)); [reflexivity | simpl in E; lia].
  - rewrite data_of_set_data, Hx. rewrite Nat2Z.id, firstn_all. apply splice_empty.
Qed.

(** C3.  On a platform whose clone primitive is the stub, [Auto] never
    returns [ErrReflinkUnsupported]; once the source is open and the
    temporary file exists, [Always] returns [ErrReflinkUnsupported], while
    [Auto] on the same input, if writing and renaming are not refused,
    returns no error, with the destination name on a file that holds the
    bytes of the source. *)
Theorem unsupported_propagation (h : Host) (src dst : string) (w : World) :
  snd (Auto h (P := other) src dst w) <> Some ErrReflinkUnsupported /\
  (forall s w1 tmp,
      os_Open h src w = inl s ->
      ioutil_TempFile h (filepath_Dir dst) w = (w1, inl tmp) ->
      snd (Always h (P := other) src dst w) = Some ErrReflinkUnsupported /\
      (fsize_limit h = None -> rename_errno h = 0 ->
       exists w', Auto h (P := other) src dst w = (w', None) /\
                  names w' !! dst = Some (f_ino tmp) /\
                  data_of w' (f_ino tmp) = data_of w (f_ino s))).
Proof.
  split; [apply Auto_other_not_unsupported |].
  intros s w1 tmp Ho Ht. split.
  - unfold Always.
    rewrite (reflinkFile_copy_failed h src dst false w w1 w1 s tmp s tmp
               ErrReflinkUnsupported Ho Ht (copy_to_temp_other_always h tmp s w1)).
    reflexivity.
  - intros Hlim Hren. unfold Auto.
    destruct (TempFile_inv _ _ _ _ _ Ht) as (nm & Hfresh & Htmp & Hw1).
    destruct (os_Open_inv _ _ _ _ Ho) as (i & Hi & Hs).
    destruct (io_Copy_File_fresh h tmp s w1 {| i_data := []; i_mode := temp_mode |})
      as (w2 & tmp' & s' & n & Hcopy & Hdata);
      try (subst; simpl; first [assumption | reflexivity | apply lookup_app_new]).
    assert (Hc : copy_to_temp h (P := other) tmp s true w1 = (w2, (tmp', s', None)))
      by (rewrite copy_to_temp_other, Hcopy; reflexivity).
    rewrite (reflinkFile_copy_done h src dst true w w1 w2 s tmp s' tmp' Ho Ht Hc).
    destruct (io_Copy_File_only_data _ _ _ _ _ _ _ _ Hcopy) as ((Hn & _) & _ & Hname).
    assert (Hnm : f_name tmp' = nm) by (rewrite Hname, Htmp; reflexivity).
    assert (Hn2 : names w2 = <[nm := length (inodes w)]> (names w))
      by (rewrite Hn, Hw1; reflexivity).
    rewrite Hnm.
    destruct (os_Rename h nm dst w2) as [w3 [e |]] eqn:Hr.
    { unfold os_Rename in Hr. rewrite Hren, Hn2, lookup_insert_eq in Hr. discriminate. }
    destruct (os_Rename_temp _ _ _ _ _ _ _ Hfresh Hn2 Hr) as [Hnames Hinodes].
    exists w3. split; [reflexivity |].
    rewrite Htmp. simpl. split.
    + rewrite Hnames. apply lookup_insert_eq.
    + unfold data_of at 1. rewrite Hinodes. fold (data_of w2 (length (inodes w))).
      rewrite Htmp in Hdata. simpl in Hdata. rewrite Hdata, Hw1. apply data_of_temp.
Qed.

(** On the stub platform, with nothing refused: [Always] gives
    [ErrReflinkUnsupported], [Auto] copies the three bytes. *)
Lemma unsupported_propagation_witness :
  snd (Always quiet_host (P := other) "d/src" "d/dst" one_file)
  = Some ErrReflinkUnsupported /\
  exists w', Auto quiet_host (P := other) "d/src" "d/dst" one_file = (w', None) /\
             names w' !! "d/dst"%string = Some 1%nat /\ data_of w' 1 = abc.
Proof.
  destruct (unsupported_propagation quiet_host "d/src" "d/dst" one_file) as [_ H].
  destruct (H src_file
              {| inodes := inodes one_file ++ [{| i_data := []; i_mode := temp_mode |}];
                 names := <["d/553203"%string := 1%nat]> (names one_file) |}
              {| f_ino := 1; f_name := "d/553203"; f_pos := 0; f_closed := false |}
              eq_refl eq_refl) as [Ha Hb].
  split; [exact Ha |].
  exact (Hb eq_refl eq_refl).
Defined.

(** ** The copy loop *)

Section CopyLoopRule.
Context {W R : Type} `{Writer W} `{Reader R}.
Variable size : Z.
Variable Inv : W -> R -> World -> Z -> Prop.
Variable Post : W * R * World * (Z * option error) -> Prop.
Variable turns : R -> nat.

(** One turn from a state inside the invariant either ends the loop in
    [Post], or goes on inside the invariant with fewer turns left. *)
Hypothesis step_ok :
  forall dst src wd written,
    Inv dst src wd written ->
    match copyStep size dst src wd written with
    | inl (dst', src', wd', written') =>
        Inv dst' src' wd' written' /\ (turns src' < turns src)%nat
    | inr res => Post res
    end.

Lemma copyLoop_rule (fuel : nat) (dst : W) (src : R) (wd : World) (written : Z) :
  Inv dst src wd written -> (turns src < fuel)%nat ->
  exists res, copyLoop fuel size dst src wd written = Some res /\ Post res.
Proof.
  revert dst src wd written.
  induction fuel as [| fuel IH]; intros dst src wd written HI Hfuel; [lia |].
  simpl. pose proof (step_ok dst src wd written HI) as Hstep.
  destruct (copyStep size dst src wd written) as [[[[dst' src'] wd'] written'] | res].
  - destruct Hstep as [HI' Hlt]. apply IH; [exact HI' | lia].
  - exists res. split; [reflexivity | exact Hstep].
Qed.
End CopyLoopRule.

(** A section of a length that is not negative: nothing wraps around. *)
Lemma NewSectionReader_nonneg (r : File) (off n : Z) :
  0 <= n ->
  NewSectionReader r off n
  = {| sr_r := r; sr_base := off; sr_off := off;
       sr_limit := if off <=? maxint64 - n then n + off else maxint64; sr_n := n |}.
Proof.
  intros Hn. unfold NewSectionReader.
  destruct (n <? 0) eqn:E; [apply Z.ltb_lt in E; lia | reflexivity].
Qed.

Lemma bufSize_pos {R : Type} `{Reader R} (src : R) : 1 <= bufSize src.
Proof.
  unfold bufSize. destruct (limited src) as [N |]; [| lia].
  destruct (N <? 32 * 1024) eqn:E1; [| lia].
  destruct (N <? 1) eqn:E2; lia.
Qed.

Lemma File_ReadAt_length (f : File) (len off : Z) (w : World) :
  (length (fst (File_ReadAt f len off w)) <= Z.to_nat len)%nat.
Proof.
  unfold File_ReadAt. destruct (f_closed f); [simpl; lia |].
  destruct (off <? 0); [simpl; lia |]. simpl. apply length_slice_le.
Qed.

Lemma File_ReadAt_full (f : File) (len off : Z) (w : World) (p : list byte) :
  0 <= len -> File_ReadAt f len off w = (p, None) -> Z.of_nat (length p) = len.
Proof.
  intros Hlen. pose proof (File_ReadAt_length f len off w) as Hle.
  unfold File_ReadAt in *. destruct (f_closed f); [discriminate |].
  destruct (off <? 0); [discriminate |]. simpl in Hle.
  destruct (_ <? len) eqn:E; [discriminate |]. intros [= <-]. lia.
Qed.

(** One [Read] of a section reader: it never delivers more than was asked
    or than the section has left, and without an error it delivers at
    least one byte. *)
Lemma SectionReader_Read_spec (s s' : SectionReader) (len : Z) (w : World)
    (p : list byte) (err : option error) :
  1 <= len ->
  SectionReader_Read s len w = (s', (p, err)) ->
  sr_r s' = sr_r s /\ sr_limit s' = sr_limit s /\
  sr_off s' = sr_off s + Z.of_nat (length p) /\
  Z.of_nat (length p) <= len /\
  Z.of_nat (length p) <= Z.max 0 (sr_limit s - sr_off s) /\
  (err = None -> 1 <= Z.of_nat (length p)).
Proof.
  intros Hlen. unfold SectionReader_Read.
  destruct (sr_limit s <=? sr_off s) eqn:E.
  { intros [= <- <- <-]. simpl. repeat split; try lia. discriminate. }
  set (len' := if sr_limit s - sr_off s <? len then _ else _).
  assert (1 <= len' /\ len' <= len /\ len' <= sr_limit s - sr_off s) as (H1 & H2 & H3).
  { subst len'. destruct (_ <? len) eqn:E2; lia. }
  pose proof (File_ReadAt_length (sr_r s) len' (sr_off s) w) as Hle.
  destruct (File_ReadAt (sr_r s) len' (sr_off s) w) as [q e] eqn:Er.
  intros [= <- <- <-]. simpl in *. repeat split; try lia.
  intros ->. apply File_ReadAt_full in Er; lia.
Qed.

Lemma LimitedReader_Read_spec (l l' : LimitedReader SectionReader) (len : Z) (w : World)
    (p : list byte) (err : option error) :
  1 <= len ->
  Read l len w = (l', (p, err)) ->
  sr_r (lr_R l') = sr_r (lr_R l) /\
  lr_N l' = lr_N l - Z.of_nat (length p) /\
  Z.of_nat (length p) <= Z.max 0 (lr_N l) /\
  (err = None -> 1 <= Z.of_nat (length p)).
Proof.
  intros Hlen. simpl. unfold LimitedReader_Read.
  destruct (lr_N l <=? 0) eqn:E.
  { intros [= <- <- <-]. simpl. repeat split; try lia. discriminate. }
  set (len' := if lr_N l <? len then _ else _).
  assert (1 <= len' /\ len' <= lr_N l) as (H1 & H2).
  { subst len'. destruct (_ <? len) eqn:E2; lia. }
  destruct (Read (lr_R l) len' w) as [r' [q e]] eqn:Er.
  simpl in Er. apply SectionReader_Read_spec in Er; [| exact H1].
  destruct Er as (Hr & _ & _ & Hq & _ & Hne).
  intros [= <- <- <-]. simpl. repeat split; try lia; assumption.
Qed.


Lemma File_WriteAt_negative (h : Host) (f : File) (p : list byte) (off : Z) (w w' : World)
    (r : Z * option error) :
  off < 0 -> File_WriteAt h f p off w = (w', r) -> w' = w.
Proof.
  intros Hoff. unfold File_WriteAt. destruct (f_closed f); [intros [= <- _]; reflexivity |].
  destruct (off <? 0) eqn:E; [intros [= <- _]; reflexivity | lia].
Qed.

(** [Write] of a section writer on a file. *)
Lemma sectionWriter_Write_File (h : Host) (s s' : sectionWriter File) (p : list byte)
    (wd wd' : World) (nw : Z) (ew : option error) :
  sectionWriter_Write (H := File_WriteAt h) s p wd = (s', wd', (nw, ew)) ->
  sw_w s' = sw_w s /\ sw_base s' = sw_base s /\ sw_off s' = add64 (sw_off s) nw /\
  0 <= nw <= Z.of_nat (length p) /\
  only_data (f_ino (sw_w s)) wd wd' /\
  (add64 (sw_base s) (sw_off s) < 0 -> wd' = wd) /\
  keeps_outside (f_ino (sw_w s)) (add64 (sw_base s) (sw_off s))
    (add64 (sw_base s) (sw_off s) + Z.of_nat (length p)) wd wd'.
Proof.
  unfold sectionWriter_Write, WriteAt.
  destruct (File_WriteAt h (sw_w s) p (add64 (sw_base s) (sw_off s)) wd)
    as [v [n e]] eqn:E.
  intros [= <- <- <- <-]. simpl.
  do 3 (split; [reflexivity |]).
  split; [eapply File_WriteAt_count; exact E |].
  split; [eapply File_WriteAt_only_data; exact E |].
  split; [intros Hneg; eapply File_WriteAt_negative; [exact Hneg | exact E] |].
  eapply File_WriteAt_keeps; exact E.
Qed.

Section PartialStream.
Variable h : Host.
Variable d : File.
Variable dstOffset n : Z.
Variable w0 : World.
Hypothesis dstOffset_range : int64_range dstOffset.
Hypothesis n_range : int64_range n.

End PartialStream.






Lemma size_t_nonneg (z : Z) : 0 <= z -> size_t z = z.
Proof. intros Hz. unfold size_t. destruct (z <? 0) eqn:E; [lia | reflexivity]. Qed.







(** ** The handle-based operations return *)

Lemma copyStep_continue {W R : Type} `{Writer W} `{Reader R} (size : Z) (dst dst' : W)
    (src src' : R) (wd wd' : World) (written written' : Z) :
  copyStep size dst src wd written = inl (dst', src', wd', written') ->
  exists buf, Read src size wd = (src', (buf, None)).
Proof.
  unfold copyStep. destruct (Read src size wd) as [r [buf er]].
  destruct (0 <? Z.of_nat (length buf)).
  - destruct (Write dst buf wd) as [[dw ww] [nw ew]].
    destruct ((nw <? 0) || (Z.of_nat (length buf) <? nw)); [discriminate |].
    destruct ew; [discriminate |].
    destruct (negb (Z.of_nat (length buf) =? nw)); [discriminate |].
    destruct er; simpl; [discriminate |]. intros [= _ <- _ _]. eauto.
  - destruct er; simpl; [discriminate |]. intros [= _ <- _ _]. eauto.
Qed.

Lemma io_Copy_SectionReader_returns {W : Type} `{Writer W} (dst : W) (src : SectionReader)
    (wd : World) :
  exists res, io_Copy dst src wd = Some res.
Proof.
  unfold io_Copy.
  destruct (copyLoop_rule (bufSize src) (fun _ _ _ _ => True) (fun _ => True)
              (fun s => Z.to_nat (sr_limit s - sr_off s))) with
    (fuel := S (Z.to_nat (remaining src))) (dst := dst) (src := src) (wd := wd)
    (written := 0) as (res & Hres & _).
  - intros d0 s0 w0 n0 _.
    destruct (copyStep (bufSize src) d0 s0 w0 n0) as [[[[d1 s1] w1] n1] | res] eqn:E;
      [| exact I].
    split; [exact I |].
    apply copyStep_continue in E. destruct E as [buf Hr]. simpl in Hr.
    apply SectionReader_Read_spec in Hr; [| apply bufSize_pos].
    destruct Hr as (_ & Hlim & Hoff & _ & Hmax & Hne). specialize (Hne eq_refl). lia.
  - exact I.
  - simpl. lia.
  - eauto.
Qed.

Lemma io_CopyN_returns {W : Type} `{Writer W} (dst : W) (src : SectionReader) (n : Z)
    (wd : World) :
  exists res, io_CopyN dst src n wd = Some res.
Proof.
  unfold io_CopyN, io_Copy. set (lr := LimitReader src n).
  destruct (copyLoop_rule (bufSize lr) (fun _ _ _ _ => True) (fun _ => True)
              (fun l : LimitedReader SectionReader => Z.to_nat (lr_N l))) with
    (fuel := S (Z.to_nat (remaining lr))) (dst := dst) (src := lr) (wd := wd)
    (written := 0) as ([[[d1 l1] w1] [written err]] & Hres & _).
  - intros d0 s0 w0 n0 _.
    destruct (copyStep (bufSize lr) d0 s0 w0 n0) as [[[[d1 s1] w1] n1] | res] eqn:E;
      [| exact I].
    split; [exact I |].
    apply copyStep_continue in E. destruct E as [buf Hr].
    apply LimitedReader_Read_spec in Hr; [| apply bufSize_pos].
    destruct Hr as (_ & HN & Hmax & Hne). specialize (Hne eq_refl). lia.
  - exact I.
  - simpl. lia.
  - rewrite Hres. destruct (written =? n); [eauto |].
    destruct ((written <? n) && negb (notnil err)); eauto.
Qed.

(** [Reflink] always returns. *)
Lemma Reflink_returns (h : Host) {P : Primitives} (dst src : File) (fallback : bool)
    (w : World) :
  exists r, Reflink h dst src fallback w = Some r.
Proof.
  unfold Reflink. destruct (reflinkInternal dst src w) as [w1 e1].
  destruct (notnil e1 && fallback); [| eauto].
  destruct (File_Stat h src w1) as [st | e]; [| eauto].
  destruct (copyFileRange dst src 0 0 (Size st) w1) as [w2 [k e2]].
  destruct (notnil e2); [| eauto].
  destruct (File_Truncate dst 0 w2) as [w3 e3].
  destruct (io_Copy_SectionReader_returns
              (H := sectionWriter_Writer (H := File_WriteAt h))
              {| sw_w := dst; sw_base := 0; sw_off := 0 |}
              (NewSectionReader src 0 (Size st)) w3) as ([[[a b] c] [k3 e4]] & Hc).
  unfold File_WriterAt. rewrite Hc. eauto.
Qed.

(** [Partial] always returns. *)
Lemma Partial_returns (h : Host) {P : Primitives} (dst src : File)
    (dstOffset srcOffset n : Z) (fallback : bool) (w : World) :
  exists r, Partial h dst src dstOffset srcOffset n fallback w = Some r.
Proof.
  unfold Partial. destruct (reflinkRangeInternal dst src dstOffset srcOffset n w) as [w1 e1].
  set (stage2 := if notnil e1 && fallback then _ else _).
  destruct stage2 as [w2 e2].
  destruct (notnil e2 && fallback); [| eauto].
  destruct (io_CopyN_returns (H := sectionWriter_Writer (H := File_WriteAt h))
              {| sw_w := dst; sw_base := dstOffset; sw_off := 0 |}
              (NewSectionReader src srcOffset n) n w2) as ([w3 [k e3]] & Hc).
  unfold File_WriterAt. rewrite Hc. eauto.
Qed.

(** ** The streamed copy of [Reflink] *)

Lemma splice_extend (l : list byte) (off m : nat) :
  (off <= length l)%nat ->
  splice (take off l) off (take m (drop off l)) = take (off + m) l.
Proof.
  intros Hoff. unfold splice.
  rewrite take_take, Nat.min_id.
  rewrite (length_take_le l off Hoff).
  rewrite Nat.sub_diag. simpl.
  rewrite (drop_ge (take off l)) by (rewrite length_take; lia).
  rewrite app_nil_r. apply take_take_drop.
Qed.

Lemma pwrite_data (h : Host) (i : nat) (p : list byte) (off : Z) (w w' : World)
    (x : Inode) (n : Z) (e : option error) :
  inodes w !! i = Some x ->
  pwrite h i p off w = (w', (n, e)) ->
  (e = None -> n = Z.of_nat (length p)) /\
  data_of w' i = if n =? 0 then i_data x
                 else splice (i_data x) (Z.to_nat off) (take (Z.to_nat n) p).
Proof.
  intros Hx. unfold pwrite. rewrite Hx. intros [= <- <- <-]. split.
  - destruct (_ <? _) eqn:E; [discriminate |]. intros _. apply Z.ltb_ge in E. lia.
  - destruct (_ =? 0).
    + apply data_of_Some. exact Hx.
    + rewrite data_of_set_data, Hx. reflexivity.
Qed.

Section ReflinkStream.
Variable h : Host.
Variable d s : File.
Variable srcdata : list byte.
Hypothesis d_open : f_closed d = false.
Hypothesis distinct : f_ino d <> f_ino s.
Hypothesis size_range : Z.of_nat (length srcdata) < 2 ^ 63.

Lemma reflink_step (size : Z) (sw : sectionWriter File) (sr : SectionReader)
    (wd : World) (written : Z) :
  1 <= size ->
  reflink_inv d s srcdata sw sr wd written ->
  match copyStep (H := sectionWriter_Writer (H := File_WriteAt h)) size sw sr wd written with
  | inl (sw', sr', wd', written') =>
      reflink_inv d s srcdata sw' sr' wd' written' /\
      (Z.to_nat (sr_limit sr' - sr_off sr') < Z.to_nat (sr_limit sr - sr_off sr))%nat
  | inr res => reflink_post d srcdata res
  end.
Proof.
  intros Hsize (Hw & Hb & Hoff & Hr & Hroff & Hlim & Hwr & Hsrc & [x Hx] & Hdst).
  unfold copyStep. simpl Read. unfold SectionReader_Read.
  rewrite Hlim, Hroff, Hr.
  destruct (Z.of_nat (length srcdata) <=? written) eqn:Eend.
  { simpl. split; simpl; [lia | exact Hdst]. }
  apply Z.leb_gt in Eend.
  set (len := if Z.of_nat (length srcdata) - written <? size then _ else _).
  assert (Hlen : 1 <= len <= Z.of_nat (length srcdata) - written).
  { subst len. destruct (_ <? size) eqn:E; lia. }
  unfold File_ReadAt. destruct (f_closed s).
  { simpl. split; simpl; [lia | exact Hdst]. }
  destruct (written <? 0) eqn:Eneg; [lia |].
  rewrite Hsrc.
  set (buf := slice srcdata (Z.to_nat written) (Z.to_nat len)).
  assert (Hbuf : Z.of_nat (length buf) = len).
  { subst buf. unfold slice. rewrite length_take, length_drop. lia. }
  rewrite Hbuf, Z.ltb_irrefl.
  destruct (0 <? len) eqn:Epos; [| lia].
  unfold Write, sectionWriter_Writer, sectionWriter_Write, WriteAt.
  rewrite Hw, Hb, Hoff. rewrite add64_exact by (unfold int64_range; lia).
  unfold File_WriteAt. rewrite !Z.add_0_l, d_open, Eneg.
  destruct (pwrite h (f_ino d) buf written wd) as [wd' [nw e]] eqn:Ep.
  pose proof (pwrite_count _ _ _ _ _ _ _ _ Ep) as Hcount.
  pose proof (pwrite_only_data _ _ _ _ _ _ _ Ep) as Hod.
  destruct (pwrite_data _ _ _ _ _ _ _ _ _ Hx Ep) as [Hfull Hdata].
  rewrite Hbuf in Hcount.
  assert (Hdata' : data_of wd' (f_ino d) = take (Z.to_nat (written + nw)) srcdata).
  { rewrite Hdata. rewrite <- (data_of_Some _ _ _ Hx), Hdst.
    destruct (nw =? 0) eqn:E0.
    - apply Z.eqb_eq in E0. subst nw. rewrite Z.add_0_r. reflexivity.
    - subst buf. unfold slice. rewrite take_take.
      replace (Z.to_nat nw `min` Z.to_nat len)%nat with (Z.to_nat nw) by lia.
      rewrite splice_extend by lia. f_equal. lia. }
  assert (Hrange : (nw <? 0) || (len <? nw) = false).
  { apply orb_false_iff. split; apply Z.ltb_ge; lia. }
  rewrite Hrange.
  destruct e as [e |]; simpl wrapErr; cbv iota.
  { split; simpl; [lia | exact Hdata']. }
  specialize (Hfull eq_refl). rewrite Hbuf in Hfull. subst nw.
  rewrite Z.eqb_refl. simpl.
  split; [| lia].
  unfold reflink_inv, set_off. simpl.
  rewrite add64_exact by (unfold int64_range; lia).
  split; [exact Hw |]. split; [exact Hb |]. split; [reflexivity |].
  split; [reflexivity |]. split; [lia |]. split; [reflexivity |]. split; [lia |].
  split; [rewrite (only_data_other _ _ _ _ Hod) by congruence; exact Hsrc |].
  split; [apply (only_data_is_Some _ _ _ _ Hod); eauto | exact Hdata'].
Qed.
End ReflinkStream.

Lemma File_Stat_inv (h : Host) (f : File) (w : World) (st : FileInfo) :
  File_Stat h f w = inl st ->
  f_closed f = false /\
  exists x, inodes w !! f_ino f = Some x /\
            Size st = Z.of_nat (length (i_data x)) /\ Mode st = i_mode x.
Proof.
  unfold File_Stat. destruct (f_closed f); [discriminate |].
  destruct (fstat_errno h =? 0); [| discriminate].
  destruct (inodes w !! f_ino f) as [x |]; [| discriminate].
  intros [= <-]. split; [reflexivity |]. exists x. auto.
Qed.

Lemma File_Truncate_zero (f : File) (w : World) :
  f_closed f = false -> is_Some (inodes w !! f_ino f) ->
  only_data (f_ino f) w (fst (File_Truncate f 0 w)) /\
  data_of (fst (File_Truncate f 0 w)) (f_ino f) = [].
Proof.
  intros Hopen [x Hx]. unfold File_Truncate. rewrite Hopen, Hx. simpl. split.
  - apply set_data_only_data.
  - rewrite data_of_set_data, Hx. reflexivity.
Qed.

(** C10.  [Reflink] with [fallback] on an open destination, once the clone
    and the accelerated copy have both failed: the destination is cut to
    zero length and the streamed copy starts from there.  If [Reflink] then
    returns an error, it is the error of that copy and the world is the one
    the copy left: the destination holds the bytes written so far, a prefix
    of the source, and nothing of what it held before the call. *)
Theorem Reflink_streamed_failure (h : Host) (pf : Platform) (dst src : File)
    (w w1 w2 w' : World) (e1 e2 e : error) (st : FileInfo) (k : Z) :
  f_closed dst = false ->
  is_Some (inodes w !! f_ino dst) ->
  f_ino dst <> f_ino src ->
  Z.of_nat (length (data_of w (f_ino src))) < 2 ^ 63 ->
  reflinkInternal (Primitives := prims h pf) dst src w = (w1, Some e1) ->
  File_Stat h src w1 = inl st ->
  copyFileRange (Primitives := prims h pf) dst src 0 0 (Size st) w1 = (w2, (k, Some e2)) ->
  Reflink h (P := prims h pf) dst src true w = Some (w', Some e) ->
  data_of (fst (File_Truncate dst 0 w2)) (f_ino dst) = [] /\
  (exists sw sr written,
      io_Copy (H := sectionWriter_Writer (H := File_WriteAt h))
        {| sw_w := dst; sw_base := 0; sw_off := 0 |}
        (NewSectionReader src 0 (Size st)) (fst (File_Truncate dst 0 w2))
      = Some (sw, sr, w', (written, Some e)) /\
      0 <= written <= Z.of_nat (length (data_of w (f_ino src))) /\
      data_of w' (f_ino dst) = take (Z.to_nat written) (data_of w (f_ino src))).
Proof.
  intros Hopen Hex Hne Hsize E1 Est E2 Hr.
  pose proof (reflinkInternal_only_data _ _ _ _ _ _ _ E1) as Ho1.
  pose proof (copyFileRange_only_data _ _ _ _ _ _ _ _ _ _ E2) as Ho2.
  pose proof (only_data_trans _ _ _ _ Ho1 Ho2) as Ho12.
  assert (Hex2 : is_Some (inodes w2 !! f_ino dst))
    by (apply (only_data_is_Some _ _ _ _ Ho12); exact Hex).
  destruct (File_Truncate_zero dst w2 Hopen Hex2) as [Ho3 Hempty].
  set (w3 := fst (File_Truncate dst 0 w2)) in *.
  pose proof (only_data_trans _ _ _ _ Ho12 Ho3) as Ho.
  assert (Hsrc3 : data_of w3 (f_ino src) = data_of w (f_ino src))
    by (apply (only_data_other _ _ _ _ Ho); congruence).
  destruct (File_Stat_inv _ _ _ _ Est) as (_ & x & Hx & Hsz & _).
  assert (Hst : Size st = Z.of_nat (length (data_of w (f_ino src)))).
  { rewrite Hsz, <- (data_of_Some _ _ _ Hx).
    rewrite (only_data_other _ _ _ _ Ho1) by congruence. reflexivity. }
  split; [exact Hempty |].
  set (srcdata := data_of w (f_ino src)) in *.
  set (sw0 := {| sw_w := dst; sw_base := 0; sw_off := 0 |}).
  set (sr0 := NewSectionReader src 0 (Size st)).
  destruct (copyLoop_rule (H := sectionWriter_Writer (H := File_WriteAt h))
              (bufSize sr0) (reflink_inv dst src srcdata) (reflink_post dst srcdata)
              (fun r => Z.to_nat (sr_limit r - sr_off r))
              (fun a b c n => reflink_step h dst src srcdata Hopen Hne Hsize
                                (bufSize sr0) a b c n (bufSize_pos sr0))
              (S (Z.to_nat (remaining sr0))) sw0 sr0 w3 0)
    as ([[[sw' sr'] w4] [written err]] & Hloop & Hpost).
  - unfold reflink_inv, sr0. rewrite NewSectionReader_nonneg by lia. simpl.
    assert (Hfit : (0 <=? maxint64 - Size st) = true)
      by (apply Z.leb_le; unfold maxint64; lia).
    rewrite Hfit, Z.add_0_r.
    do 5 (split; [reflexivity |]). split; [exact Hst |]. split; [lia |].
    split; [exact Hsrc3 |]. split; [| exact Hempty].
    apply (only_data_is_Some _ _ _ _ Ho3). exact Hex2.
  - simpl. lia.
  - unfold Reflink in Hr. rewrite E1 in Hr. cbn [notnil andb] in Hr.
    rewrite Est, E2 in Hr. cbn [notnil] in Hr.
    subst w3 sw0 sr0. destruct (File_Truncate dst 0 w2) as [w3 e3].
    cbn [fst] in *. unfold io_Copy, File_WriterAt in Hr. rewrite Hloop in Hr.
    injection Hr as <- ->.
    exists sw', sr', written. split; [exact Hloop |]. exact Hpost.
Qed.

(** A disk with room for two bytes per file, no reflinks and no
    copy_file_range: [Reflink] onto "xxxxx" fails and leaves "ab". *)
Lemma Reflink_streamed_failure_witness :
  exists w' e,
    Reflink full_disk_host (P := linux full_disk_host) dst_file src_file true two_files
    = Some (w', Some e) /\
    data_of two_files 1 = xxxxx /\
    data_of w' 1 = [Byte.x61; Byte.x62].
Proof.
  destruct (Reflink full_disk_host (P := linux full_disk_host) dst_file src_file true
              two_files) as [[w' [e |]] |] eqn:Hr;
    [| exfalso; vm_compute in Hr; discriminate ..].
  exists w', e. split; [reflexivity |]. split; [reflexivity |].
  destruct (Reflink_streamed_failure full_disk_host LinuxOS dst_file src_file
              two_files two_files two_files w'
              ErrReflinkFailed (Errno ENOTSUP) e
              {| Size := 3; Mode := 420 |} (-1))
    as (_ & sw & sr & written & Hcopy & _ & Hdata);
    try reflexivity; try exact Hr.
  - eexists. reflexivity.
  - discriminate.
  - assert (Hw : written = 2) by (vm_compute in Hcopy; congruence).
    change (f_ino dst_file) with 1%nat in Hdata.
    rewrite Hdata, Hw. reflexivity.
Defined.

(** ** The mode of the copy *)

Lemma reflinkFile_mode (h : Host) (pf : Platform) (src dst : string) (fallback : bool)
    (w w' : World) :
  reflinkFile h (P := prims h pf) src dst fallback w = (w', None) ->
  names w' !! dst = Some (length (inodes w)) /\
  mode_of w' (length (inodes w)) = temp_mode.
Proof.
  intros Hr.
  destruct (os_Open h src w) as [s | e] eqn:Ho.
  2:{ rewrite reflinkFile_stages, Ho in Hr. discriminate. }
  destruct (ioutil_TempFile h (filepath_Dir dst) w) as [w1 [tmp | e]] eqn:Ht.
  2:{ rewrite reflinkFile_stages, Ho, Ht in Hr. discriminate. }
  destruct (TempFile_inv _ _ _ _ _ Ht) as (nm & Hfresh & Htmp & Hw1).
  destruct (copy_to_temp h (P := prims h pf) tmp s fallback w1)
    as [w2 [[tmp' s'] err]] eqn:Hc.
  destruct (copy_to_temp_only_data _ _ _ _ _ _ _ _ _ _ Hc) as ((Hn & _ & _ & Hmode) & _ & Hname).
  assert (Hnm : f_name tmp' = nm) by (rewrite Hname, Htmp; reflexivity).
  assert (Hn2 : names w2 = <[nm := length (inodes w)]> (names w))
    by (rewrite Hn, Hw1; reflexivity).
  destruct err as [e |].
  { rewrite (reflinkFile_copy_failed _ _ _ _ _ _ _ _ _ _ _ _ Ho Ht Hc) in Hr. discriminate. }
  rewrite (reflinkFile_copy_done _ _ _ _ _ _ _ _ _ _ _ Ho Ht Hc) in Hr. rewrite Hnm in Hr.
  destruct (os_Rename h nm dst w2) as [w3 [e |]] eqn:Hren; [discriminate |].
  injection Hr as <-.
  destruct (os_Rename_temp _ _ _ _ _ _ _ Hfresh Hn2 Hren) as [Hnames Hinodes].
  split.
  - rewrite Hnames. apply lookup_insert_eq.
  - unfold mode_of at 1. rewrite Hinodes. fold (mode_of w2 (length (inodes w))).
    rewrite Htmp in Hmode. simpl in Hmode. rewrite Hmode, Hw1.
    unfold mode_of. simpl. rewrite lookup_app_new. reflexivity.
Qed.

(** C9, what the code does.  After a successful [Always] or [Auto] the
    destination path is on the new file, and the mode of that file is the
    mode [ioutil.TempFile] gave it, 0600, whatever the mode of the source:
    [Chmod] is called on the temporary file after [Close], so the mode is
    never copied (and its error never returned). *)
Theorem copy_keeps_temp_mode (h : Host) (pf : Platform) (src dst : string) (w w' : World) :
  Always h (P := prims h pf) src dst w = (w', None) \/
  Auto h (P := prims h pf) src dst w = (w', None) ->
  names w' !! dst = Some (length (inodes w)) /\
  mode_of w' (length (inodes w)) = temp_mode.
Proof. intros [Hr | Hr]; eapply reflinkFile_mode; exact Hr. Qed.

(** A source of mode 0644 on a host that refuses nothing: the clone
    succeeds and the destination has mode 0600. *)
Lemma copy_keeps_temp_mode_witness :
  exists w',
    Auto quiet_host (P := linux quiet_host) "d/src" "d/dst" one_file = (w', None) /\
    mode_of one_file 0 = 420 /\
    names w' !! "d/dst"%string = Some 1%nat /\ mode_of w' 1 = 384.
Proof.
  destruct (Auto quiet_host (P := linux quiet_host) "d/src" "d/dst" one_file)
    as [w' [e |]] eqn:Hr; [exfalso; vm_compute in Hr; discriminate |].
  exists w'. split; [reflexivity |]. split; [reflexivity |].
  apply (copy_keeps_temp_mode quiet_host LinuxOS "d/src" "d/dst" one_file w').
  right. exact Hr.
Defined.

(** ** A short accelerated copy *)

(** C4, what the code does.  When the clone has failed and the accelerated
    copy reports no error, the byte count it returns is dropped: [Partial]
    and [Reflink] return success with the world the accelerated copy left,
    and [Auto] goes straight on to the rename of the temporary file; the
    streamed copy does not run, also when fewer bytes were copied than
    asked for. *)
Theorem short_accelerated_copy_accepted (h : Host) {P : Primitives} (dst src : File)
    (w w1 w2 : World) (e1 : error) (k : Z) :
  (forall dstOffset srcOffset n,
      reflinkRangeInternal dst src dstOffset srcOffset n w = (w1, Some e1) ->
      copyFileRange dst src dstOffset srcOffset n w1 = (w2, (k, None)) ->
      k < n ->
      Partial h dst src dstOffset srcOffset n true w = Some (w2, None)) /\
  (forall st,
      reflinkInternal dst src w = (w1, Some e1) ->
      File_Stat h src w1 = inl st ->
      copyFileRange dst src 0 0 (Size st) w1 = (w2, (k, None)) ->
      k < Size st ->
      Reflink h dst src true w = Some (w2, None) /\
      forall srcPath dstPath w0,
        os_Open h srcPath w0 = inl src ->
        ioutil_TempFile h (filepath_Dir dstPath) w0 = (w, inl dst) ->
        Auto h srcPath dstPath w0
        = match os_Rename h (f_name dst) dstPath w2 with
          | (w3, Some e) => (fst (os_Remove (f_name dst) w3), Some e)
          | (w3, None) => (w3, None)
          end).
Proof.
  split.
  - intros dstOffset srcOffset n E1 E2 _. unfold Partial. rewrite E1. cbn [notnil andb].
    rewrite E2. reflexivity.
  - intros st E1 Est E2 _. split.
    + unfold Reflink. rewrite E1. cbn [notnil andb]. rewrite Est, E2. reflexivity.
    + intros srcPath dstPath w0 Ho Ht. unfold Auto.
      apply (reflinkFile_copy_done h srcPath dstPath true w0 w w2 src dst src dst Ho Ht).
      unfold copy_to_temp. rewrite E1. cbn [notnil andb]. rewrite Est, E2. reflexivity.
Qed.

(** Two of three bytes copied, and [Partial] returns success. *)
Lemma short_accelerated_copy_accepted_witness :
  exists w',
    Partial short_copy_host (P := linux short_copy_host) dst_file src_file 1 0 3 true
      two_files = Some (w', None) /\
    data_of w' 1 = [Byte.x78; Byte.x61; Byte.x62; Byte.x78; Byte.x78].
Proof.
  destruct (copyFileRange (Primitives := linux short_copy_host) dst_file src_file 1 0 3
              two_files) as [w' [k e]] eqn:Hc.
  assert (k = 2 /\ e = None) as [-> ->]
    by (vm_compute in Hc; split; congruence).
  exists w'. split.
  - apply (short_accelerated_copy_accepted short_copy_host (P := linux short_copy_host)
             dst_file src_file two_files two_files w' ErrReflinkFailed 2);
      [reflexivity | exact Hc | lia].
  - vm_compute in Hc. injection Hc as <-. reflexivity.
Defined.

(** ** Content after a successful call *)

(** C1, where the code departs from it.  On a filesystem without reflinks
    whose copy_file_range moves two bytes per call, a three-byte source is
    "copied" with success by [Auto], [Reflink] and [Partial], and the
    destination has only the first two bytes.  And where copy_file_range
    copies everything, [Reflink] onto a longer file returns success and
    leaves the old tail of the destination in place. *)
Theorem short_copy_breaks_content_equality :
  data_of one_file 0 = abc /\ data_of two_files 0 = abc /\
  (exists w',
      Auto short_copy_host (P := linux short_copy_host) "d/src" "d/dst" one_file
      = (w', None) /\
      names w' !! "d/dst"%string = Some 1%nat /\
      data_of w' 1 = [Byte.x61; Byte.x62]) /\
  (exists w',
      Reflink short_copy_host (P := linux short_copy_host) dst_file src_file true two_files
      = Some (w', None) /\
      data_of w' 1 = [Byte.x61; Byte.x62; Byte.x78; Byte.x78; Byte.x78]) /\
  (exists w',
      Partial short_copy_host (P := linux short_copy_host) dst_file src_file 1 0 3 true
        two_files = Some (w', None) /\
      data_of w' 1 = [Byte.x78; Byte.x61; Byte.x62; Byte.x78; Byte.x78]) /\
  (exists w',
      Reflink no_reflink_host (P := linux no_reflink_host) dst_file src_file true two_files
      = Some (w', None) /\
      data_of w' 1 = [Byte.x61; Byte.x62; Byte.x63; Byte.x78; Byte.x78]).
Proof.
  split; [reflexivity |]. split; [reflexivity |].
  split; [eexists; split; [vm_compute; reflexivity | split; reflexivity] |].
  repeat split; eexists; (split; [vm_compute; reflexivity | reflexivity]).
Qed.

(** * Further properties *)

(** ** What a successful or failed primitive did *)

Lemma clone_fail_same (h : Host) (d s : File) (w w' : World) (e : error) :
  unix_IoctlFileClone h d s w = (w', Some e) -> w' = w.
Proof.
  unfold unix_IoctlFileClone.
  destruct (ficlone_errno h =? 0); [| intros [= <- _]; reflexivity].
  destruct (inodes w !! f_ino s); [| intros [= <- _]; reflexivity].
  destruct (inodes w !! f_ino d); [| intros [= <- _]; reflexivity].
  cbv zeta. destruct (_ || _); [discriminate | intros [= <- _]; reflexivity].
Qed.

(** A clone that fails has changed nothing. *)
Lemma reflinkInternal_fail_same (h : Host) (pf : Platform) (d s : File) (w w' : World)
    (e : error) :
  reflinkInternal (Primitives := prims h pf) d s w = (w', Some e) -> w' = w.
Proof.
  destruct pf; simpl.
  - unfold Linux.reflinkInternal, SyscallConn, Control.
    destruct (f_closed d); [intros [= <- _]; reflexivity |].
    destruct (f_closed s); [intros [= <- _]; reflexivity |].
    destruct (unix_IoctlFileClone h d s w) as [v [e3 |]] eqn:E.
    + apply clone_fail_same in E. subst v. intros [= <- _]. reflexivity.
    + discriminate.
  - intros [= <- _]. reflexivity.
Qed.

(** A clone that succeeds ran on the Linux build, with both inodes in
    place, and stored the bytes of the source from offset 0. *)
Lemma reflinkInternal_ok (h : Host) (pf : Platform) (d s : File) (w w' : World) :
  reflinkInternal (Primitives := prims h pf) d s w = (w', None) ->
  exists si di,
    inodes w !! f_ino s = Some si /\ inodes w !! f_ino d = Some di /\
    w' = set_data w (f_ino d) (splice (i_data di) 0 (i_data si)).
Proof.
  destruct pf; simpl; [| discriminate].
  unfold Linux.reflinkInternal, SyscallConn, Control.
  destruct (f_closed d); [discriminate |].
  destruct (f_closed s); [discriminate |].
  unfold unix_IoctlFileClone.
  destruct (ficlone_errno h =? 0).
  - destruct (inodes w !! f_ino s) as [si |].
    + destruct (inodes w !! f_ino d) as [di |].
      * cbv zeta. destruct (_ || _).
        -- intros [= <-]. eauto.
        -- cbv beta iota zeta.
           destruct (errors_Is (Errno EINVAL) (Errno ENOTSUP)); discriminate.
      * cbv beta iota zeta. destruct (errors_Is (Errno EBADF) (Errno ENOTSUP)); discriminate.
    + cbv beta iota zeta. destruct (errors_Is (Errno EBADF) (Errno ENOTSUP)); discriminate.
  - cbv beta iota zeta.
    destruct (errors_Is (Errno (ficlone_errno h)) (Errno ENOTSUP)); discriminate.
Qed.

Lemma copy_fail_same (h : Host) (s d : File) (roff woff len : Z) (w w' : World)
    (k : Z) (e : error) :
  unix_CopyFileRange h s roff d woff len w = (w', (k, Some e)) -> w' = w.
Proof.
  unfold unix_CopyFileRange.
  destruct (cfr_errno h =? 0); [| intros [= <- _]; reflexivity].
  destruct (inodes w !! f_ino s); [| intros [= <- _]; reflexivity].
  destruct (inodes w !! f_ino d); [| intros [= <- _]; reflexivity].
  cbv zeta. destruct (_ || _); [intros [= <- _]; reflexivity |].
  destruct (_ || _); [intros [= <- _]; reflexivity | discriminate].
Qed.

(** An accelerated copy that reports an error has changed nothing. *)
Lemma copyFileRange_fail_same (h : Host) (pf : Platform) (d s : File)
    (dstOffset srcOffset n : Z) (w w' : World) (k : Z) (e : error) :
  copyFileRange (Primitives := prims h pf) d s dstOffset srcOffset n w = (w', (k, Some e)) ->
  w' = w.
Proof.
  destruct pf; simpl.
  - unfold Linux.copyFileRange, SyscallConn, Control.
    destruct (f_closed d); [intros [= <- _]; reflexivity |].
    destruct (f_closed s); [intros [= <- _]; reflexivity |].
    destruct (unix_CopyFileRange h s srcOffset d dstOffset n w) as [v [k3 [e3 |]]] eqn:E.
    + apply copy_fail_same in E. subst v. intros [= <- _]. reflexivity.
    + discriminate.
  - intros [= <- _]. reflexivity.
Qed.

(** An accelerated copy of a length that is not negative and that reports
    no error ran on the Linux build with offsets that are not negative,
    and stored the bytes it counted. *)
Lemma copyFileRange_ok (h : Host) (pf : Platform) (d s : File)
    (dstOffset srcOffset n : Z) (w w' : World) (k : Z) :
  0 <= n ->
  copyFileRange (Primitives := prims h pf) d s dstOffset srcOffset n w = (w', (k, None)) ->
  exists si di,
    inodes w !! f_ino s = Some si /\ inodes w !! f_ino d = Some di /\
    0 <= srcOffset /\ 0 <= dstOffset /\
    k = Z.max 0 (Z.min (Z.min n (cfr_max h)) (Z.of_nat (length (i_data si)) - srcOffset)) /\
    w' = if k =? 0 then w
         else set_data w (f_ino d)
                (splice (i_data di) (Z.to_nat dstOffset)
                   (slice (i_data si) (Z.to_nat srcOffset) (Z.to_nat k))).
Proof.
  intros Hn. destruct pf; simpl; [| discriminate].
  unfold Linux.copyFileRange, SyscallConn, Control.
  destruct (f_closed d); [discriminate |].
  destruct (f_closed s); [discriminate |].
  unfold unix_CopyFileRange.
  destruct (cfr_errno h =? 0); [| discriminate].
  destruct (inodes w !! f_ino s) as [si |]; [| discriminate].
  destruct (inodes w !! f_ino d) as [di |]; [| discriminate].
  rewrite (size_t_nonneg n Hn). cbv zeta.
  destruct (_ || _); [discriminate |].
  destruct (_ || _) eqn:Hchk; [discriminate |].
  apply orb_false_iff in Hchk. destruct Hchk as [H1 H2].
  apply Z.ltb_ge in H1, H2.
  intros [= <- <-]. exists si, di. repeat split; try assumption; reflexivity.
Qed.

Lemma slice_all (l : list byte) : slice l 0 (length l) = l.
Proof. unfold slice. rewrite drop_0. apply firstn_all. Qed.

(** The plain copy into an empty file: without an error the file holds the
    bytes of the source. *)
Lemma io_Copy_File_ok (h : Host) (tmp s tmp' s' : File) (w w' : World) (x : Inode) (n : Z) :
  f_pos s = 0 -> f_pos tmp = 0 ->
  inodes w !! f_ino tmp = Some x -> i_data x = [] ->
  io_Copy_File h tmp s w = (w', (tmp', s', (n, None))) ->
  data_of w' (f_ino tmp) = data_of w (f_ino s).
Proof.
  intros Hps Hpt Hx Hempty. unfold io_Copy_File.
  destruct (f_closed s); [discriminate |].
  destruct (f_closed tmp); [discriminate |].
  rewrite Hps, Hpt. change (Z.to_nat 0) with 0%nat. rewrite drop_0.
  destruct (pwrite h (f_ino tmp) (data_of w (f_ino s)) 0 w) as [v [k e]] eqn:Ep.
  destruct e as [e |]; [discriminate |]. intros [= <- _ _ _].
  destruct (pwrite_data _ _ _ _ _ _ _ _ _ Hx Ep) as [Hfull Hdata].
  specialize (Hfull eq_refl). subst k. rewrite Hdata, Hempty.
  destruct (Z.of_nat (length (data_of w (f_ino s))) =? 0) eqn:E0.
  - apply Z.eqb_eq in E0. destruct (data_of w (f_ino s)); [reflexivity | simpl in E0; lia].
  - rewrite Nat2Z.id, firstn_all. apply splice_empty.
Qed.

(** ** Content after a successful path-based copy *)

(** The copy stage of [reflinkFile] into the empty temporary file: if it
    ends without an error and the accelerated copy, where it ran, could
    take the whole source in one call, the temporary file holds the bytes
    of the source. *)
Lemma copy_to_temp_content (h : Host) (pf : Platform) (tmp s tmp' s' : File)
    (fallback : bool) (w w' : World) (x : Inode) :
  f_pos s = 0 -> f_pos tmp = 0 ->
  inodes w !! f_ino tmp = Some x -> i_data x = [] ->
  fallback = false \/ pf = OtherOS \/
    Z.of_nat (length (data_of w (f_ino s))) <= cfr_max h ->
  copy_to_temp h (P := prims h pf) tmp s fallback w = (w', (tmp', s', None)) ->
  data_of w' (f_ino tmp) = data_of w (f_ino s).
Proof.
  intros Hps Hpt Hx Hempty Hcond. unfold copy_to_temp.
  destruct (reflinkInternal tmp s w) as [w1 [e1 |]] eqn:E1.
  - apply reflinkInternal_fail_same in E1. subst w1. cbn [notnil andb].
    destruct fallback; [| discriminate].
    destruct (File_Stat h s w) as [st | e] eqn:Est.
    + destruct (copyFileRange tmp s 0 0 (Size st) w) as [w2 [k [e2 |]]] eqn:E2.
      * apply copyFileRange_fail_same in E2. subst w2. cbn [notnil andb].
        destruct (io_Copy_File h tmp s w) as [w3 [[t3 s3] [k3 e3]]] eqn:E3.
        intros [= <- _ _ ->]. eapply io_Copy_File_ok; eauto.
      * cbn [notnil andb]. intros [= <- _ _].
        destruct (File_Stat_inv _ _ _ _ Est) as (_ & xs & Hxs & Hsz & _).
        assert (Hnn : 0 <= Size st) by lia.
        destruct (copyFileRange_ok _ _ _ _ _ _ _ _ _ _ Hnn E2)
          as (si & di & Hsi & Hdi & _ & _ & Hk & Hw2).
        destruct Hcond as [Hf | [Hp | Hmax]]; [discriminate | subst pf; discriminate |].
        rewrite Hxs in Hsi. injection Hsi as <-. rewrite Hx in Hdi. injection Hdi as <-.
        rewrite (data_of_Some _ _ _ Hxs) in Hmax |- *.
        assert (Hk' : k = Z.of_nat (length (i_data xs))) by lia.
        subst w2. rewrite Hk'. destruct (Z.of_nat (length (i_data xs)) =? 0) eqn:E0.
        -- apply Z.eqb_eq in E0. rewrite (data_of_Some _ _ _ Hx), Hempty.
           destruct (i_data xs); [reflexivity | simpl in E0; lia].
        -- rewrite data_of_set_data, Hx, Hempty, Nat2Z.id. change (Z.to_nat 0) with 0%nat.
           rewrite slice_all. apply splice_empty.
    + cbn [notnil andb].
      destruct (io_Copy_File h tmp s w) as [w3 [[t3 s3] [k3 e3]]] eqn:E3.
      intros [= <- _ _ ->]. eapply io_Copy_File_ok; eauto.
  - cbn [notnil andb]. intros [= <- _ _].
    destruct (reflinkInternal_ok _ _ _ _ _ _ E1) as (si & di & Hsi & Hdi & ->).
    rewrite Hx in Hdi. injection Hdi as <-.
    rewrite data_of_set_data, Hx, Hempty, (data_of_Some _ _ _ Hsi). apply splice_empty.
Qed.

Lemma reflinkFile_content (h : Host) (pf : Platform) (src dst : string) (fallback : bool)
    (w w' : World) :
  reflinkFile h (P := prims h pf) src dst fallback w = (w', None) ->
  exists i,
    names w !! src = Some i /\
    names w' !! dst = Some (length (inodes w)) /\
    (fallback = false \/ pf = OtherOS \/ Z.of_nat (length (data_of w i)) <= cfr_max h ->
     data_of w' (length (inodes w)) = data_of w i).
Proof.
  intros Hr.
  destruct (os_Open h src w) as [s | e] eqn:Ho.
  2:{ rewrite reflinkFile_stages, Ho in Hr. discriminate. }
  destruct (ioutil_TempFile h (filepath_Dir dst) w) as [w1 [tmp | e]] eqn:Ht.
  2:{ rewrite reflinkFile_stages, Ho, Ht in Hr. discriminate. }
  destruct (TempFile_inv _ _ _ _ _ Ht) as (nm & Hfresh & Htmp & Hw1).
  destruct (os_Open_inv _ _ _ _ Ho) as (i & Hi & Hs).
  destruct (copy_to_temp h (P := prims h pf) tmp s fallback w1)
    as [w2 [[tmp' s'] err]] eqn:Hc.
  destruct (copy_to_temp_only_data _ _ _ _ _ _ _ _ _ _ Hc) as ((Hn & _) & _ & Hname).
  assert (Hnm : f_name tmp' = nm) by (rewrite Hname, Htmp; reflexivity).
  assert (Hn2 : names w2 = <[nm := length (inodes w)]> (names w))
    by (rewrite Hn, Hw1; reflexivity).
  destruct err as [e |].
  { rewrite (reflinkFile_copy_failed _ _ _ _ _ _ _ _ _ _ _ _ Ho Ht Hc) in Hr. discriminate. }
  rewrite (reflinkFile_copy_done _ _ _ _ _ _ _ _ _ _ _ Ho Ht Hc) in Hr. rewrite Hnm in Hr.
  destruct (os_Rename h nm dst w2) as [w3 [e |]] eqn:Hren; [discriminate |].
  injection Hr as <-.
  destruct (os_Rename_temp _ _ _ _ _ _ _ Hfresh Hn2 Hren) as [Hnames Hinodes].
  exists i. split; [exact Hi |]. split; [rewrite Hnames; apply lookup_insert_eq |].
  intros Hcond.
  unfold data_of at 1. rewrite Hinodes. fold (data_of w2 (length (inodes w))).
  assert (Hdata : data_of w2 (f_ino tmp) = data_of w1 (f_ino s)).
  { eapply (copy_to_temp_content h pf tmp s tmp' s' fallback w1 w2
              {| i_data := []; i_mode := temp_mode |}); try exact Hc.
    - rewrite Hs. reflexivity.
    - rewrite Htmp. reflexivity.
    - rewrite Htmp, Hw1. simpl. apply lookup_app_new.
    - reflexivity.
    - rewrite Hs, Hw1. simpl. rewrite data_of_temp. exact Hcond. }
  rewrite Htmp, Hs in Hdata. simpl in Hdata. rewrite Hdata, Hw1. apply data_of_temp.
Qed.

(** X1.  A successful [Always] leaves the destination path on a new file
    that holds exactly the bytes of the source file. *)
Theorem Always_copies_content (h : Host) (pf : Platform) (src dst : string) (w w' : World) :
  Always h (P := prims h pf) src dst w = (w', None) ->
  exists i,
    names w !! src = Some i /\
    names w' !! dst = Some (length (inodes w)) /\
    data_of w' (length (inodes w)) = data_of w i.
Proof.
  intros Hr. destruct (reflinkFile_content _ _ _ _ _ _ _ Hr) as (i & Hi & Hn & Hd).
  exists i. split; [exact Hi |]. split; [exact Hn |]. apply Hd. left. reflexivity.
Qed.

(** The clone of "abc" on a host that refuses nothing. *)
Lemma Always_copies_content_witness :
  exists w',
    Always quiet_host (P := linux quiet_host) "d/src" "d/dst" one_file = (w', None) /\
    names w' !! "d/dst"%string = Some 1%nat /\ data_of w' 1 = abc.
Proof.
  destruct (Always quiet_host (P := linux quiet_host) "d/src" "d/dst" one_file)
    as [w' [e |]] eqn:Hr; [exfalso; vm_compute in Hr; discriminate |].
  exists w'. split; [reflexivity |].
  destruct (Always_copies_content quiet_host LinuxOS "d/src" "d/dst" one_file w' Hr)
    as (i & Hi & Hn & Hd).
  split; [exact Hn |].
  assert (i = 0%nat) as -> by (vm_compute in Hi; congruence).
  exact Hd.
Defined.

(** X2.  A successful [Auto] leaves the destination path on a new file that
    holds exactly the bytes of the source file, provided one
    copy_file_range call can take the whole source (or the platform has no
    accelerated copy at all). *)
Theorem Auto_copies_content (h : Host) (pf : Platform) (src dst : string) (w w' : World)
    (i : nat) :
  names w !! src = Some i ->
  pf = OtherOS \/ Z.of_nat (length (data_of w i)) <= cfr_max h ->
  Auto h (P := prims h pf) src dst w = (w', None) ->
  names w' !! dst = Some (length (inodes w)) /\
  data_of w' (length (inodes w)) = data_of w i.
Proof.
  intros Hi Hcond Hr. destruct (reflinkFile_content _ _ _ _ _ _ _ Hr) as (j & Hj & Hn & Hd).
  rewrite Hi in Hj. injection Hj as <-.
  split; [exact Hn |]. apply Hd. right. exact Hcond.
Qed.

(** No reflinks, but a copy_file_range that takes the three bytes at
    once. *)
Lemma Auto_copies_content_witness :
  exists w',
    Auto no_reflink_host (P := linux no_reflink_host) "d/src" "d/dst" one_file = (w', None) /\
    names w' !! "d/dst"%string = Some 1%nat /\ data_of w' 1 = abc.
Proof.
  destruct (Auto no_reflink_host (P := linux no_reflink_host) "d/src" "d/dst" one_file)
    as [w' [e |]] eqn:Hr; [exfalso; vm_compute in Hr; discriminate |].
  exists w'. split; [reflexivity |].
  apply (Auto_copies_content no_reflink_host LinuxOS "d/src" "d/dst" one_file w' 0).
  - reflexivity.
  - right. vm_compute. discriminate.
  - exact Hr.
Defined.

(** ** Which errors the path-based operations return *)

Lemma os_Open_PathError (h : Host) (src : string) (w : World) (e : error) :
  os_Open h src w = inr e -> exists op p e0, e = PathError op p e0.
Proof.
  unfold os_Open. destruct (open_errno h src =? 0); [destruct (names w !! src) |];
    intros [= <-]; eauto.
Qed.

Lemma TempFile_PathError (h : Host) (dir : string) (w w1 : World) (e : error) :
  ioutil_TempFile h dir w = (w1, inr e) -> exists op p e0, e = PathError op p e0.
Proof.
  unfold ioutil_TempFile.
  destruct (temp_names h dir) as [| first rest];
    [| destruct (temp_errno h =? 0);
       [destruct (find _ _) | destruct (temp_errno h =? EEXIST)]];
    intros [= _ <-]; unfold ErrExist; eauto.
Qed.

Lemma io_Copy_File_PathError (h : Host) (dst src dst' src' : File) (w w' : World)
    (n : Z) (e : error) :
  io_Copy_File h dst src w = (w', (dst', src', (n, Some e))) ->
  exists op p e0, e = PathError op p e0.
Proof.
  unfold io_Copy_File. destruct (f_closed src); [intros [= _ _ _ _ <-]; eauto |].
  destruct (f_closed dst); [intros [= _ _ _ _ <-]; eauto |].
  destruct (pwrite h (f_ino dst) _ (f_pos dst) w) as [v [k [e0 |]]]; simpl;
    [intros [= _ _ _ _ <-]; eauto | discriminate].
Qed.

Lemma os_Rename_LinkError (h : Host) (old new : string) (w w' : World) (e : error) :
  os_Rename h old new w = (w', Some e) -> exists op a b e0, e = LinkError op a b e0.
Proof.
  unfold os_Rename. destruct (rename_errno h =? 0); [destruct (names w !! old) |];
    intros [= _ <-]; eauto.
Qed.

(** With [fallback] the copy stage of [reflinkFile] ends with the result of
    an earlier stage that succeeded or with the error of [io.Copy]: the
    errors of the clone and of the accelerated copy are dropped. *)
Lemma copy_to_temp_fallback_error (h : Host) {P : Primitives} (tmp s tmp' s' : File)
    (w w' : World) (e : error) :
  copy_to_temp h tmp s true w = (w', (tmp', s', Some e)) ->
  exists op p e0, e = PathError op p e0.
Proof.
  unfold copy_to_temp. destruct (reflinkInternal tmp s w) as [w1 [e1 |]].
  - cbn [notnil andb].
    destruct (File_Stat h s w1) as [st | e0].
    + destruct (copyFileRange tmp s 0 0 (Size st) w1) as [w2 [k [e2 |]]].
      * cbn [notnil andb].
        destruct (io_Copy_File h tmp s w2) as [w3 [[t3 s3] [k3 e3]]] eqn:E3.
        intros [= _ _ _ ->]. eapply io_Copy_File_PathError; eauto.
      * cbn [notnil andb]. discriminate.
    + cbn [notnil andb].
      destruct (io_Copy_File h tmp s w1) as [w3 [[t3 s3] [k3 e3]]] eqn:E3.
      intros [= _ _ _ ->]. eapply io_Copy_File_PathError; eauto.
  - cbn [notnil andb]. discriminate.
Qed.

(** X3.  [Auto] never returns [ErrReflinkUnsupported] and never returns
    [ErrReflinkFailed], whatever the clone primitives are: every error it
    returns is one of opening, creating, copying or renaming a file. *)
Theorem Auto_never_returns_sentinel (h : Host) {P : Primitives} (src dst : string)
    (w : World) :
  snd (Auto h src dst w) <> Some ErrReflinkUnsupported /\
  snd (Auto h src dst w) <> Some ErrReflinkFailed.
Proof.
  assert (Hshape : forall e, snd (Auto h src dst w) = Some e ->
            (exists op p e0, e = PathError op p e0) \/
            (exists op a b e0, e = LinkError op a b e0)).
  { intros e. unfold Auto.
    destruct (os_Open h src w) as [s | e1] eqn:Eo.
    2:{ rewrite reflinkFile_stages, Eo. simpl. intros [= <-]. left.
        eapply os_Open_PathError; eauto. }
    destruct (ioutil_TempFile h (filepath_Dir dst) w) as [w1 [tmp | e1]] eqn:Et.
    2:{ rewrite reflinkFile_stages, Eo, Et. simpl. intros [= <-]. left.
        eapply TempFile_PathError; eauto. }
    destruct (copy_to_temp h tmp s true w1) as [w2 [[tmp' s'] [e1 |]]] eqn:Hc.
    - rewrite (reflinkFile_copy_failed _ _ _ _ _ _ _ _ _ _ _ _ Eo Et Hc). simpl.
      intros [= <-]. left. eapply copy_to_temp_fallback_error; eauto.
    - rewrite (reflinkFile_copy_done _ _ _ _ _ _ _ _ _ _ _ Eo Et Hc).
      destruct (os_Rename h (f_name tmp') dst w2) as [w3 [e1 |]] eqn:Er; simpl;
        [| discriminate].
      intros [= <-]. right. eapply os_Rename_LinkError; eauto. }
  split; intros Hs; destruct (Hshape _ Hs) as [(? & ? & ? & H) | (? & ? & ? & ? & H)];
    discriminate.
Qed.

(** X4.  On Linux, once the source is open and the temporary file exists,
    an [Always] whose FICLONE is refused with errno [e] returns
    [ErrReflinkFailed] if [e] is [ENOTSUP] and the bare errno otherwise;
    the names are those from before the call. *)
Theorem Always_clone_refused (h : Host) (src dst : string) (w w1 : World) (s tmp : File) :
  os_Open h src w = inl s ->
  ioutil_TempFile h (filepath_Dir dst) w = (w1, inl tmp) ->
  ficlone_errno h <> 0 ->
  snd (Always h (P := linux h) src dst w)
  = Some (if ficlone_errno h =? ENOTSUP then ErrReflinkFailed
          else Errno (ficlone_errno h)) /\
  names (fst (Always h (P := linux h) src dst w)) = names w.
Proof.
  intros Ho Ht He.
  destruct (TempFile_inv _ _ _ _ _ Ht) as (nm & Hfresh & Htmp & Hw1).
  destruct (os_Open_inv _ _ _ _ Ho) as (i & Hi & Hs).
  assert (Hc : copy_to_temp h (P := linux h) tmp s false w1
               = (w1, (tmp, s, Some (if ficlone_errno h =? ENOTSUP then ErrReflinkFailed
                                     else Errno (ficlone_errno h))))).
  { unfold copy_to_temp. simpl reflinkInternal.
    rewrite reflinkInternal_refused by (subst; try reflexivity; exact He). reflexivity. }
  unfold Always. rewrite (reflinkFile_copy_failed _ _ _ _ _ _ _ _ _ _ _ _ Ho Ht Hc).
  split; [reflexivity |]. simpl.
  apply (os_Remove_temp (f_name tmp) (length (inodes w)) (names w) w1).
  - rewrite Htmp. exact Hfresh.
  - rewrite Htmp, Hw1. reflexivity.
Qed.

(** Source and destination on different filesystems: [Always] returns
    [EXDEV]. *)
Lemma Always_clone_refused_witness :
  snd (Always cross_fs_host (P := linux cross_fs_host) "d/src" "d/dst" one_file)
  = Some (Errno EXDEV).
Proof.
  apply (Always_clone_refused cross_fs_host "d/src" "d/dst" one_file
           {| inodes := inodes one_file ++ [{| i_data := []; i_mode := temp_mode |}];
              names := <["d/553203"%string := 1%nat]> (names one_file) |}
           src_file
           {| f_ino := 1; f_name := "d/553203"; f_pos := 0; f_closed := false |});
    [reflexivity | reflexivity | discriminate].
Defined.

(** ** Success without the fallback *)

(** X5.  The fallback is only looked at after a failure: when [Always]
    succeeds, [Auto] on the same input returns the same world, and so do
    [Reflink] and [Partial] with [fallback] set when they succeed without
    it. *)
Theorem fallback_unused_on_success (h : Host) {P : Primitives} (w w' : World) :
  (forall src dst,
      Always h src dst w = (w', None) -> Auto h src dst w = (w', None)) /\
  (forall dst src,
      Reflink h dst src false w = Some (w', None) ->
      Reflink h dst src true w = Some (w', None)) /\
  (forall dst src dstOffset srcOffset n,
      Partial h dst src dstOffset srcOffset n false w = Some (w', None) ->
      Partial h dst src dstOffset srcOffset n true w = Some (w', None)).
Proof.
  split; [| split].
  - intros src dst. unfold Always, Auto. rewrite !reflinkFile_stages.
    destruct (os_Open h src w) as [s | e]; [| discriminate].
    destruct (ioutil_TempFile h (filepath_Dir dst) w) as [w1 [tmp | e]]; [| discriminate].
    unfold copy_to_temp. destruct (reflinkInternal tmp s w1) as [w2 [e1 |]].
    + cbn [notnil andb]. cbv beta iota zeta.
      destruct (os_Remove (f_name (File_Close tmp)) w2). discriminate.
    + cbn [notnil andb]. trivial.
  - intros dst src. unfold Reflink.
    destruct (reflinkInternal dst src w) as [w1 [e1 |]]; cbn [notnil andb];
      [discriminate | trivial].
  - intros dst src dstOffset srcOffset n. unfold Partial.
    destruct (reflinkRangeInternal dst src dstOffset srcOffset n w) as [w1 [e1 |]];
      cbn [notnil andb]; [discriminate | trivial].
Qed.

(** On a host that refuses nothing the clone succeeds, with and without
    the fallback. *)
Lemma fallback_unused_on_success_witness :
  exists w',
    Always quiet_host (P := linux quiet_host) "d/src" "d/dst" one_file = (w', None) /\
    Auto quiet_host (P := linux quiet_host) "d/src" "d/dst" one_file = (w', None).
Proof.
  destruct (Always quiet_host (P := linux quiet_host) "d/src" "d/dst" one_file)
    as [w' [e |]] eqn:Hr; [exfalso; vm_compute in Hr; discriminate |].
  exists w'. split; [reflexivity |].
  apply (fallback_unused_on_success quiet_host (P := linux quiet_host) one_file w').
  exact Hr.
Defined.

(** ** What [Reflink] changes *)

Lemma copyStep_only_data {R : Type} `{Reader R} (h : Host) (size : Z)
    (sw : sectionWriter File) (src : R) (wd : World) (written : Z) :
  match copyStep (H := sectionWriter_Writer (H := File_WriteAt h)) size sw src wd written with
  | inl (sw', _, wd', _) => sw_w sw' = sw_w sw /\ only_data (f_ino (sw_w sw)) wd wd'
  | inr (sw', _, wd', _) => sw_w sw' = sw_w sw /\ only_data (f_ino (sw_w sw)) wd wd'
  end.
Proof.
  unfold copyStep. destruct (Read src size wd) as [src' [buf er]].
  destruct (0 <? Z.of_nat (length buf)).
  - destruct (Write sw buf wd) as [[sw' wd'] [nw ew]] eqn:Ew.
    unfold Write, sectionWriter_Writer in Ew. apply sectionWriter_Write_File in Ew.
    destruct Ew as (Hw & _ & _ & _ & Hod & _).
    destruct ((nw <? 0) || (Z.of_nat (length buf) <? nw)).
    + destruct ew; split; assumption.
    + destruct ew; [split; assumption |].
      destruct (negb (Z.of_nat (length buf) =? nw)); [split; assumption |].
      destruct (read_done er); split; assumption.
  - destruct (read_done er); (split; [reflexivity | apply only_data_refl]).
Qed.

(** The copy loop through a section writer changes bytes of the file of
    the writer and nothing else. *)
Lemma copyLoop_only_data {R : Type} `{Reader R} (h : Host) (size : Z) (fuel : nat)
    (sw : sectionWriter File) (src : R) (wd : World) (written : Z)
    (res : sectionWriter File * R * World * (Z * option error)) :
  copyLoop (H := sectionWriter_Writer (H := File_WriteAt h)) fuel size sw src wd written
  = Some res ->
  only_data (f_ino (sw_w sw)) wd (snd (fst res)).
Proof.
  revert sw src wd written. induction fuel as [| fuel IH]; intros sw src wd written;
    [discriminate |].
  simpl. pose proof (copyStep_only_data h size sw src wd written) as Hstep.
  destruct (copyStep size sw src wd written) as [[[[sw' src'] wd'] written'] | r].
  - destruct Hstep as [Hw Hod]. intros Hloop. apply IH in Hloop. rewrite Hw in Hloop.
    eapply only_data_trans; eauto.
  - destruct r as [[[sw' src'] wd'] r]. destruct Hstep as [_ Hod].
    intros [= <-]. exact Hod.
Qed.

Lemma File_Truncate_only_data (f : File) (size : Z) (w : World) :
  only_data (f_ino f) w (fst (File_Truncate f size w)).
Proof.
  unfold File_Truncate. destruct (f_closed f); [apply only_data_refl |].
  destruct (size <? 0); [apply only_data_refl |].
  destruct (inodes w !! f_ino f); [apply set_data_only_data | apply only_data_refl].
Qed.

(** X6.  [Reflink] returns, and whatever it returns, with or without
    [fallback], it has changed nothing but bytes of the destination file:
    the names, the mode of the destination and every other file, the
    source included when it is another file, are as before. *)
Theorem Reflink_frame (h : Host) (pf : Platform) (dst src : File) (fallback : bool)
    (w : World) :
  exists w' r,
    Reflink h (P := prims h pf) dst src fallback w = Some (w', r) /\
    only_data (f_ino dst) w w'.
Proof.
  destruct (Reflink_returns h (P := prims h pf) dst src fallback w) as [[w' r] Hr].
  exists w', r. split; [exact Hr |].
  unfold Reflink in Hr.
  destruct (reflinkInternal dst src w) as [w1 e1] eqn:E1.
  apply reflinkInternal_only_data in E1.
  destruct (notnil e1 && fallback); [| injection Hr as <- _; exact E1].
  destruct (File_Stat h src w1) as [st | e]; [| injection Hr as <- _; exact E1].
  destruct (copyFileRange dst src 0 0 (Size st) w1) as [w2 [k e2]] eqn:E2.
  apply copyFileRange_only_data in E2.
  pose proof (only_data_trans _ _ _ _ E1 E2) as H12.
  destruct (notnil e2); [| injection Hr as <- _; exact H12].
  pose proof (File_Truncate_only_data dst 0 w2) as Ht.
  destruct (File_Truncate dst 0 w2) as [w3 e3]. simpl in Ht.
  unfold io_Copy, File_WriterAt in Hr.
  destruct (copyLoop _ _ _ _ w3 0) as [[[[sw' sr'] w4] [k4 e4]] |] eqn:Hloop;
    [| discriminate].
  apply copyLoop_only_data in Hloop. simpl in Hloop.
  injection Hr as <- _. eauto using only_data_trans.
Qed.

(** ** [Reflink] when the source cannot be measured *)

(** X7.  When the clone fails and, with [fallback], the size of the source
    cannot be read, [Reflink] returns that error wrapped as "failed to stat
    source" and has changed nothing: the destination is not truncated. *)
Theorem Reflink_stat_failure (h : Host) (pf : Platform) (dst src : File) (w w1 : World)
    (e1 e : error) :
  reflinkInternal (Primitives := prims h pf) dst src w = (w1, Some e1) ->
  File_Stat h src w = inr e ->
  Reflink h (P := prims h pf) dst src true w
  = Some (w, Some (WrapError "failed to stat source" e)).
Proof.
  intros E1 Est. pose proof (reflinkInternal_fail_same _ _ _ _ _ _ _ E1) as ->.
  unfold Reflink. rewrite E1. cbn [notnil andb]. rewrite Est. reflexivity.
Qed.

(** A closed source: the clone cannot run and neither can [Stat]. *)
Lemma Reflink_stat_failure_witness :
  Reflink quiet_host (P := linux quiet_host) dst_file closed_src_file true two_files
  = Some (two_files,
          Some (WrapError "failed to stat source" (PathError "stat" "d/src" ErrClosed))).
Proof.
  apply (Reflink_stat_failure quiet_host LinuxOS dst_file closed_src_file
           two_files two_files ErrFileClosing); reflexivity.
Defined.

(** ** Failure without the fallback *)

(** X8.  Without [fallback], a [Reflink] or a [Partial] that returns an
    error has changed nothing at all. *)
Theorem failure_without_fallback (h : Host) (pf : Platform) (dst src : File)
    (w w' : World) (e : error) :
  (Reflink h (P := prims h pf) dst src false w = Some (w', Some e) -> w' = w) /\
  (forall dstOffset srcOffset n,
      Partial h (P := prims h pf) dst src dstOffset srcOffset n false w
      = Some (w', Some e) -> w' = w).
Proof.
  split.
  - unfold Reflink. destruct (reflinkInternal dst src w) as [w1 e1] eqn:E1.
    rewrite andb_false_r. intros [= <- ->].
    eapply reflinkInternal_fail_same; eauto.
  - intros dstOffset srcOffset n. unfold Partial.
    destruct (reflinkRangeInternal dst src dstOffset srcOffset n w) as [w1 e1] eqn:E1.
    rewrite !andb_false_r. intros [= <- ->].
    eapply reflinkRangeInternal_fail_same; eauto.
Qed.

(** A filesystem without reflinks. *)
Lemma failure_without_fallback_witness :
  Reflink no_reflink_host (P := linux no_reflink_host) dst_file src_file false two_files
  = Some (two_files, Some ErrReflinkFailed).
Proof.
  destruct (Reflink no_reflink_host (P := linux no_reflink_host) dst_file src_file false
              two_files) as [[w' [e |]] |] eqn:Hr;
    [| exfalso; vm_compute in Hr; discriminate ..].
  pose proof (proj1 (failure_without_fallback no_reflink_host LinuxOS dst_file src_file
                       two_files w' e) Hr) as ->.
  vm_compute in Hr. injection Hr as <-. reflexivity.
Defined.

(** ** A streamed [Reflink] that succeeds *)

(** [read_done] ends the loop without an error only for [io.EOF]. *)
Lemma read_done_none (er : option error) :
  read_done er = Some None -> er = Some EOF.
Proof.
  unfold read_done. destruct er as [e |]; [| discriminate].
  destruct (decide (e = EOF)) as [-> | Hne]; [reflexivity | discriminate].
Qed.

(** A turn of the copy loop ends the loop without an error only when the
    read came back with [io.EOF]; what was read with it has been written. *)
Lemma copyStep_done_eof {W R : Type} `{Writer W} `{Reader R} (size : Z) (dst dst' : W)
    (src src' : R) (wd wd' : World) (written written' : Z) :
  copyStep size dst src wd written = inr (dst', src', wd', (written', None)) ->
  exists buf, Read src size wd = (src', (buf, Some EOF)) /\
              written' = written + Z.of_nat (length buf).
Proof.
  unfold copyStep. destruct (Read src size wd) as [r [buf er]].
  destruct (0 <? Z.of_nat (length buf)) eqn:Enr.
  - destruct (Write dst buf wd) as [[dw ww] [nw ew]].
    destruct ((nw <? 0) || (Z.of_nat (length buf) <? nw)); [discriminate |].
    destruct ew; [discriminate |].
    destruct (negb (Z.of_nat (length buf) =? nw)) eqn:Eeq; [discriminate |].
    apply negb_false_iff, Z.eqb_eq in Eeq.
    destruct (read_done er) as [o |] eqn:Ed; [| discriminate].
    intros Heq. injection Heq as _ <- _ <- ->. exists buf.
    rewrite (read_done_none _ Ed). split; [reflexivity | lia].
  - apply Z.ltb_ge in Enr.
    destruct (read_done er) as [o |] eqn:Ed; [| discriminate].
    intros Heq. injection Heq as _ <- _ <- ->. exists buf.
    rewrite (read_done_none _ Ed). split; [reflexivity | lia].
Qed.

(** While the source keeps its bytes, its section reader reports [io.EOF]
    only at the end of the source, and delivers nothing with it. *)
Lemma reflink_read_eof (d s : File) (srcdata : list byte) (sw : sectionWriter File)
    (sr sr' : SectionReader) (wd : World) (written size : Z) (buf : list byte) :
  1 <= size ->
  reflink_inv d s srcdata sw sr wd written ->
  SectionReader_Read sr size wd = (sr', (buf, Some EOF)) ->
  buf = [] /\ written = Z.of_nat (length srcdata).
Proof.
  intros Hsize (_ & _ & _ & Hr & Hroff & Hlim & Hwr & Hsrc & _ & _).
  unfold SectionReader_Read. rewrite Hlim, Hroff, Hr.
  destruct (Z.of_nat (length srcdata) <=? written) eqn:Eend.
  { apply Z.leb_le in Eend. intros [= _ <-]. split; [reflexivity | lia]. }
  apply Z.leb_gt in Eend.
  set (len := if Z.of_nat (length srcdata) - written <? size then _ else _).
  assert (Hlen : 1 <= len <= Z.of_nat (length srcdata) - written).
  { subst len. destruct (_ <? size) eqn:E; lia. }
  unfold File_ReadAt. destruct (f_closed s); [discriminate |].
  destruct (written <? 0) eqn:Eneg; [lia |]. rewrite Hsrc.
  assert (Hbuf : Z.of_nat (length (slice srcdata (Z.to_nat written) (Z.to_nat len))) = len).
  { unfold slice. rewrite length_take, length_drop. lia. }
  rewrite Hbuf, Z.ltb_irrefl. discriminate.
Qed.

(** The streamed copy of [Reflink] that ends without an error has stored
    the source, and nothing else, in the truncated destination. *)
Lemma Reflink_stream_content (h : Host) (pf : Platform) (dst src : File)
    (w w1 w2 w' : World) (e1 e2 : error) (st : FileInfo) (k : Z) :
  f_closed dst = false ->
  is_Some (inodes w !! f_ino dst) ->
  f_ino dst <> f_ino src ->
  Z.of_nat (length (data_of w (f_ino src))) < 2 ^ 63 ->
  reflinkInternal (Primitives := prims h pf) dst src w = (w1, Some e1) ->
  File_Stat h src w1 = inl st ->
  copyFileRange (Primitives := prims h pf) dst src 0 0 (Size st) w1 = (w2, (k, Some e2)) ->
  Reflink h (P := prims h pf) dst src true w = Some (w', None) ->
  data_of w' (f_ino dst) = data_of w (f_ino src).
Proof.
  intros Hopen Hex Hne Hsize E1 Est E2 Hr.
  pose proof (reflinkInternal_only_data _ _ _ _ _ _ _ E1) as Ho1.
  pose proof (copyFileRange_only_data _ _ _ _ _ _ _ _ _ _ E2) as Ho2.
  pose proof (only_data_trans _ _ _ _ Ho1 Ho2) as Ho12.
  assert (Hex2 : is_Some (inodes w2 !! f_ino dst))
    by (apply (only_data_is_Some _ _ _ _ Ho12); exact Hex).
  destruct (File_Truncate_zero dst w2 Hopen Hex2) as [Ho3 Hempty].
  set (w3 := fst (File_Truncate dst 0 w2)) in *.
  pose proof (only_data_trans _ _ _ _ Ho12 Ho3) as Ho.
  assert (Hsrc3 : data_of w3 (f_ino src) = data_of w (f_ino src))
    by (apply (only_data_other _ _ _ _ Ho); congruence).
  destruct (File_Stat_inv _ _ _ _ Est) as (_ & x & Hx & Hsz & _).
  assert (Hst : Size st = Z.of_nat (length (data_of w (f_ino src)))).
  { rewrite Hsz, <- (data_of_Some _ _ _ Hx).
    rewrite (only_data_other _ _ _ _ Ho1) by congruence. reflexivity. }
  set (srcdata := data_of w (f_ino src)) in *.
  set (sw0 := {| sw_w := dst; sw_base := 0; sw_off := 0 |}).
  set (sr0 := NewSectionReader src 0 (Size st)).
  destruct (copyLoop_rule (H := sectionWriter_Writer (H := File_WriteAt h))
              (bufSize sr0) (reflink_inv dst src srcdata)
              (fun res => reflink_post dst srcdata res /\
                          (snd (snd res) = None ->
                           fst (snd res) = Z.of_nat (length srcdata)))
              (fun r => Z.to_nat (sr_limit r - sr_off r)))
    with (fuel := S (Z.to_nat (remaining sr0))) (dst := sw0) (src := sr0) (wd := w3)
         (written := 0)
    as ([[[sw' sr'] w4] [written err]] & Hloop & [_ Hdata] & Hend).
  - intros a b c n Hinv.
    pose proof (reflink_step h dst src srcdata Hopen Hne Hsize (bufSize sr0) a b c n
                  (bufSize_pos sr0) Hinv) as Hstep.
    destruct (copyStep (bufSize sr0) a b c n) as [[[[a' b'] c'] n'] | [[[a' b'] c'] [n' e']]]
      eqn:Estep; [exact Hstep |].
    split; [exact Hstep |]. simpl. intros ->.
    apply copyStep_done_eof in Estep. destruct Estep as (buf & Hread & ->).
    simpl in Hread.
    destruct (reflink_read_eof _ _ _ _ _ _ _ _ _ _ (bufSize_pos sr0) Hinv Hread) as [-> ->].
    simpl. lia.
  - unfold reflink_inv, sr0. rewrite NewSectionReader_nonneg by lia. simpl.
    assert (Hfit : (0 <=? maxint64 - Size st) = true)
      by (apply Z.leb_le; unfold maxint64; lia).
    rewrite Hfit, Z.add_0_r.
    do 5 (split; [reflexivity |]). split; [exact Hst |]. split; [lia |].
    split; [exact Hsrc3 |]. split; [| exact Hempty].
    apply (only_data_is_Some _ _ _ _ Ho3). exact Hex2.
  - simpl. lia.
  - unfold Reflink in Hr. rewrite E1 in Hr. cbn [notnil andb] in Hr.
    rewrite Est, E2 in Hr. cbn [notnil] in Hr.
    subst w3 sw0 sr0. destruct (File_Truncate dst 0 w2) as [w3 e3].
    cbn [fst] in *. unfold io_Copy, File_WriterAt in Hr. rewrite Hloop in Hr.
    injection Hr as <- ->. simpl in Hdata, Hend.
    rewrite Hdata, (Hend eq_refl), Nat2Z.id. apply firstn_all.
Qed.

(** X9.  [Reflink] with [fallback] on an open destination, when clone and
    accelerated copy have both failed and [Reflink] nevertheless returns
    success: the destination file holds exactly the bytes of the source, no
    more and no less, whatever it held before. *)
Theorem Reflink_streamed_copy (h : Host) (pf : Platform) (dst src : File)
    (w w1 w2 w' : World) (e1 e2 : error) (st : FileInfo) (k : Z) :
  f_closed dst = false ->
  is_Some (inodes w !! f_ino dst) ->
  f_ino dst <> f_ino src ->
  Z.of_nat (length (data_of w (f_ino src))) < 2 ^ 63 ->
  reflinkInternal (Primitives := prims h pf) dst src w = (w1, Some e1) ->
  File_Stat h src w1 = inl st ->
  copyFileRange (Primitives := prims h pf) dst src 0 0 (Size st) w1 = (w2, (k, Some e2)) ->
  Reflink h (P := prims h pf) dst src true w = Some (w', None) ->
  data_of w' (f_ino dst) = data_of w (f_ino src).
Proof.
  intros Hopen Hex Hne Hsize E1 Est E2 Hr.
  exact (Reflink_stream_content h pf dst src w w1 w2 w' e1 e2 st k
           Hopen Hex Hne Hsize E1 Est E2 Hr).
Qed.

(** On a platform without the primitives, [Reflink] of "abc" onto
    "xxxxx" leaves "abc". *)
Lemma Reflink_streamed_copy_witness :
  exists w',
    Reflink quiet_host (P := other) dst_file src_file true two_files = Some (w', None) /\
    data_of two_files 1 = xxxxx /\ data_of w' 1 = abc.
Proof.
  destruct (Reflink quiet_host (P := other) dst_file src_file true two_files)
    as [[w' [e |]] |] eqn:Hr; [exfalso; vm_compute in Hr; discriminate | | discriminate].
  exists w'. split; [reflexivity |]. split; [reflexivity |].
  apply (Reflink_streamed_copy quiet_host OtherOS dst_file src_file
           two_files two_files two_files w'
           ErrReflinkUnsupported ErrReflinkUnsupported {| Size := 3; Mode := 420 |} 0);
    try reflexivity; try exact Hr.
  - eexists. reflexivity.
  - discriminate.
Defined.

(** ** A negative length *)

(** X10.  [Partial] with a negative length and [fallback], when the ranged
    clone and the accelerated copy have both failed (as they always do on
    a platform without the primitives): [Partial] returns success and has
    changed nothing, because [io.CopyN] of a negative count copies nothing
    and reports no error. *)
Theorem Partial_negative_length (h : Host) (pf : Platform) (dst src : File)
    (dstOffset srcOffset n : Z) (w w1 w2 : World) (e1 e2 : error) (k : Z) :
  n < 0 ->
  reflinkRangeInternal (Primitives := prims h pf) dst src dstOffset srcOffset n w
  = (w1, Some e1) ->
  copyFileRange (Primitives := prims h pf) dst src dstOffset srcOffset n w1
  = (w2, (k, Some e2)) ->
  Partial h (P := prims h pf) dst src dstOffset srcOffset n true w = Some (w, None).
Proof.
  intros Hneg E1 E2. unfold Partial. rewrite E1. cbn [notnil andb]. rewrite E2.
  apply reflinkRangeInternal_fail_same in E1. subst w1.
  apply copyFileRange_fail_same in E2. subst w2. cbn [notnil andb].
  unfold io_CopyN, io_Copy. cbn [copyLoop]. unfold copyStep.
  change (Read (LimitReader (NewSectionReader src srcOffset n) n)
            (bufSize (LimitReader (NewSectionReader src srcOffset n) n)) w)
    with (LimitedReader_Read (LimitReader (NewSectionReader src srcOffset n) n)
            (bufSize (LimitReader (NewSectionReader src srcOffset n) n)) w).
  unfold LimitedReader_Read. cbn [LimitReader lr_N].
  assert (Hle : (n <=? 0) = true) by (apply Z.leb_le; lia).
  rewrite Hle. simpl.
  destruct n; [lia | lia | reflexivity].
Qed.

(** A length of -1 on a platform without the primitives. *)
Lemma Partial_negative_length_witness :
  Partial quiet_host (P := other) dst_file src_file 1 0 (-1) true two_files
  = Some (two_files, None).
Proof.
  apply (Partial_negative_length quiet_host OtherOS dst_file src_file 1 0 (-1)
           two_files two_files two_files ErrReflinkUnsupported ErrReflinkUnsupported 0).
  - lia.
  - reflexivity.
  - reflexivity.
Defined.

(** ** A closed destination *)





(** ** A range that [Partial] reports as copied *)

(** Bytes stored right after a range that already matches the source extend
    the match. *)
Lemma slice_splice_extend (ddata srcdata : list byte) (dO sO k m : nat) :
  slice ddata dO k = slice srcdata sO k ->
  (sO + k + m <= length srcdata)%nat ->
  slice (splice ddata (dO + k) (slice srcdata (sO + k) m)) dO (k + m)
  = slice srcdata sO (k + m).
Proof.
  intros Heq Hlen. unfold slice in *.
  set (p := take m (drop (sO + k) srcdata)).
  assert (Hp : length p = m) by (subst p; rewrite length_take, length_drop; lia).
  assert (Hk : length (take k (drop sO srcdata)) = k)
    by (rewrite length_take, length_drop; lia).
  unfold splice. rewrite Hp.
  set (pre := take (dO + k) ddata ++ replicate (dO + k - length ddata) Byte.x00).
  assert (Hpre : length pre = (dO + k)%nat).
  { subst pre. rewrite length_app, length_take, length_replicate. lia. }
  assert (Hdrop : drop dO pre = take k (drop sO srcdata)).
  { destruct (decide (dO + k <= length ddata)%nat) as [Hle | Hgt].
    - subst pre. replace (dO + k - length ddata)%nat with 0%nat by lia.
      simpl. rewrite app_nil_r. rewrite <- take_drop_commute. exact Heq.
    - assert (Hk0 : k = 0%nat).
      { rewrite <- Heq in Hk. rewrite length_take, length_drop in Hk. lia. }
      subst k. simpl. apply length_zero_iff_nil. rewrite length_drop. lia. }
  rewrite (app_assoc (take (dO + k) ddata)). fold pre.
  rewrite drop_app_le by lia. rewrite Hdrop.
  rewrite (take_app_add' _ _ k m (eq_sym Hk)).
  rewrite take_app_length' by (symmetry; exact Hp).
  subst p. rewrite <- drop_drop. apply take_take_drop.
Qed.

(** Bytes of the source stored at an offset are read back there. *)
Lemma slice_splice_same (ddata srcdata : list byte) (dO sO m : nat) :
  (sO + m <= length srcdata)%nat ->
  slice (splice ddata dO (slice srcdata sO m)) dO m = slice srcdata sO m.
Proof.
  intros Hlen.
  pose proof (slice_splice_extend ddata srcdata dO sO 0 m) as H.
  rewrite !Nat.add_0_r in H. simpl in H. apply H; [| lia].
  unfold slice. reflexivity.
Qed.

(** A write that reports an error stored fewer bytes than it was given. *)
Lemma pwrite_short (h : Host) (i : nat) (p : list byte) (off : Z) (w w' : World)
    (n : Z) (e : error) (x : Inode) :
  inodes w !! i = Some x ->
  pwrite h i p off w = (w', (n, Some e)) -> n < Z.of_nat (length p).
Proof.
  intros Hx. unfold pwrite. rewrite Hx. intros [= _ <- He].
  destruct (_ <? _) eqn:E; [| discriminate]. apply Z.ltb_lt in E. exact E.
Qed.

Section PartialCopy.
Variable h : Host.
Variable d s : File.
Variable dstOffset srcOffset n : Z.
Variable srcdata : list byte.
Hypothesis distinct : f_ino d <> f_ino s.
Hypothesis n_pos : 0 < n.
Hypothesis dstOffset_pos : 0 <= dstOffset.
Hypothesis srcOffset_pos : 0 <= srcOffset.
Hypothesis dst_end : dstOffset + n < 2 ^ 63.
Hypothesis src_end : srcOffset + n < 2 ^ 63.

#[local] Ltac stops_short :=
  unfold partial_copy_post; simpl; split; [lia | intros ?; exfalso; lia].

Lemma partial_copy_step (size : Z) (sw : sectionWriter File)
    (lr : LimitedReader SectionReader) (wd : World) (written : Z) :
  1 <= size ->
  partial_copy_inv d s dstOffset srcOffset n srcdata sw lr wd written ->
  match copyStep (H := sectionWriter_Writer (H := File_WriteAt h)) size sw lr wd written with
  | inl (sw', lr', wd', written') =>
      partial_copy_inv d s dstOffset srcOffset n srcdata sw' lr' wd' written' /\
      (Z.to_nat (lr_N lr') < Z.to_nat (lr_N lr))%nat
  | inr res => partial_copy_post d dstOffset srcOffset n srcdata res
  end.
Proof.
  intros Hsize (Hw & Hb & Hoff & Hr & Hroff & Hlim & HN & Hwr & Hsrc & Hin & Hsl).
  unfold copyStep.
  change (Read lr size wd) with (LimitedReader_Read lr size wd).
  unfold LimitedReader_Read. rewrite HN.
  destruct (n - written <=? 0) eqn:Eend.
  { apply Z.leb_le in Eend. simpl. unfold partial_copy_post. simpl. split; [lia |]. intros Hn.
    rewrite <- Hn. split; [apply Hin; lia | exact Hsl]. }
  apply Z.leb_gt in Eend.
  set (len1 := if n - written <? size then n - written else size).
  assert (Hlen1 : 1 <= len1 <= n - written).
  { subst len1. destruct (_ <? size) eqn:E; [| apply Z.ltb_ge in E]; lia. }
  change (Read (lr_R lr) len1 wd) with (SectionReader_Read (lr_R lr) len1 wd).
  unfold SectionReader_Read. rewrite Hlim, Hroff, Hr.
  destruct (srcOffset + n <=? srcOffset + written) eqn:E0; [apply Z.leb_le in E0; lia |].
  clear E0.
  set (len := if srcOffset + n - (srcOffset + written) <? len1 then _ else _).
  assert (Hlen : 1 <= len <= n - written).
  { subst len. destruct (_ <? len1) eqn:E; [| apply Z.ltb_ge in E]; lia. }
  unfold File_ReadAt. destruct (f_closed s).
  { simpl. destruct (decide (pathErr "read" s ErrClosed = EOF)); stops_short. }
  destruct (srcOffset + written <? 0) eqn:Eneg; [apply Z.ltb_lt in Eneg; lia |].
  rewrite Hsrc.
  set (buf := slice srcdata (Z.to_nat (srcOffset + written)) (Z.to_nat len)).
  assert (Hbuf : Z.of_nat (length buf)
                 = Z.max 0 (Z.min len (Z.of_nat (length srcdata) - (srcOffset + written)))).
  { subst buf. unfold slice. rewrite length_take, length_drop. lia. }
  cbv beta iota zeta.
  destruct (0 <? Z.of_nat (length buf)) eqn:Epos.
  2: { apply Z.ltb_ge in Epos.
       assert (Hshort : (Z.of_nat (length buf) <? len) = true) by (apply Z.ltb_lt; lia).
       rewrite Hshort. simpl. stops_short. }
  apply Z.ltb_lt in Epos.
  unfold Write, sectionWriter_Writer, sectionWriter_Write, WriteAt.
  rewrite Hw, Hb, Hoff. rewrite add64_exact by (unfold int64_range; lia).
  unfold File_WriteAt. destruct (f_closed d).
  { cbv beta iota zeta.
    assert (Hrange : (0 <? 0) || (Z.of_nat (length buf) <? 0) = false)
      by (apply orb_false_iff; split; apply Z.ltb_ge; lia).
    rewrite Hrange. stops_short. }
  destruct (dstOffset + written <? 0) eqn:Eneg2; [apply Z.ltb_lt in Eneg2; lia |].
  destruct (pwrite h (f_ino d) buf (dstOffset + written) wd) as [wd' [nw e]] eqn:Ep.
  pose proof (pwrite_count _ _ _ _ _ _ _ _ Ep) as Hcount.
  pose proof (pwrite_only_data _ _ _ _ _ _ _ Ep) as Hod.
  assert (Hrange : (nw <? 0) || (Z.of_nat (length buf) <? nw) = false)
    by (apply orb_false_iff; split; apply Z.ltb_ge; lia).
  rewrite Hrange.
  destruct (inodes wd !! f_ino d) as [x |] eqn:Hx.
  2: { unfold pwrite in Ep. rewrite Hx in Ep. injection Ep as <- <- <-.
       simpl. stops_short. }
  destruct (pwrite_data _ _ _ _ _ _ _ _ _ Hx Ep) as [Hfull Hdata].
  destruct e as [e |]; simpl wrapErr; cbv iota.
  { pose proof (pwrite_short _ _ _ _ _ _ _ _ _ Hx Ep) as Hsh.
    stops_short. }
  specialize (Hfull eq_refl). subst nw. rewrite Z.eqb_refl. cbn [negb].
  destruct (Z.of_nat (length buf) <? len) eqn:Eshort.
  { apply Z.ltb_lt in Eshort. simpl. stops_short. }
  apply Z.ltb_ge in Eshort. cbn [read_done].
  assert (Hnr : Z.of_nat (length buf) = len) by lia.
  split; [| simpl; lia].
  unfold partial_copy_inv, set_off. simpl.
  rewrite add64_exact by (unfold int64_range; lia).
  split; [exact Hw |]. split; [exact Hb |]. split; [reflexivity |].
  split; [reflexivity |]. split; [lia |]. split; [reflexivity |]. split; [lia |].
  split; [lia |].
  split; [rewrite (only_data_other _ _ _ _ Hod) by congruence; exact Hsrc |].
  split; [intros _; lia |].
  rewrite Hdata.
  assert (Hnz : (Z.of_nat (length buf) =? 0) = false) by (apply Z.eqb_neq; lia).
  rewrite Hnz, Nat2Z.id, firstn_all.
  rewrite <- (data_of_Some _ _ _ Hx).
  replace (Z.to_nat (dstOffset + written))
    with (Z.to_nat dstOffset + Z.to_nat written)%nat by lia.
  replace (Z.to_nat (written + Z.of_nat (length buf)))
    with (Z.to_nat written + Z.to_nat len)%nat by lia.
  subst buf.
  replace (Z.to_nat (srcOffset + written))
    with (Z.to_nat srcOffset + Z.to_nat written)%nat by lia.
  apply slice_splice_extend; [exact Hsl | lia].
Qed.
End PartialCopy.

(** A range clone that reports no error ran on the Linux build, found the
    whole range in the source and stored it. *)
Lemma reflinkRangeInternal_ok (h : Host) (pf : Platform) (dst src : File)
    (dstOffset srcOffset n : Z) (w w' : World) :
  0 <= dstOffset < 2 ^ 63 -> 0 <= srcOffset < 2 ^ 63 -> 0 < n < 2 ^ 63 ->
  reflinkRangeInternal (Primitives := prims h pf) dst src dstOffset srcOffset n w
  = (w', None) ->
  exists si di,
    inodes w !! f_ino src = Some si /\ inodes w !! f_ino dst = Some di /\
    srcOffset + n <= Z.of_nat (length (i_data si)) /\
    w' = set_data w (f_ino dst)
           (splice (i_data di) (Z.to_nat dstOffset)
              (slice (i_data si) (Z.to_nat srcOffset) (Z.to_nat n))).
Proof.
  intros Hd Hs Hn. destruct pf; simpl; [| discriminate].
  unfold Linux.reflinkRangeInternal, SyscallConn, Control.
  destruct (f_closed dst); [discriminate |].
  destruct (f_closed src); [discriminate |].
  unfold unix_IoctlFileCloneRange.
  cbn [Src_fd Src_offset Src_length Dest_offset].
  assert (Hu : forall z, 0 <= z < 2 ^ 63 -> uint64 z = z)
    by (intros z Hz; unfold uint64; apply Z.mod_small; lia).
  rewrite (Hu dstOffset Hd), (Hu srcOffset Hs), (Hu n) by lia.
  destruct (ficlonerange_errno h =? 0);
    [| cbv beta iota zeta;
       destruct (errors_Is (Errno (ficlonerange_errno h)) (Errno ENOTSUP)); discriminate].
  destruct (inodes w !! f_ino src) as [si |];
    [| cbv beta iota zeta;
       destruct (errors_Is (Errno EBADF) (Errno ENOTSUP)); discriminate].
  destruct (inodes w !! f_ino dst) as [di |];
    [| cbv beta iota zeta;
       destruct (errors_Is (Errno EBADF) (Errno ENOTSUP)); discriminate].
  assert (Hnz : (n =? 0) = false) by (apply Z.eqb_neq; lia).
  rewrite Hnz. cbv beta iota zeta. rewrite Hnz.
  destruct (_ || _);
    [cbv beta iota zeta;
     destruct (errors_Is (Errno EINVAL) (Errno ENOTSUP)); discriminate |].
  match goal with |- context [if ?c then (set_data _ _ _, None) else _] =>
    destruct c eqn:Hchk end;
    [| cbv beta iota zeta;
       destruct (errors_Is (Errno EINVAL) (Errno ENOTSUP)); discriminate].
  apply andb_true_iff in Hchk. destruct Hchk as [Hchk _].
  apply andb_true_iff in Hchk. destruct Hchk as [Hchk _].
  apply andb_true_iff in Hchk. destruct Hchk as [Hchk _].
  apply andb_true_iff in Hchk. destruct Hchk as [Hchk _].
  apply andb_true_iff in Hchk. destruct Hchk as [Hchk _].
  apply andb_true_iff in Hchk. destruct Hchk as [_ Hfit].
  apply Z.leb_le in Hfit.
  intros [= <-]. exists si, di. auto.
Qed.

(** X12.  [Partial] with offsets that are not negative, a positive length,
    ends that fit a signed 64-bit offset and two different files, on a
    platform without the primitives or where one accelerated copy can move
    [n] bytes of a source that has the range: when [Partial] returns
    success, the source had all [n] bytes from [srcOffset] and the [n]
    bytes of the destination from [dstOffset] are exactly those. *)
Theorem Partial_copies_range (h : Host) (pf : Platform) (dst src : File)
    (dstOffset srcOffset n : Z) (fallback : bool) (w w' : World) :
  0 <= dstOffset -> 0 <= srcOffset -> 0 < n ->
  dstOffset + n < 2 ^ 63 -> srcOffset + n < 2 ^ 63 ->
  f_ino dst <> f_ino src ->
  pf = OtherOS \/
    (n <= cfr_max h /\ srcOffset + n <= Z.of_nat (length (data_of w (f_ino src)))) ->
  Partial h (P := prims h pf) dst src dstOffset srcOffset n fallback w = Some (w', None) ->
  srcOffset + n <= Z.of_nat (length (data_of w (f_ino src))) /\
  slice (data_of w' (f_ino dst)) (Z.to_nat dstOffset) (Z.to_nat n)
  = slice (data_of w (f_ino src)) (Z.to_nat srcOffset) (Z.to_nat n).
Proof.
  intros Hd Hs Hn Hde Hse Hne Hpf. unfold Partial.
  destruct (reflinkRangeInternal dst src dstOffset srcOffset n w) as [w1 [e1 |]] eqn:E1.
  2: { cbn [notnil andb]. intros [= <-].
       destruct (reflinkRangeInternal_ok h pf dst src dstOffset srcOffset n w w1
                   ltac:(lia) ltac:(lia) ltac:(lia) E1)
         as (si & di & Hsi & Hdi & Hfit & ->).
       rewrite (data_of_Some _ _ _ Hsi). split; [exact Hfit |].
       rewrite data_of_set_data, Hdi. apply slice_splice_same. lia. }
  apply reflinkRangeInternal_fail_same in E1. subst w1. cbn [notnil andb].
  destruct fallback; [| discriminate].
  destruct (copyFileRange dst src dstOffset srcOffset n w) as [w2 [k [e2 |]]] eqn:E2.
  2: { cbn [notnil andb]. intros [= <-].
       assert (Hn' : 0 <= n) by lia.
       destruct (copyFileRange_ok _ _ _ _ _ _ _ _ _ _ Hn' E2)
         as (si & di & Hsi & Hdi & _ & _ & Hk & ->).
       destruct Hpf as [-> | [Hmax Hfit]]; [simpl in E2; discriminate |].
       split; [exact Hfit |].
       rewrite (data_of_Some _ _ _ Hsi) in *.
       assert (Hkn : k = n) by lia. rewrite Hkn.
       assert (Hnz : (n =? 0) = false) by (apply Z.eqb_neq; lia).
       rewrite Hnz, data_of_set_data, Hdi. apply slice_splice_same. lia. }
  apply copyFileRange_fail_same in E2. subst w2. cbn [notnil andb].
  unfold io_CopyN, io_Copy.
  set (srcdata := data_of w (f_ino src)).
  set (sw := {| sw_w := dst; sw_base := dstOffset; sw_off := 0 |}).
  set (lr := LimitReader (NewSectionReader src srcOffset n) n).
  destruct (copyLoop_rule (H := sectionWriter_Writer (H := File_WriteAt h))
              (bufSize lr) (partial_copy_inv dst src dstOffset srcOffset n srcdata)
              (partial_copy_post dst dstOffset srcOffset n srcdata)
              (fun l => Z.to_nat (lr_N l))
              (fun a b c e => partial_copy_step h dst src dstOffset srcOffset n srcdata
                                Hne Hn Hd Hs Hde Hse (bufSize lr) a b c e (bufSize_pos lr))
              (S (Z.to_nat (remaining lr))) sw lr w 0)
    as ([[[sw' lr'] w3] [written err]] & Hloop & Hle & Hpost).
  - unfold partial_copy_inv, lr, sw, LimitReader.
    rewrite NewSectionReader_nonneg by lia. simpl.
    assert (Hfit : (srcOffset <=? maxint64 - n) = true)
      by (apply Z.leb_le; unfold maxint64; lia).
    rewrite Hfit. simpl.
    do 4 (split; [reflexivity |]). split; [lia |]. split; [lia |]. split; [lia |].
    split; [lia |]. split; [reflexivity |].
    split; [lia | reflexivity].
  - simpl. lia.
  - unfold File_WriterAt. rewrite Hloop.
    simpl in Hle, Hpost.
    destruct (written =? n) eqn:Ewn.
    + apply Z.eqb_eq in Ewn. intros [= <-]. apply Hpost. exact Ewn.
    + apply Z.eqb_neq in Ewn.
      assert (Hlt : (written <? n) = true) by (apply Z.ltb_lt; lia).
      rewrite Hlt. destruct err; discriminate.
Qed.

(** Two bytes of "abc" copied to offset 1 of "xxxxx" on a platform
    without the primitives. *)
Lemma Partial_copies_range_witness :
  exists w',
    Partial quiet_host (P := other) dst_file src_file 1 0 2 true two_files
    = Some (w', None) /\
    slice (data_of w' (f_ino dst_file)) 1 2 = slice abc 0 2.
Proof.
  destruct (Partial quiet_host (P := other) dst_file src_file 1 0 2 true two_files)
    as [[w' [e |]] |] eqn:Hr; [exfalso; vm_compute in Hr; discriminate | | discriminate].
  exists w'. split; [reflexivity |].
  apply (Partial_copies_range quiet_host OtherOS dst_file src_file 1 0 2 true two_files w');
    try lia; try exact Hr.
  - discriminate.
  - left. reflexivity.
Defined.

(** ** What a successful [Reflink] leaves in the destination *)

Lemma splice_at_start (d p : list byte) : splice d 0 p = p ++ drop (length p) d.
Proof. unfold splice. simpl. reflexivity. Qed.

(** X13.  [Reflink] between two different open files, on a platform
    without the primitives or where one accelerated copy can move the whole
    source: when [Reflink] returns success, whichever stage did the work,
    the destination starts with all the bytes of the source. *)
Theorem Reflink_success_prefix (h : Host) (pf : Platform) (dst src : File)
    (fallback : bool) (w w' : World) :
  f_closed dst = false ->
  is_Some (inodes w !! f_ino dst) ->
  f_ino dst <> f_ino src ->
  Z.of_nat (length (data_of w (f_ino src))) < 2 ^ 63 ->
  pf = OtherOS \/ Z.of_nat (length (data_of w (f_ino src))) <= cfr_max h ->
  Reflink h (P := prims h pf) dst src fallback w = Some (w', None) ->
  take (length (data_of w (f_ino src))) (data_of w' (f_ino dst)) = data_of w (f_ino src).
Proof.
  intros Hopen Hex Hne Hsize Hpf Hr.
  destruct (reflinkInternal (Primitives := prims h pf) dst src w) as [w1 [e1 |]] eqn:E1.
  2: { unfold Reflink in Hr. rewrite E1 in Hr. cbn [notnil andb] in Hr.
       injection Hr as <-.
       destruct (reflinkInternal_ok _ _ _ _ _ _ E1) as (si & di & Hsi & Hdi & ->).
       rewrite data_of_set_data, Hdi, (data_of_Some _ _ _ Hsi), splice_at_start.
       apply take_app_length. }
  destruct fallback.
  2: { unfold Reflink in Hr. rewrite E1 in Hr. cbn [notnil andb] in Hr. discriminate. }
  destruct (File_Stat h src w1) as [st | e] eqn:Est.
  2: { unfold Reflink in Hr. rewrite E1 in Hr. cbn [notnil andb] in Hr.
       rewrite Est in Hr. discriminate. }
  destruct (copyFileRange (Primitives := prims h pf) dst src 0 0 (Size st) w1)
    as [w2 [k [e2 |]]] eqn:E2.
  { rewrite (Reflink_stream_content h pf dst src w w1 w2 w' e1 e2 st k
               Hopen Hex Hne Hsize E1 Est E2 Hr).
    apply firstn_all. }
  pose proof (reflinkInternal_fail_same _ _ _ _ _ _ _ E1) as ->.
  unfold Reflink in Hr. rewrite E1 in Hr. cbn [notnil andb] in Hr.
  rewrite Est, E2 in Hr. cbn [notnil] in Hr. injection Hr as <-.
  destruct (File_Stat_inv _ _ _ _ Est) as (_ & x & Hx & Hsz & _).
  assert (Hnn : 0 <= Size st) by lia.
  destruct (copyFileRange_ok _ _ _ _ _ _ _ _ _ _ Hnn E2)
    as (si & di & Hsi & Hdi & _ & _ & Hk & ->).
  destruct Hpf as [-> | Hmax]; [simpl in E2; discriminate |].
  assert (x = si) by congruence. subst x.
  rewrite (data_of_Some _ _ _ Hsi) in *.
  assert (Hkn : k = Z.of_nat (length (i_data si))) by lia.
  destruct (k =? 0) eqn:Ek.
  - apply Z.eqb_eq in Ek.
    assert (Hnil : i_data si = []) by (apply length_zero_iff_nil; lia).
    rewrite Hnil. reflexivity.
  - rewrite data_of_set_data, Hdi, Hkn, Nat2Z.id.
    change (Z.to_nat 0) with 0%nat. rewrite slice_all, splice_at_start.
    apply take_app_length.
Qed.

(** "abc" over "xxxxx" on a platform without the primitives. *)
Lemma Reflink_success_prefix_witness :
  exists w',
    Reflink quiet_host (P := other) dst_file src_file true two_files = Some (w', None) /\
    take 3 (data_of w' (f_ino dst_file)) = abc.
Proof.
  destruct (Reflink quiet_host (P := other) dst_file src_file true two_files)
    as [[w' [e |]] |] eqn:Hr; [exfalso; vm_compute in Hr; discriminate | | discriminate].
  exists w'. split; [reflexivity |].
  apply (Reflink_success_prefix quiet_host OtherOS dst_file src_file true two_files w');
    try reflexivity; try exact Hr.
  - eexists. reflexivity.
  - discriminate.
  - left. reflexivity.
Defined.

(** ** More on the section writer *)

Section SeekFacts.
Context {T : Type}.

(** X15.  Whatever the offset and the whence, [Seek] keeps the offset of a
    section writer non-negative and returns the offset the writer has
    after the call; it touches nothing but the offset, a refused [Seek]
    not even that, and only a [Seek] from the start or from the current
    position is accepted.  Sums that leave the 64-bit range wrap around
    and are judged by their wrapped value. *)
Theorem Seek_keeps_offset (s : sectionWriter T) (offset whence : Z) :
  0 <= sw_off s ->
  let r := sectionWriter_Seek s offset whence in
  0 <= sw_off (fst r) /\ fst (snd r) = sw_off (fst r) /\
  sw_w (fst r) = sw_w s /\ sw_base (fst r) = sw_base s /\
  (snd (snd r) <> None -> fst r = s) /\
  (snd (snd r) = None -> whence = SeekStart \/ whence = SeekCurrent).
Proof.
  intros Hoff. unfold sectionWriter_Seek.
  destruct (whence =? SeekStart) eqn:E0.
  - apply Z.eqb_eq in E0. destruct (offset <? 0) eqn:En; simpl.
    + repeat split; auto; discriminate.
    + apply Z.ltb_ge in En. repeat split; auto; congruence.
  - destruct (whence =? SeekCurrent) eqn:E1.
    + apply Z.eqb_eq in E1. destruct (add64 offset (sw_off s) <? 0) eqn:En; simpl.
      * repeat split; auto; discriminate.
      * apply Z.ltb_ge in En. repeat split; auto; congruence.
    + simpl. repeat split; auto; discriminate.
Qed.
End SeekFacts.

(** A writer at offset 1: a seek past the 64-bit range wraps to a negative
    offset and is refused. *)
Lemma Seek_keeps_offset_witness :
  let s := {| sw_w := dst_file; sw_base := 1; sw_off := 1 |} in
  let r := sectionWriter_Seek s maxint64 SeekCurrent in
  0 <= sw_off (fst r) /\ fst (snd r) = sw_off (fst r) /\
  sw_w (fst r) = sw_w s /\ sw_base (fst r) = sw_base s /\
  (snd (snd r) <> None -> fst r = s) /\
  (snd (snd r) = None -> SeekCurrent = SeekStart \/ SeekCurrent = SeekCurrent).
Proof.
  intros s.
  apply (Seek_keeps_offset s maxint64 SeekCurrent).
  simpl. lia.
Defined.

Lemma splice_app (d p q : list byte) (off : nat) :
  splice (splice d off p) (off + length p) q = splice d off (p ++ q).
Proof.
  unfold splice.
  set (pre := take off d ++ replicate (off - length d) Byte.x00).
  assert (Hpre : length pre = off).
  { subst pre. rewrite length_app, length_take, length_replicate. lia. }
  rewrite !(app_assoc (take off d)). fold pre.
  rewrite (app_assoc pre p).
  rewrite take_app_length' by (rewrite length_app; lia).
  rewrite !length_app, Hpre, length_drop.
  replace (off + length p - (off + length p + (length d - (off + length p))))%nat
    with 0%nat by lia.
  simpl.
  rewrite drop_app_ge by (rewrite length_app; lia).
  rewrite length_app, Hpre, drop_drop.
  rewrite <- !app_assoc. do 3 f_equal. f_equal. lia.
Qed.

Lemma set_data_twice (w : World) (i : nat) (a b : list byte) :
  set_data (set_data w i a) i b = set_data w i b.
Proof.
  unfold set_data. destruct (inodes w !! i) as [x |] eqn:Hx.
  - assert (Hlt : (i < length (inodes w))%nat) by (eapply lookup_lt_Some; exact Hx).
    unfold set_inode. simpl. rewrite list_lookup_insert_eq by exact Hlt.
    simpl. rewrite list_insert_insert_eq. reflexivity.
  - rewrite Hx. reflexivity.
Qed.

(** A write through a section writer on an open file that no size limit
    stops: all bytes are stored at base plus offset. *)
Lemma sectionWriter_Write_full (h : Host) (s : sectionWriter File) (p : list byte)
    (wd : World) :
  f_closed (sw_w s) = false -> fsize_limit h = None ->
  is_Some (inodes wd !! f_ino (sw_w s)) ->
  0 <= sw_base s -> 0 <= sw_off s ->
  sw_base s + sw_off s + Z.of_nat (length p) < 2 ^ 63 ->
  sectionWriter_Write (H := File_WriteAt h) s p wd
  = (set_off s (sw_off s + Z.of_nat (length p)),
     (if Z.of_nat (length p) =? 0 then wd
      else set_data wd (f_ino (sw_w s))
             (splice (data_of wd (f_ino (sw_w s))) (Z.to_nat (sw_base s + sw_off s)) p)),
     (Z.of_nat (length p), None)).
Proof.
  intros Hopen Hlim [x Hx] Hb Ho Hend.
  unfold sectionWriter_Write, WriteAt, File_WriteAt. rewrite Hopen.
  rewrite add64_exact by (unfold int64_range; lia).
  destruct (sw_base s + sw_off s <? 0) eqn:En; [apply Z.ltb_lt in En; lia |].
  unfold pwrite. rewrite Hx, Hlim. rewrite Z.min_id, Z.ltb_irrefl.
  rewrite Nat2Z.id, firstn_all. simpl wrapErr.
  rewrite add64_exact by (unfold int64_range; lia).
  rewrite (data_of_Some _ _ _ Hx). reflexivity.
Qed.

(** X16.  Two [Write]s in a row through a section writer, on an open file
    that no size limit stops and with offsets inside the 64-bit range, are
    one [Write] of the two buffers joined: same bytes in the file, same
    writer afterwards, and each call reports all its bytes written. *)
Theorem sectionWriter_writes_join (h : Host) (s : sectionWriter File) (p q : list byte)
    (wd : World) :
  f_closed (sw_w s) = false -> fsize_limit h = None ->
  is_Some (inodes wd !! f_ino (sw_w s)) ->
  0 <= sw_base s -> 0 <= sw_off s ->
  sw_base s + sw_off s + Z.of_nat (length p) + Z.of_nat (length q) < 2 ^ 63 ->
  exists s1 wd1 s2 wd2,
    sectionWriter_Write (H := File_WriteAt h) s p wd
    = (s1, wd1, (Z.of_nat (length p), None)) /\
    sectionWriter_Write (H := File_WriteAt h) s1 q wd1
    = (s2, wd2, (Z.of_nat (length q), None)) /\
    sectionWriter_Write (H := File_WriteAt h) s (p ++ q) wd
    = (s2, wd2, (Z.of_nat (length (p ++ q)), None)).
Proof.
  intros Hopen Hlim Hex Hb Ho Hend.
  pose proof (sectionWriter_Write_full h s p wd Hopen Hlim Hex Hb Ho ltac:(lia)) as W1.
  pose proof (sectionWriter_Write_full h s (p ++ q) wd Hopen Hlim Hex Hb Ho
                ltac:(rewrite length_app; lia)) as W3.
  set (s1 := set_off s (sw_off s + Z.of_nat (length p))) in *.
  set (i := f_ino (sw_w s)) in *.
  set (o := Z.to_nat (sw_base s + sw_off s)) in *.
  set (wd1 := if Z.of_nat (length p) =? 0 then wd
              else set_data wd i (splice (data_of wd i) o p)) in *.
  assert (Hex1 : is_Some (inodes wd1 !! f_ino (sw_w s1))).
  { subst wd1 s1. simpl. fold i. destruct (_ =? 0); [exact Hex |].
    apply (only_data_is_Some i i wd); [apply set_data_only_data | exact Hex]. }
  pose proof (sectionWriter_Write_full h s1 q wd1 Hopen Hlim Hex1 Hb
                ltac:(subst s1; simpl; lia) ltac:(subst s1; simpl; lia)) as W2.
  exists s1, wd1. do 2 eexists.
  split; [exact W1 |]. split; [exact W2 |]. rewrite W3.
  subst s1. unfold set_off. simpl. fold i.
  rewrite length_app, Nat2Z.inj_add, Z.add_assoc.
  f_equal. f_equal.
  destruct (Z.of_nat (length p) =? 0) eqn:Ep.
  - apply Z.eqb_eq in Ep.
    assert (Hp : p = []) by (apply length_zero_iff_nil; lia).
    subst p wd1. simpl. rewrite Z.add_0_r. fold o. reflexivity.
  - apply Z.eqb_neq in Ep. destruct (Z.of_nat (length q) =? 0) eqn:Eq.
    + apply Z.eqb_eq in Eq.
      assert (Hq : q = []) by (apply length_zero_iff_nil; lia).
      subst q. rewrite app_nil_r. simpl. rewrite Z.add_0_r.
      assert (Hnz : (Z.of_nat (length p) =? 0) = false) by (apply Z.eqb_neq; lia).
      rewrite Hnz. reflexivity.
    + apply Z.eqb_neq in Eq.
      assert (Hnz : (Z.of_nat (length p) + Z.of_nat (length q) =? 0) = false)
        by (apply Z.eqb_neq; lia).
      rewrite Hnz. subst wd1. rewrite data_of_set_data.
      destruct Hex as [x Hx]. rewrite Hx. rewrite set_data_twice.
      replace (Z.to_nat (sw_base s + (sw_off s + Z.of_nat (length p))))
        with (o + length p)%nat by (subst o; lia).
      rewrite splice_app. reflexivity.
Qed.

(** "ab" then "c" at offset 2 of "xxxxx": the file ends up as
    "xxabc", as after one write of "abc". *)
Lemma sectionWriter_writes_join_witness :
  let s := {| sw_w := dst_file; sw_base := 1; sw_off := 1 |} in
  exists s1 wd1 s2 wd2,
    sectionWriter_Write (H := File_WriteAt quiet_host) s [Byte.x61; Byte.x62] two_files
    = (s1, wd1, (2, None)) /\
    sectionWriter_Write (H := File_WriteAt quiet_host) s1 [Byte.x63] wd1
    = (s2, wd2, (1, None)) /\
    sectionWriter_Write (H := File_WriteAt quiet_host) s abc two_files
    = (s2, wd2, (3, None)).
Proof.
  intros s.
  apply (sectionWriter_writes_join quiet_host s [Byte.x61; Byte.x62] [Byte.x63] two_files);
    try reflexivity; simpl; try lia.
  eexists. reflexivity.
Defined.
